(** * NBA injury report pipeline: a shallow embedding and its properties

    The development follows [injury_report_dashboard.py].  Python [str]
    values are Rocq strings whose characters are read as code points; the
    character functions below are those of Python on the ASCII range
    together with U+00A0 (the one non-ASCII character the source names).
    A [Row] is the dictionary the extraction strategies build: the six text
    fields are always present as strings, [page] and [rowIndex] are
    integers.  Distinct elements of a list of rows are distinct objects. *)

From Stdlib Require Import String Ascii List ZArith NArith Lia Bool Permutation
  DecimalString.
From stdpp Require Import gmap strings.
Import ListNotations.
Local Open Scope string_scope.
Local Open Scope Z_scope.

(* ===================================================================== *)
(** ** Python string primitives *)
(* ===================================================================== *)

Module PyStr.

Definition code (c : ascii) : N := N_of_ascii c.

Definition in_range (lo hi : N) (c : ascii) : bool :=
  ((lo <=? code c) && (code c <=? hi))%N.

(** [str.isspace] for one character, which is also what [\s] matches in a
    [str] pattern: TAB..CR, FS..US, SPACE, NEL and NBSP below U+0100. *)
Definition is_space (c : ascii) : bool :=
  in_range 9 13 c || in_range 28 32 c || (code c =? 133)%N || (code c =? 160)%N.

Definition is_digit (c : ascii) : bool := in_range 48 57 c.
Definition is_upper (c : ascii) : bool := in_range 65 90 c.
Definition is_lower (c : ascii) : bool := in_range 97 122 c.
Definition is_alpha (c : ascii) : bool := is_upper c || is_lower c.

(** [\w] in a [str] pattern, on the ASCII range. *)
Definition is_word (c : ascii) : bool :=
  is_alpha c || is_digit c || (code c =? 95)%N.

Definition lower_char (c : ascii) : ascii :=
  if is_upper c then ascii_of_N (code c + 32) else c.
Definition upper_char (c : ascii) : ascii :=
  if is_lower c then ascii_of_N (code c - 32) else c.

Fixpoint map_chars (f : ascii -> ascii) (s : string) : string :=
  match s with
  | EmptyString => EmptyString
  | String c s' => String (f c) (map_chars f s')
  end.

Definition lower (s : string) : string := map_chars lower_char s.
Definition upper (s : string) : string := map_chars upper_char s.

Fixpoint filter_chars (keep : ascii -> bool) (s : string) : string :=
  match s with
  | EmptyString => EmptyString
  | String c s' =>
      if keep c then String c (filter_chars keep s') else filter_chars keep s'
  end.

(** [s.lstrip(chars)], [s.rstrip(chars)] and [s.strip(chars)], the set of
    characters given as a predicate. *)
Fixpoint lstrip_by (p : ascii -> bool) (s : string) : string :=
  match s with
  | EmptyString => EmptyString
  | String c s' => if p c then lstrip_by p s' else s
  end.

Fixpoint rstrip_by (p : ascii -> bool) (s : string) : string :=
  match s with
  | EmptyString => EmptyString
  | String c s' =>
      match rstrip_by p s' with
      | EmptyString => if p c then EmptyString else String c EmptyString
      | r => String c r
      end
  end.

Definition strip_by (p : ascii -> bool) (s : string) : string :=
  rstrip_by p (lstrip_by p s).

Definition strip (s : string) : string := strip_by is_space s.

Definition in_chars (chars : string) (c : ascii) : bool :=
  existsb (Ascii.eqb c) (list_ascii_of_string chars).

(** [s.strip(chars)] *)
Definition strip_chars (chars : string) (s : string) : string :=
  strip_by (in_chars chars) s.

(** Truthiness of a string: [bool(s)]. *)
Definition nonempty (s : string) : bool :=
  match s with EmptyString => false | _ => true end.

(** [a or b] on strings. *)
Definition or_else (a b : string) : string := if nonempty a then a else b.

(** [s.startswith(p)] *)
Fixpoint startswith (p s : string) : bool :=
  match p, s with
  | EmptyString, _ => true
  | String a p', String b s' => Ascii.eqb a b && startswith p' s'
  | String _ _, EmptyString => false
  end.

(** [p in s] *)
Fixpoint contains (p s : string) : bool :=
  startswith p s ||
  match s with
  | EmptyString => false
  | String _ s' => contains p s'
  end.

Fixpoint rev_acc (s acc : string) : string :=
  match s with
  | EmptyString => acc
  | String c s' => rev_acc s' (String c acc)
  end.
Definition rev (s : string) : string := rev_acc s EmptyString.

(** [s.endswith(p)] *)
Definition endswith (p s : string) : bool := startswith (rev p) (rev s).

Fixpoint take (n : nat) (s : string) : string :=
  match n, s with
  | S n', String c s' => String c (take n' s')
  | _, _ => EmptyString
  end.

Fixpoint drop (n : nat) (s : string) : string :=
  match n, s with
  | S n', String _ s' => drop n' s'
  | _, _ => s
  end.

(** [s.replace(c, d)] for one-character [c] and [d]. *)
Definition replace_char (c d : ascii) (s : string) : string :=
  map_chars (fun x => if Ascii.eqb x c then d else x) s.

(** [s.replace(old, "")]: every non-overlapping occurrence of [old], left
    to right, is removed.  [skip] counts the characters of the occurrence
    under way. *)
Fixpoint remove_all_aux (old : string) (skip : nat) (s : string) : string :=
  match s with
  | EmptyString => EmptyString
  | String c s' =>
      match skip with
      | S k => remove_all_aux old k s'
      | O =>
          if nonempty old && startswith old s
          then remove_all_aux old (Nat.pred (String.length old)) s'
          else String c (remove_all_aux old O s')
      end
  end.
Definition remove_all (old s : string) : string := remove_all_aux old O s.

(** [re.sub(r"\s+", " ", s)]: every maximal run of white space becomes one
    space.  [in_run] tells that the previous character was white space. *)
Fixpoint collapse_ws (in_run : bool) (s : string) : string :=
  match s with
  | EmptyString => EmptyString
  | String c s' =>
      if is_space c
      then (if in_run then collapse_ws true s'
            else String " " (collapse_ws true s'))
      else String c (collapse_ws false s')
  end.

Definition nbsp : ascii := ascii_of_N 160.

(** [" ".join([a, b])] *)
Definition join2 (a b : string) : string := a ++ " " ++ b.

(** [s[:1].islower()] *)
Definition first_islower (s : string) : bool :=
  match s with
  | String c _ => is_lower c
  | EmptyString => false
  end.

End PyStr.

(* ===================================================================== *)
(** ** Player-name keys for head-shot lookup *)
(* ===================================================================== *)

(** The name key is computed on Unicode text: a list of code points.
    What the code reads of the Unicode Character Database, through
    [unicodedata], [str.lower], [str.strip] and [\s], are the tables of
    the interpreter that runs it. *)
Definition ustring : Type := list N.

Record UnicodeData : Type := mkUnicodeData {
  (** the full compatibility decomposition of one code point *)
  ucd_decomposition : N -> list N;
  (** [unicodedata.combining]: the canonical combining class *)
  ucd_combining : N -> N;
  (** the full lower-case mapping of one code point *)
  ucd_tolower_full : N -> list N;
  ucd_cased : N -> bool;
  ucd_case_ignorable : N -> bool;
  (** [str.isspace] for one code point, which is also what [\s] matches *)
  ucd_space : N -> bool
}.

Definition U_SPACE : N := 32.
Definition U_APOSTROPHE : N := 39.
Definition U_HYPHEN : N := 45.
Definition U_FULL_STOP : N := 46.
Definition U_GRAVE : N := 96.
Definition U_NBSP : N := 160.
Definition U_CAPITAL_SIGMA : N := 931.
Definition U_FINAL_SIGMA : N := 962.
Definition U_SMALL_SIGMA : N := 963.

(** The canonical ordering of normalisation: a character of non-zero
    combining class moves back over the characters of greater class
    before it.  [out] is the text so far, last character first. *)
Fixpoint insert_mark (ccc : N -> N) (c : N) (out : list N) : list N :=
  match out with
  | [] => [c]
  | p :: out' =>
      if (ccc c <? ccc p)%N then p :: insert_mark ccc c out'
      else c :: out
  end.

Definition canonical_order (ccc : N -> N) (s : ustring) : ustring :=
  rev (fold_left
         (fun out c => if (ccc c =? 0)%N then c :: out else insert_mark ccc c out)
         s []).

(** [unicodedata.normalize("NFKD", s)] *)
Definition unicodedata_normalize_NFKD (U : UnicodeData) (s : ustring) : ustring :=
  canonical_order (ucd_combining U) (flat_map (ucd_decomposition U) s).

(** [unicodedata.combining(c)] as a truth value *)
Definition unicodedata_combining (U : UnicodeData) (c : N) : bool :=
  negb (ucd_combining U c =? 0)%N.

Fixpoint ulstrip (sp : N -> bool) (s : ustring) : ustring :=
  match s with
  | [] => []
  | c :: s' => if sp c then ulstrip sp s' else s
  end.

Fixpoint urstrip (sp : N -> bool) (s : ustring) : ustring :=
  match s with
  | [] => []
  | c :: s' =>
      match urstrip sp s' with
      | [] => if sp c then [] else [c]
      | r => c :: r
      end
  end.

(** [s.strip()] *)
Definition ustrip (U : UnicodeData) (s : ustring) : ustring :=
  urstrip (ucd_space U) (ulstrip (ucd_space U) s).

(** The first character that is not case-ignorable. *)
Fixpoint skip_ignorable (U : UnicodeData) (s : ustring) : option N :=
  match s with
  | [] => None
  | c :: s' => if ucd_case_ignorable U c then skip_ignorable U s' else Some c
  end.

(** Whether a capital sigma stands at the end of a word: after a cased
    letter and not before one, case-ignorable characters apart.
    [before] is the text before it, last character first. *)
Definition final_sigma (U : UnicodeData) (before after : ustring) : bool :=
  match skip_ignorable U before with
  | Some c =>
      ucd_cased U c
      && match skip_ignorable U after with
         | Some d => negb (ucd_cased U d)
         | None => true
         end
  | None => false
  end.

(** [s.lower()]: every character by its full mapping, the capital sigma
    by its place in the word. *)
Fixpoint ulower_from (U : UnicodeData) (before s : ustring) : ustring :=
  match s with
  | [] => []
  | c :: s' =>
      ((if (c =? U_CAPITAL_SIGMA)%N
        then [if final_sigma U before s' then U_FINAL_SIGMA else U_SMALL_SIGMA]
        else ucd_tolower_full U c)
       ++ ulower_from U (c :: before) s')%list
  end.

Definition ulower (U : UnicodeData) (s : ustring) : ustring :=
  ulower_from U [] s.

(** [s.replace(c, d)] for one-character [c] and [d] *)
Definition ureplace (c d : N) (s : ustring) : ustring :=
  map (fun x => if (x =? c)%N then d else x) s.

(** [re.sub(r"\s+", " ", s)] *)
Fixpoint ucollapse_ws (sp : N -> bool) (in_run : bool) (s : ustring) : ustring :=
  match s with
  | [] => []
  | c :: s' =>
      if sp c
      then (if in_run then ucollapse_ws sp true s'
            else U_SPACE :: ucollapse_ws sp true s')
      else c :: ucollapse_ws sp false s'
  end.

(** [c in ".'`"] *)
Definition is_name_punctuation (c : N) : bool :=
  (c =? U_FULL_STOP)%N || (c =? U_APOSTROPHE)%N || (c =? U_GRAVE)%N.

Definition normalize_player_name_key (U : UnicodeData) (value : ustring)
  : ustring :=
  let normalized := unicodedata_normalize_NFKD U value in
  let ascii_value :=
    List.filter (fun c => negb (unicodedata_combining U c)) normalized in
  let compact := ulower U (ustrip U ascii_value) in
  let compact := ureplace U_NBSP U_SPACE compact in
  let compact := List.filter (fun c => negb (is_name_punctuation c)) compact in
  let compact := ureplace U_HYPHEN U_SPACE compact in
  let compact := ucollapse_ws (ucd_space U) false compact in
  compact.

(* ===================================================================== *)
(** ** Regular expressions *)
(* ===================================================================== *)

(** The fragment of Python's [re] that the program's patterns use, with
    its backtracking order: alternatives left to right, repetitions
    greedy.  A run returns every way to match at one position, most
    preferred first; [re.search] takes the first of the leftmost position
    that has one.  Repetition is only ever applied to a character class in
    these patterns, and no pattern matches the empty string. *)

Module Re.

Inductive citem : Type :=
| One (c : ascii)            (* a literal member *)
| Range (lo hi : ascii)      (* lo-hi *)
| Digit                      (* \d *)
| Space.                     (* \s *)

Definition item_has (i : citem) (c : ascii) : bool :=
  match i with
  | One a => Ascii.eqb a c
  | Range lo hi => PyStr.in_range (PyStr.code lo) (PyStr.code hi) c
  | Digit => PyStr.is_digit c
  | Space => PyStr.is_space c
  end.

Definition set_has (cs : list citem) (c : ascii) : bool :=
  existsb (fun i => item_has i c) cs.

(** Under [re.I] a character is in a class when it, its lower case or its
    upper case is. *)
Definition class_has (ic : bool) (cs : list citem) (c : ascii) : bool :=
  set_has cs c
  || (ic && (set_has cs (PyStr.lower_char c) || set_has cs (PyStr.upper_char c))).

Definition char_eq (ic : bool) (a b : ascii) : bool :=
  if ic then Ascii.eqb (PyStr.lower_char a) (PyStr.lower_char b)
  else Ascii.eqb a b.

Inductive regex : Type :=
| Lit (s : string)                                  (* literal text *)
| Cls (cs : list citem)                             (* [..] once *)
| Rep (cs : list citem) (lo : nat) (hi : option nat) (* [..]{lo,hi}, greedy *)
| Seq (a b : regex)
| Alt (a b : regex)
| Grp (n : nat) (a : regex)                         (* capturing group n *)
| WordB                                             (* \b *)
| Eol.                                              (* $ *)

(** Where the matcher stands: the character before, the offset, and the
    text still ahead. *)
Record cursor : Type := Cursor {
  prev : option ascii;
  pos : nat;
  rest : string
}.

Definition caps : Type := list (nat * string).

Fixpoint advance (n : nat) (k : cursor) : cursor :=
  match n with
  | O => k
  | S n' =>
      match rest k with
      | EmptyString => k
      | String c r => advance n' (Cursor (Some c) (S (pos k)) r)
      end
  end.

Fixpoint lit_here (ic : bool) (l s : string) : bool :=
  match l, s with
  | EmptyString, _ => true
  | String a l', String b s' => char_eq ic a b && lit_here ic l' s'
  | String _ _, EmptyString => false
  end.

(** How many leading characters of [s] are in the class, [cap] at most
    ([None]: no bound). *)
Fixpoint span_len (ic : bool) (cs : list citem) (cap : option nat) (s : string)
  : nat :=
  match cap with
  | Some O => O
  | _ =>
      match s with
      | String c s' =>
          if class_has ic cs c
          then S (span_len ic cs (option_map Nat.pred cap) s')
          else O
      | EmptyString => O
      end
  end.

(** The counts a greedy repetition tries: [lo + extra] down to [lo]. *)
Fixpoint countdown (lo extra : nat) : list nat :=
  match extra with
  | O => [lo]
  | S e => (lo + extra)%nat :: countdown lo e
  end.

Definition is_word_opt (o : option ascii) : bool :=
  match o with Some c => PyStr.is_word c | None => false end.

Definition head_opt (s : string) : option ascii :=
  match s with String c _ => Some c | EmptyString => None end.

Definition newline : ascii := ascii_of_N 10.

Fixpoint run (ic : bool) (r : regex) (k : cursor) (g : caps)
  : list (cursor * caps) :=
  match r with
  | Lit l =>
      if lit_here ic l (rest k) then [(advance (String.length l) k, g)] else []
  | Cls cs =>
      match rest k with
      | String c _ => if class_has ic cs c then [(advance 1 k, g)] else []
      | EmptyString => []
      end
  | Rep cs lo hi =>
      let n := span_len ic cs hi (rest k) in
      if (n <? lo)%nat then []
      else map (fun i => (advance i k, g)) (countdown lo (n - lo))
  | Seq a b =>
      flat_map (fun kg => run ic b (fst kg) (snd kg)) (run ic a k g)
  | Alt a b => (run ic a k g ++ run ic b k g)%list
  | Grp n a =>
      map (fun kg =>
             (fst kg, (n, PyStr.take (pos (fst kg) - pos k) (rest k)) :: snd kg))
          (run ic a k g)
  | WordB =>
      if xorb (is_word_opt (prev k)) (is_word_opt (head_opt (rest k)))
      then [(k, g)] else []
  | Eol =>
      match rest k with
      | EmptyString => [(k, g)]
      | String c EmptyString => if Ascii.eqb c newline then [(k, g)] else []
      | _ => []
      end
  end.

(** A match object: [m.start()], [m.end()], and the groups. *)
Record rmatch : Type := RMatch {
  m_start : nat;
  m_end : nat;
  m_groups : caps
}.

Definition first_match (ic : bool) (r : regex) (k : cursor) : option rmatch :=
  match run ic r k [] with
  | (k', g) :: _ => Some (RMatch (pos k) (pos k') g)
  | [] => None
  end.

Fixpoint search_from (ic : bool) (r : regex) (p : option ascii) (i : nat)
  (s : string) : option rmatch :=
  match first_match ic r (Cursor p i s) with
  | Some m => Some m
  | None =>
      match s with
      | EmptyString => None
      | String c s' => search_from ic r (Some c) (S i) s'
      end
  end.

(** [re.search] and [re.match] *)
Definition search (ic : bool) (r : regex) (s : string) : option rmatch :=
  search_from ic r None O s.

Definition match_ (ic : bool) (r : regex) (s : string) : option rmatch :=
  first_match ic r (Cursor None O s).

Definition found (o : option rmatch) : bool :=
  match o with Some _ => true | None => false end.

(** [m.group(n)] for a group that took part in the match; [m.group(0)]. *)
Fixpoint group (n : nat) (g : caps) : string :=
  match g with
  | [] => EmptyString
  | (i, t) :: g' => if (i =? n)%nat then t else group n g'
  end.

Definition group0 (s : string) (m : rmatch) : string :=
  PyStr.take (m_end m - m_start m) (PyStr.drop (m_start m) s).

(** The non-overlapping matches from left to right, as [re.finditer]
    yields them; [skip] counts the characters still inside the last one. *)
Fixpoint spans_from (ic : bool) (r : regex) (p : option ascii) (i : nat)
  (s : string) (skip : nat) : list (nat * nat) :=
  match skip with
  | S k =>
      match s with
      | String c s' => spans_from ic r (Some c) (S i) s' k
      | EmptyString => []
      end
  | O =>
      match first_match ic r (Cursor p i s) with
      | Some m =>
          (m_start m, m_end m) ::
          match s with
          | String c s' =>
              spans_from ic r (Some c) (S i) s' (m_end m - m_start m - 1)
          | EmptyString => []
          end
      | None =>
          match s with
          | String c s' => spans_from ic r (Some c) (S i) s' O
          | EmptyString => []
          end
      end
  end.

Definition finditer (ic : bool) (r : regex) (s : string) : list (nat * nat) :=
  spans_from ic r None O s O.

(** [len(r.findall(s))] *)
Definition findall_count (ic : bool) (r : regex) (s : string) : nat :=
  List.length (finditer ic r s).

(** [r.sub("", s)] *)
Fixpoint sub_empty_from (ic : bool) (r : regex) (p : option ascii) (i : nat)
  (s : string) (skip : nat) : string :=
  match s with
  | EmptyString => EmptyString
  | String c s' =>
      match skip with
      | S k => sub_empty_from ic r (Some c) (S i) s' k
      | O =>
          match first_match ic r (Cursor p i s) with
          | Some m =>
              match (m_end m - m_start m)%nat with
              | O => String c (sub_empty_from ic r (Some c) (S i) s' O)
              | S k => sub_empty_from ic r (Some c) (S i) s' k
              end
          | None => String c (sub_empty_from ic r (Some c) (S i) s' O)
          end
      end
  end.

Definition sub_empty (ic : bool) (r : regex) (s : string) : string :=
  sub_empty_from ic r None O s O.

(** Pattern-building shorthands. *)
Fixpoint seq (rs : list regex) : regex :=
  match rs with
  | [] => Lit EmptyString
  | [r] => r
  | r :: rs' => Seq r (seq rs')
  end.

Fixpoint alt (rs : list regex) : regex :=
  match rs with
  | [] => Cls []
  | [r] => r
  | r :: rs' => Alt r (alt rs')
  end.

Definition lits (ls : list string) : regex := alt (map Lit ls).

Definition star (cs : list citem) : regex := Rep cs 0 None.
Definition plus (cs : list citem) : regex := Rep cs 1 None.
Definition times (cs : list citem) (n : nat) : regex := Rep cs n (Some n).
Definition between (cs : list citem) (lo hi : nat) : regex := Rep cs lo (Some hi).

End Re.

(* ===================================================================== *)
(** ** Outcomes of code that may raise *)
(* ===================================================================== *)

Inductive exn : Type :=
| ValueError
| OtherError (what : string).

(** A call either returns a value or raises. *)
Inductive outcome (A : Type) : Type :=
| Returns (a : A)
| Raises (e : exn).
Arguments Returns {A} a.
Arguments Raises {A} e.

#[global] Instance outcome_bind : MBind outcome := fun A B f x =>
  match x with
  | Returns a => f a
  | Raises e => Raises e
  end.

(* ===================================================================== *)
(** ** Time stamps in file names *)
(* ===================================================================== *)

(** [url.split("/")[-1]] *)
Fixpoint last_segment_aux (s acc : string) : string :=
  match s with
  | EmptyString => PyStr.rev acc
  | String c s' =>
      if Ascii.eqb c "/" then last_segment_aux s' EmptyString
      else last_segment_aux s' (String c acc)
  end.
Definition last_segment (url : string) : string :=
  last_segment_aux url EmptyString.

Fixpoint digits_value (acc : Z) (s : string) : Z :=
  match s with
  | EmptyString => acc
  | String c s' => digits_value (10 * acc + (Z.of_N (PyStr.code c) - 48)) s'
  end.

Fixpoint all_chars (p : ascii -> bool) (s : string) : bool :=
  match s with
  | EmptyString => true
  | String c s' => p c && all_chars p s'
  end.

(** [int(s)] for a string of decimal digits; anything else is taken to
    raise [ValueError] (the other spellings [int] accepts do not reach it
    here, its argument having been filtered down to digits). *)
Definition py_int (s : string) : outcome Z :=
  if PyStr.nonempty s && all_chars PyStr.is_digit s
  then Returns (digits_value 0 s)
  else Raises ValueError.

(** r"Injury-Report_(\d{4}-\d{2}-\d{2})_([0-9_:\-]{1,8})(AM|PM)", re.I *)
Definition time_parts_regex : Re.regex :=
  Re.seq
    [ Re.Lit "Injury-Report_";
      Re.Grp 1 (Re.seq [ Re.times [Re.Digit] 4; Re.Lit "-";
                         Re.times [Re.Digit] 2; Re.Lit "-";
                         Re.times [Re.Digit] 2 ]);
      Re.Lit "_";
      Re.Grp 2 (Re.between [Re.Range "0" "9"; Re.One "_"; Re.One ":"; Re.One "-"] 1 8);
      Re.Grp 3 (Re.lits ["AM"; "PM"]) ].

(** [s[:-2]] and [s[-2:]] *)
Definition all_but_last2 (s : string) : string :=
  PyStr.take (String.length s - 2) s.
Definition last2 (s : string) : string :=
  PyStr.drop (String.length s - 2) s.

Definition time_parts : Type := string * Z * Z * string.

Definition parse_pdf_time_parts (url : string) : outcome (option time_parts) :=
  let file_name := last_segment url in
  match Re.search true time_parts_regex file_name with
  | None => Returns None
  | Some m =>
      let date_str := Re.group 1 (Re.m_groups m) in
      let raw_time_str := Re.group 2 (Re.m_groups m) in
      let meridiem := PyStr.upper (Re.group 3 (Re.m_groups m)) in
      let digits := PyStr.filter_chars PyStr.is_digit raw_time_str in
      if negb (PyStr.nonempty digits) then Returns None
      else
        hm ←
          (if (String.length digits <=? 2)%nat
           then h ← py_int digits; Returns (h, 0)
           else h ← py_int (all_but_last2 digits);
                mi ← py_int (last2 digits);
                Returns (h, mi));
        let '(hour, minutes) := hm in
        if (hour <? 1) || (hour >? 12) || (minutes <? 0) || (minutes >? 59)
        then Returns None
        else Returns (Some (date_str, hour, minutes, meridiem))
  end.

(** *** The calendar of [datetime] *)

Definition is_leap (y : Z) : bool :=
  (y mod 4 =? 0) && (negb (y mod 100 =? 0) || (y mod 400 =? 0)).

Definition days_in_month (y m : Z) : Z :=
  if m =? 2 then (if is_leap y then 29 else 28)
  else if (m =? 4) || (m =? 6) || (m =? 9) || (m =? 11) then 30
  else 31.

Definition days_before_year (y : Z) : Z :=
  let p := y - 1 in p * 365 + p / 4 - p / 100 + p / 400.

Fixpoint days_before_month_aux (y : Z) (m : nat) : Z :=
  match m with
  | O => 0
  | S m' => days_before_month_aux y m' + days_in_month y (Z.of_nat m)
  end.

Definition days_before_month (y m : Z) : Z :=
  days_before_month_aux y (Z.to_nat (m - 1)).

(** [date(y, m, d).toordinal()] *)
Definition ymd2ord (y m d : Z) : Z :=
  days_before_year y + days_before_month y m + d.

Record datetime : Type := Datetime {
  dt_year : Z; dt_month : Z; dt_day : Z; dt_hour : Z; dt_minute : Z
}.

(** [datetime.strptime(f"{date_str}T{hour:02d}:{minutes:02d}:00",
    "%Y-%m-%dT%H:%M:%S")], where [date_str] has the shape the file-name
    pattern gives it (four digits, two, two).  The text is built from the
    fields and read back at once, so the model works on the fields:
    the directives accept months 01-12, days 01-31, hours 00-23 and
    minutes 00-59, and the [datetime] constructor rejects year 0 and a
    day beyond the month's length; every rejection is a [ValueError]. *)
Definition date_year (date_str : string) : Z :=
  digits_value 0 (PyStr.take 4 date_str).
Definition date_month (date_str : string) : Z :=
  digits_value 0 (PyStr.take 2 (PyStr.drop 5 date_str)).
Definition date_day (date_str : string) : Z :=
  digits_value 0 (PyStr.take 2 (PyStr.drop 8 date_str)).

Definition valid_date (date_str : string) : bool :=
  let y := date_year date_str in
  let m := date_month date_str in
  let d := date_day date_str in
  (1 <=? y) && (y <=? 9999) && (1 <=? m) && (m <=? 12)
  && (1 <=? d) && (d <=? days_in_month y m).

Definition strptime (date_str : string) (hour minutes : Z) : outcome datetime :=
  if valid_date date_str
     && (0 <=? hour) && (hour <=? 23) && (0 <=? minutes) && (minutes <=? 59)
  then Returns (Datetime (date_year date_str) (date_month date_str)
                         (date_day date_str) hour minutes)
  else Raises ValueError.

(** Seconds from 1970-01-01T00:00:00 to the reading [dt], both taken on the
    same clock. *)
Definition wall_seconds (dt : datetime) : Z :=
  (ymd2ord (dt_year dt) (dt_month dt) (dt_day dt) - 719163) * 86400
  + dt_hour dt * 3600 + dt_minute dt * 60.

(** The readings a [datetime] can hold, 0001-01-01T00:00:00 to
    9999-12-31T23:59:59, in seconds from 1970-01-01T00:00:00 on the same
    clock. *)
Definition MIN_READING : Z := -62135596800.
Definition MAX_READING : Z := 253402300799.

Definition in_years (t : Z) : bool := (MIN_READING <=? t) && (t <=? MAX_READING).

(** [local(u)] of [datetime._mktime]: the local reading at the instant [u],
    built by [time.localtime(u)] and the [datetime] constructor, which
    rejects a year outside 1..9999 with [ValueError].  [utcoffset u] is the
    zone's offset from UTC, in seconds, in force at the instant [u];
    [time.localtime] itself is taken not to fail (it does not on a 64-bit
    [time_t] for instants this near the years 1 to 9999). *)
Definition local (utcoffset : Z -> Z) (u : Z) : outcome Z :=
  let reading := u + utcoffset u in
  if in_years reading then Returns reading else Raises ValueError.

Definition max_fold_seconds : Z := 24 * 3600.

(** [datetime._mktime] for a reading [t] with [fold = 0]: the instant
    whose local reading is [t], the earlier one when there are two, and
    the later candidate when [t] falls in a gap. *)
Definition mktime (utcoffset : Z -> Z) (t : Z) : outcome Z :=
  lt ← local utcoffset t;
  let a := lt - t in
  let u1 := t - a in
  t1 ← local utcoffset u1;
  found ←
    (if t1 =? t then
       let u2 := u1 - max_fold_seconds in
       lt2 ← local utcoffset u2;
       let b := lt2 - u2 in
       Returns (if a =? b then inl u1 else inr b)
     else Returns (inr (t1 - u1)));
  match found with
  | inl u => Returns u
  | inr b =>
      let u2 := t - b in
      t2 ← local utcoffset u2;
      if t2 =? t then Returns u2
      else if t1 =? t then Returns u1
      else Returns (Z.max u1 u2)
  end.

(** [int(dt.timestamp())] for a naive [dt]: the reading is local time.  The
    value is a whole number of seconds, so [int] changes nothing. *)
Definition timestamp (utcoffset : Z -> Z) (dt : datetime) : outcome Z :=
  mktime utcoffset (wall_seconds dt).

(** The two [if]s that turn a 12-hour reading into a 24-hour one. *)
Definition to_24h (hour : Z) (meridiem : string) : Z :=
  let hour := if String.eqb meridiem "PM" && (hour <? 12) then hour + 12 else hour in
  let hour := if String.eqb meridiem "AM" && (hour =? 12) then 0 else hour in
  hour.

Definition parse_pdf_datetime (utcoffset : Z -> Z) (url : string) : outcome Z :=
  parts ← parse_pdf_time_parts url;
  match parts with
  | None => Returns 0
  | Some (date_str, hour, minutes, meridiem) =>
      match (dt ← strptime date_str (to_24h hour meridiem) minutes;
             timestamp utcoffset dt) with
      | Returns epoch => Returns epoch
      | Raises ValueError => Returns 0
      | Raises e => Raises e
      end
  end.

(** [f"{n:02d}"] for [n >= 0] *)
Definition fmt_02d (n : Z) : string :=
  let s := DecimalString.NilZero.string_of_uint (N.to_uint (Z.to_N n)) in
  if n <? 10 then "0" ++ s else s.

Definition parse_pdf_time_label (url : string) : outcome string :=
  parts ← parse_pdf_time_parts url;
  match parts with
  | None => Returns ""
  | Some (_, hour, minutes, meridiem) =>
      Returns (fmt_02d hour ++ ":" ++ fmt_02d minutes ++ " " ++ meridiem ++ " ET")
  end.

(* ===================================================================== *)
(** ** Rows, payloads and statistics *)
(* ===================================================================== *)

Record Row : Type := mkRow {
  gameTime : string;
  matchup : string;
  team : string;
  player : string;
  status : string;
  reason : string;
  page : Z;
  rowIndex : Z;
  gameDate : option string     (* absent until the reconciler sets it *)
}.

Definition set_gameTime (v : string) (r : Row) : Row :=
  mkRow v (matchup r) (team r) (player r) (status r) (reason r)
        (page r) (rowIndex r) (gameDate r).
Definition set_matchup (v : string) (r : Row) : Row :=
  mkRow (gameTime r) v (team r) (player r) (status r) (reason r)
        (page r) (rowIndex r) (gameDate r).
Definition set_team (v : string) (r : Row) : Row :=
  mkRow (gameTime r) (matchup r) v (player r) (status r) (reason r)
        (page r) (rowIndex r) (gameDate r).
Definition set_player (v : string) (r : Row) : Row :=
  mkRow (gameTime r) (matchup r) (team r) v (status r) (reason r)
        (page r) (rowIndex r) (gameDate r).
Definition set_status (v : string) (r : Row) : Row :=
  mkRow (gameTime r) (matchup r) (team r) (player r) v (reason r)
        (page r) (rowIndex r) (gameDate r).
Definition set_reason (v : string) (r : Row) : Row :=
  mkRow (gameTime r) (matchup r) (team r) (player r) (status r) v
        (page r) (rowIndex r) (gameDate r).
Definition set_gameDate (v : string) (r : Row) : Row :=
  mkRow (gameTime r) (matchup r) (team r) (player r) (status r) (reason r)
        (page r) (rowIndex r) (Some v).

(** The counters of [build_stats]: a dictionary from label to count. *)
Record Stats : Type := mkStats {
  totalRows : nat;
  byStatus : gmap string nat;
  byTeam : gmap string nat
}.

(** [d[k] = d.get(k, 0) + 1] *)
Definition count_up (k : string) (d : gmap string nat) : gmap string nat :=
  <[ k := (default 0 (d !! k) + 1)%nat ]> d.

Definition build_stats (rows : list Row) : Stats :=
  let '(by_status, by_team) :=
    fold_left
      (fun acc row =>
         let status_ := PyStr.or_else (status row) "Unknown" in
         let team_ := PyStr.or_else (team row) "Unknown" in
         (count_up status_ (fst acc), count_up team_ (snd acc)))
      rows (∅, ∅) in
  mkStats (List.length rows) by_status by_team.

(** The sum of the counts of a dictionary. *)
Definition total_count (d : gmap string nat) : nat :=
  map_fold (fun _ v acc => (v + acc)%nat) 0%nat d.

(** How many rows carry the label [l] in the field [f], an empty field
    standing for "Unknown". *)
Definition count_label (f : Row -> string) (l : string) (rs : list Row) : nat :=
  List.length
    (List.filter (fun r => String.eqb (PyStr.or_else (f r) "Unknown") l) rs).

Record Meta : Type := mkMeta {
  pdfUrl : string;
  pdfName : string;
  publishedAt : string;
  reportTime : string;
  pdfPath : string;
  csvPath : string
}.

Record Payload : Type := mkPayload {
  ok : bool;
  error : option string;
  step : option string;
  meta : option Meta;
  stats : option Stats;
  rows : option (list Row)
}.

(* ===================================================================== *)
(** ** The cache controller *)
(* ===================================================================== *)

Definition CACHE_TTL_SECONDS : Z := 3600.

(** [CACHE_STATE]; the clock is read in whole seconds. *)
Record CacheState : Type := mkCache {
  data : option Payload;
  last_updated : Z
}.

Definition CACHE_STATE_initial : CacheState := mkCache None 0.

(** What the outside world answers during one call: the link resolver run
    as the freshness probe, and the full pipeline run. *)
Record World : Type := mkWorld {
  fetch_latest_pdf_link : outcome (option string);
  fetch_injury_report : outcome Payload
}.

(** [cached_payload.get("meta", {}).get("pdfUrl", "")] *)
Definition cached_pdf_url (p : Payload) : string :=
  match meta p with
  | Some m => pdfUrl m
  | None => ""
  end.

(** The probe of a fresh cache: [Some p] when the cached payload is served,
    [None] when a newer document was seen and the refresh goes ahead.  Any
    exception inside the [try] serves the cache. *)
Definition probe_cached (utcoffset : Z -> Z) (w : World) (cached_payload : Payload)
  : outcome (option Payload) :=
  cached_ts ← parse_pdf_datetime utcoffset (cached_pdf_url cached_payload);
  match
    (latest_url ← fetch_latest_pdf_link w;
     latest_ts ← parse_pdf_datetime utcoffset (default "" latest_url);
     Returns (latest_url, latest_ts))
  with
  | Returns (latest_url, latest_ts) =>
      if PyStr.nonempty (default "" latest_url) && (latest_ts >? cached_ts)
      then Returns None
      else Returns (Some cached_payload)
  | Raises _ => Returns (Some cached_payload)
  end.

(** The payload picked up under the lock: the slot, when the call is not
    forced and the slot is younger than the TTL.  [now] is [time.time()]. *)
Definition fresh_cached (now : Z) (force : bool) (st : CacheState)
  : option Payload :=
  match data st with
  | Some p =>
      if negb force && (now - last_updated st <? CACHE_TTL_SECONDS)
      then Some p else None
  | None => None
  end.

(** The first half of [get_cached_report]: [Some p] when [p] is returned
    from the cache, [None] when the call goes on to the full refresh. *)
Definition serve_cached (utcoffset : Z -> Z) (w : World) (now : Z)
  (force : bool) (st : CacheState) : outcome (option Payload) :=
  match fresh_cached now force st with
  | Some p => probe_cached utcoffset w p
  | None => Returns None
  end.

(** [get_cached_report(force)]: the cache after the call and what the call
    returns or raises. *)
Definition get_cached_report (utcoffset : Z -> Z) (w : World) (now : Z)
  (force : bool) (st : CacheState) : CacheState * outcome Payload :=
  match serve_cached utcoffset w now force st with
  | Raises e => (st, Raises e)
  | Returns (Some p) => (st, Returns p)
  | Returns None =>
      match fetch_injury_report w with
      | Raises e => (st, Raises e)
      | Returns payload =>
          if ok payload
          then (mkCache (Some payload) now, Returns payload)
          else (st, Returns payload)
      end
  end.

(* ===================================================================== *)
(** ** Shared pattern pieces *)
(* ===================================================================== *)

Definition NYS_MARKER : string := "NOT YET SUBMITTED".

Definition upper_AZ : list Re.citem := [Re.Range "A" "Z"].

(** [A-Za-z'`.\-] *)
Definition name_chars : list Re.citem :=
  [Re.Range "A" "Z"; Re.Range "a" "z"; Re.One "'"; Re.One "`"; Re.One ".";
   Re.One "-"].

(** [A-Z][A-Za-z'`.\-]+,\s*[A-Z][A-Za-z'`.\-]+ *)
Definition comma_name : Re.regex :=
  Re.seq [ Re.Cls upper_AZ; Re.plus name_chars; Re.Lit ","; Re.star [Re.Space];
           Re.Cls upper_AZ; Re.plus name_chars ].

(** Out|Questionable|Doubtful|Probable|Available|Not\s*With\s*Team|NotWithTeam *)
Definition status_words : Re.regex :=
  Re.alt [ Re.Lit "Out"; Re.Lit "Questionable"; Re.Lit "Doubtful";
           Re.Lit "Probable"; Re.Lit "Available";
           Re.seq [ Re.Lit "Not"; Re.star [Re.Space]; Re.Lit "With";
                    Re.star [Re.Space]; Re.Lit "Team" ];
           Re.Lit "NotWithTeam" ].

(** \bPage\s*\d+\s*of\s*\d+\b|\bPage\d+of\d+\b *)
Definition page_marker : Re.regex :=
  Re.Alt
    (Re.seq [ Re.WordB; Re.Lit "Page"; Re.star [Re.Space]; Re.plus [Re.Digit];
              Re.star [Re.Space]; Re.Lit "of"; Re.star [Re.Space];
              Re.plus [Re.Digit]; Re.WordB ])
    (Re.seq [ Re.WordB; Re.Lit "Page"; Re.plus [Re.Digit]; Re.Lit "of";
              Re.plus [Re.Digit]; Re.WordB ]).

(** \b\d{2}/\d{2}/\d{4}\b *)
Definition date_token : Re.regex :=
  Re.seq [ Re.WordB; Re.times [Re.Digit] 2; Re.Lit "/"; Re.times [Re.Digit] 2;
           Re.Lit "/"; Re.times [Re.Digit] 4; Re.WordB ].

(** \b[A-Z]{2,4}\s*@\s*[A-Z]{2,4}\b *)
Definition matchup_code : Re.regex :=
  Re.seq [ Re.WordB; Re.between upper_AZ 2 4; Re.star [Re.Space]; Re.Lit "@";
           Re.star [Re.Space]; Re.between upper_AZ 2 4; Re.WordB ].

(* ===================================================================== *)
(** ** The deduplicator *)
(* ===================================================================== *)

(** The pattern of [deduplicate_rows], compiled with [re.I]:
    a name/status blob without word boundaries, a page marker, a date, or
    a matchup code. *)
Definition noisy_reason_regex : Re.regex :=
  Re.alt [ Re.seq [ comma_name; Re.plus [Re.Space]; Re.Grp 1 status_words ];
           page_marker;
           date_token;
           matchup_code ].

Definition dkey : Type := string * string * string.

Definition row_key (row : Row) : dkey :=
  (PyStr.upper (PyStr.strip (team row)),
   PyStr.upper (PyStr.strip (player row)),
   PyStr.strip (gameTime row)).

Definition dkey_eqb (a b : dkey) : bool :=
  String.eqb (fst (fst a)) (fst (fst b))
  && String.eqb (snd (fst a)) (snd (fst b))
  && String.eqb (snd a) (snd b).

(** A row is kept on its own, under [id(row)], when its player is empty or
    the marker. *)
Definition keyless (k : dkey) : bool :=
  negb (PyStr.nonempty (snd (fst k))) || String.eqb (snd (fst k)) NYS_MARKER.

(** The dictionary [unique], in insertion order.  An entry stored under
    [id(row)] carries no key: rows are distinct objects, so such a key is
    never looked up again. *)
Definition unique_dict : Type := list (option dkey * Row).

Fixpoint unique_get (k : dkey) (u : unique_dict) : option Row :=
  match u with
  | [] => None
  | (Some k', r) :: u' => if dkey_eqb k k' then Some r else unique_get k u'
  | (None, _) :: u' => unique_get k u'
  end.

(** The entry under [k] changed in place. *)
Fixpoint unique_set (k : dkey) (v : Row) (u : unique_dict) : unique_dict :=
  match u with
  | [] => []
  | (Some k', r) :: u' =>
      if dkey_eqb k k' then (Some k', v) :: u'
      else (Some k', r) :: unique_set k v u'
  | e :: u' => e :: unique_set k v u'
  end.

(** [if not existing.get(field) and row.get(field): existing[field] = ...]
    for the four fields, in the order of the loop. *)
Definition backfill (row existing : Row) : Row :=
  let e1 := if negb (PyStr.nonempty (status existing)) && PyStr.nonempty (status row)
            then set_status (status row) existing else existing in
  let e2 := if negb (PyStr.nonempty (matchup e1)) && PyStr.nonempty (matchup row)
            then set_matchup (matchup row) e1 else e1 in
  let e3 := if negb (PyStr.nonempty (gameTime e2)) && PyStr.nonempty (gameTime row)
            then set_gameTime (gameTime row) e2 else e2 in
  let e4 := if negb (PyStr.nonempty (team e3)) && PyStr.nonempty (team row)
            then set_team (team row) e3 else e3 in
  e4.

(** The reason of the kept record after an incoming one that is not noise. *)
Definition merge_reason (row existing : Row) : Row :=
  let existing_reason := PyStr.strip (reason existing) in
  let new_reason := PyStr.strip (reason row) in
  if PyStr.nonempty new_reason && negb (PyStr.contains new_reason existing_reason)
  then set_reason (PyStr.strip (existing_reason ++ " " ++ new_reason)) existing
  else existing.

Definition noisy_reason (row : Row) : bool :=
  let new_reason := PyStr.strip (reason row) in
  PyStr.nonempty new_reason && Re.found (Re.search true noisy_reason_regex new_reason).

(** One turn of the loop over [rows]. *)
Definition dedup_step (u : unique_dict) (row : Row) : unique_dict :=
  let key := row_key row in
  if keyless key then (u ++ [(None, row)])%list
  else
    match unique_get key u with
    | Some existing =>
        if noisy_reason row then u
        else unique_set key (backfill row (merge_reason row existing)) u
    | None => (u ++ [(Some key, row)])%list
    end.

(** [(page, rowIndex)] compared as tuples. *)
Definition sort_key_le (a b : Row) : bool :=
  (page a <? page b) || ((page a =? page b) && (rowIndex a <=? rowIndex b)).

(** [list.sort] is stable; the stable order is unique, and insertion from
    the right computes it. *)
Fixpoint insert_sorted (x : Row) (l : list Row) : list Row :=
  match l with
  | [] => [x]
  | y :: l' => if sort_key_le x y then x :: l else y :: insert_sorted x l'
  end.

Fixpoint sort_rows (l : list Row) : list Row :=
  match l with
  | [] => []
  | x :: l' => insert_sorted x (sort_rows l')
  end.

Definition deduplicate_rows (rows : list Row) : list Row :=
  match rows with
  | [] => []
  | _ => sort_rows (map snd (fold_left dedup_step rows []))
  end.

(* ===================================================================== *)
(** ** The reconciler *)
(* ===================================================================== *)

Definition STATUS_TOKENS : list string :=
  ["Not With Team"; "Questionable"; "Doubtful"; "Probable"; "Available"; "Out"].

(** r"\b(" + "|".join(escaped STATUS_TOKENS) + r")\b", re.I *)
Definition status_pattern : Re.regex :=
  Re.seq [Re.WordB; Re.Grp 1 (Re.lits STATUS_TOKENS); Re.WordB].

Definition reason_pattern : Re.regex :=
  Re.Grp 1 (Re.lits
    ["Injury/Illness"; "Injury"; "Illness"; "G League"; "GLeague"; "Personal";
     "Rest"; "Suspension"; "Not With Team"; "Injury Recovery"]).

Definition reason_prefixes : list string :=
  ["G League"; "Injury/Illness"; "NOT YET SUBMITTED"; "Not With Team";
   "Return to Competition Reconditioning"].

Definition reason_keyword_regex : Re.regex :=
  Re.Grp 1 (Re.lits
    ["management"; "contusion"; "sprain"; "strain"; "soreness"; "surgery";
     "tear"; "recovery"; "reconditioning"; "tendinitis";
     "fracture"; "tendinopathy"; "illness"; "injury"; "irritation";
     "tightness"; "bruise"; "spasms"; "stress"; "thrombosis";
     "mcl"; "acl"; "pcl"; "lcl"; "ankle"; "knee"; "foot"; "back"; "shoulder";
     "hamstring"; "groin"; "achilles"; "toe"; "hand"; "wrist";
     "finger"; "elbow"; "quad"; "calf"; "rib"; "hip"]).

(** re.I *)
Definition player_status_blob_regex : Re.regex :=
  Re.seq [ Re.WordB; comma_name; Re.plus [Re.Space]; Re.Grp 1 status_words;
           Re.WordB ].

(** re.I *)
Definition page_marker_regex : Re.regex := page_marker.

(** no flag: capitals only *)
Definition matchup_blob_regex : Re.regex := matchup_code.

(** r"\b\d{2}/\d{2}/\d{4}\b|\b\d{1,2}:\d{2}\s*\(ET\)\b", re.I *)
Definition date_or_time_blob_regex : Re.regex :=
  Re.Alt date_token
    (Re.seq [ Re.WordB; Re.between [Re.Digit] 1 2; Re.Lit ":";
              Re.times [Re.Digit] 2; Re.star [Re.Space]; Re.Lit "(ET)";
              Re.WordB ]).

(** re.I *)
Definition status_blob_regex : Re.regex :=
  Re.seq [Re.WordB; Re.Grp 1 status_words; Re.WordB].

(** The pattern of [should_append_reason], re.I *)
Definition open_word_regex : Re.regex :=
  Re.Seq
    (Re.Grp 1 (Re.lits
       ["Injury"; "Illness"; "Recovery"; "Reconditioning"; "Management";
        "Surgery"; "Sprain"; "Strain"; "Tear"; "Contusion"; "Fracture";
        "Tendinopathy"; "Bruise"; "Soreness"; "Tightness"]))
    Re.Eol.

(** The pattern of [is_header_row] as written: in the raw string every
    backslash is doubled, so the pattern asks for a backslash and the
    letters themselves, [s+] and [s*] being runs of the letter s. *)
Definition header_stamp_regex : Re.regex :=
  Re.seq [ Re.Lit "\dd/\dd/\dd\"; Re.plus [Re.One "s"]; Re.Lit "\dd:\dd\";
           Re.star [Re.One "s"]; Re.Cls [Re.One "A"; Re.One "P"]; Re.Lit "M" ].

Definition starts_with_reason_prefix (text : string) : bool :=
  PyStr.nonempty text && existsb (fun prefix => PyStr.startswith prefix text) reason_prefixes.

(** [sorted(set(positions))] *)
Fixpoint insert_pos (p : nat) (l : list nat) : list nat :=
  match l with
  | [] => [p]
  | q :: l' =>
      if (p <? q)%nat then p :: l
      else if (p =? q)%nat then l
      else q :: insert_pos p l'
  end.
Definition sorted_set (l : list nat) : list nat := fold_right insert_pos [] l.

Definition split_reason_on_prefixes (text : string) : string * string :=
  if negb (PyStr.nonempty text) then (text, "")
  else
    let text := PyStr.strip (PyStr.replace_char PyStr.nbsp " " text) in
    let positions :=
      sorted_set
        (flat_map (fun prefix => map fst (Re.finditer true (Re.Lit prefix) text))
                  reason_prefixes) in
    match positions with
    | [] => (text, "")
    | p0 :: more =>
        let p0 := if negb (PyStr.nonempty (PyStr.strip (PyStr.take p0 text)))
                  then O else p0 in
        if (0 <? p0)%nat
        then (PyStr.strip (PyStr.take p0 text), PyStr.strip (PyStr.drop p0 text))
        else
          match more with
          | [] => (text, "")
          | p1 :: _ =>
              (PyStr.strip (PyStr.take p1 text), PyStr.strip (PyStr.drop p1 text))
          end
    end.

Definition normalize_spaces (text : string) : string :=
  PyStr.strip (PyStr.collapse_ws false (PyStr.replace_char PyStr.nbsp " " text)).

Definition looks_like_player_blob (text : string) : bool :=
  let compact := normalize_spaces text in
  if negb (PyStr.nonempty compact) then false
  else if Re.found (Re.search true player_status_blob_regex compact) then true
  else if Re.found (Re.search true page_marker_regex compact) then true
  else if Re.found (Re.search false matchup_blob_regex compact) then true
  else if Re.found (Re.search true date_or_time_blob_regex compact) then true
  else
    let status_hits := Re.findall_count true status_blob_regex compact in
    let comma_name_hits := Re.findall_count false comma_name compact in
    (2 <=? status_hits)%nat && (1 <=? comma_name_hits)%nat.

(** The start of the first match when it is not at the very beginning. *)
Definition cut_position (ic : bool) (r : Re.regex) (s : string) : list nat :=
  match Re.search ic r s with
  | Some m => if (0 <? Re.m_start m)%nat then [Re.m_start m] else []
  | None => []
  end.

Definition list_min (l : list nat) : option nat :=
  match l with
  | [] => None
  | x :: l' => Some (fold_left Nat.min l' x)
  end.

Definition trim_reason_noise (text : string) : string :=
  let compact := normalize_spaces text in
  if negb (PyStr.nonempty compact) then ""
  else if Re.found (Re.match_ true player_status_blob_regex compact) then ""
  else
    let cut_positions :=
      (cut_position true page_marker_regex compact
       ++ cut_position true date_or_time_blob_regex compact
       ++ cut_position false matchup_blob_regex compact
       ++ cut_position true player_status_blob_regex compact)%list in
    let compact :=
      match list_min cut_positions with
      | Some n => PyStr.strip (PyStr.take n compact)
      | None => compact
      end in
    let compact :=
      PyStr.strip_chars " ;,-" (Re.sub_empty true page_marker_regex compact) in
    if String.eqb (PyStr.filter_chars (fun c => negb (Ascii.eqb c " ")) (PyStr.upper compact))
                  "NOTYETSUBMITTED"
    then "NOT YET SUBMITTED"
    else compact.

Definition looks_like_reason_continuation (text : string) : bool :=
  if negb (PyStr.nonempty text) then false
  else if starts_with_reason_prefix text then true
  else Re.found (Re.search true reason_keyword_regex text).

Definition should_append_reason (prev_reason continuation : string) : bool :=
  if negb (PyStr.nonempty prev_reason) || negb (PyStr.nonempty continuation) then false
  else if PyStr.first_islower continuation then true
  else if PyStr.endswith ";" prev_reason || PyStr.endswith "-" prev_reason then true
  else Re.found (Re.search true open_word_regex prev_reason).

Definition is_header_row (team_value player_value : string) : bool :=
  let team_text := PyStr.lower (PyStr.strip team_value) in
  let player_text := PyStr.strip player_value in
  if PyStr.startswith "injury report" team_text then true
  else Re.found (Re.match_ false header_stamp_regex player_text).

(** The rolling state of the pass. *)
Record NState : Type := mkNState {
  normalized : list Row;
  last_team : option string;
  last_game_time : option string;
  last_real_game_time : option string;
  last_matchup : option string;
  game_time_by_matchup : gmap string string;
  carryover_reason_by_page : gmap Z string;
  carryover_team_by_page : gmap Z (option string);
  pending_reason_by_page : gmap Z string;
  pending_team_by_page : gmap Z string
}.

Definition NState_initial : NState :=
  mkNState [] None None None None ∅ ∅ ∅ ∅ ∅.

Definition with_normalized (l : list Row) (st : NState) : NState :=
  mkNState l (last_team st) (last_game_time st) (last_real_game_time st)
    (last_matchup st) (game_time_by_matchup st) (carryover_reason_by_page st)
    (carryover_team_by_page st) (pending_reason_by_page st)
    (pending_team_by_page st).

Definition with_context (lt lgt lrgt lm : option string) (gt : gmap string string)
  (st : NState) : NState :=
  mkNState (normalized st) lt lgt lrgt lm gt (carryover_reason_by_page st)
    (carryover_team_by_page st) (pending_reason_by_page st)
    (pending_team_by_page st).

Definition with_pending (pr : gmap Z string) (pt : gmap Z string) (st : NState)
  : NState :=
  mkNState (normalized st) (last_team st) (last_game_time st)
    (last_real_game_time st) (last_matchup st) (game_time_by_matchup st)
    (carryover_reason_by_page st) (carryover_team_by_page st) pr pt.

Definition with_carryover (cr : gmap Z string) (ct : gmap Z (option string))
  (st : NState) : NState :=
  mkNState (normalized st) (last_team st) (last_game_time st)
    (last_real_game_time st) (last_matchup st) (game_time_by_matchup st)
    cr ct (pending_reason_by_page st) (pending_team_by_page st).

(** [x or d] for a variable that is [None] or a string. *)
Definition opt_or (x : option string) (d : string) : string :=
  PyStr.or_else (default "" x) d.

Definition is_tbd (s : string) : bool := String.eqb (PyStr.upper s) "TBD".

(** [normalized[-1]["reason"] = v] *)
Fixpoint set_last_reason (v : string) (l : list Row) : list Row :=
  match l with
  | [] => []
  | [r] => [set_reason v r]
  | r :: l' => r :: set_last_reason v l'
  end.

(** [f"{a} {b}".strip()] *)
Definition glue (a b : string) : string := PyStr.strip (a ++ " " ++ b).

(** The matchup and the game time of a marker row, resolved from the row
    or else from the rolling context. *)
Definition sentinel_matchup (st : NState) (row : Row) : string :=
  PyStr.or_else (PyStr.strip (matchup row)) (opt_or (last_matchup st) "").

Definition sentinel_time (st : NState) (row : Row) : string :=
  let matchup_key := PyStr.upper (sentinel_matchup st row) in
  let resolved_time := PyStr.strip (gameTime row) in
  let resolved_time :=
    if negb (PyStr.nonempty resolved_time) || is_tbd resolved_time
    then (if PyStr.nonempty matchup_key
          then default "" (game_time_by_matchup st !! matchup_key) else "")
    else resolved_time in
  let resolved_time :=
    if negb (PyStr.nonempty resolved_time) || is_tbd resolved_time
    then opt_or (last_real_game_time st) (opt_or (last_game_time st) "TBD")
    else resolved_time in
  resolved_time.

(** The branch for a row whose player or status is the marker. *)
Definition sentinel_step (game_date : string) (st : NState) (row : Row) : NState :=
  let team_value := PyStr.or_else (PyStr.strip (team row)) (opt_or (last_team st) "") in
  let nys_matchup := sentinel_matchup st row in
  let matchup_key := PyStr.upper nys_matchup in
  let resolved_time := sentinel_time st row in
  let st1 :=
    if PyStr.nonempty resolved_time && negb (is_tbd resolved_time)
    then with_context (last_team st) (last_game_time st) (Some resolved_time)
           (last_matchup st)
           (if PyStr.nonempty matchup_key
            then <[ matchup_key := resolved_time ]> (game_time_by_matchup st)
            else game_time_by_matchup st)
           st
    else st in
  if PyStr.nonempty team_value && negb (String.eqb (PyStr.upper team_value) NYS_MARKER)
  then with_normalized
         (normalized st1 ++
          [mkRow resolved_time nys_matchup team_value NYS_MARKER NYS_MARKER
                 NYS_MARKER (page row) (rowIndex row) (Some game_date)])%list
         st1
  else st1.

(** Status and reason recovered from the player text. *)
Definition recover_status (player0 status0 : string) : string * string :=
  if negb (PyStr.nonempty status0) && PyStr.nonempty player0
  then match Re.search true status_pattern player0 with
       | Some m =>
           (PyStr.strip_chars " -"
              (PyStr.remove_all (Re.group0 player0 m) player0),
            Re.group 1 (Re.m_groups m))
       | None => (player0, status0)
       end
  else (player0, status0).

Definition recover_reason (player0 reason0 : string) : string * string :=
  if negb (PyStr.nonempty reason0) && PyStr.nonempty player0
  then match Re.search true reason_pattern player0 with
       | Some m =>
           (PyStr.strip_chars " -" (PyStr.take (Re.m_start m) player0),
            PyStr.strip_chars " -" (PyStr.drop (Re.m_start m) player0))
       | None =>
           if existsb (fun prefix => PyStr.startswith prefix player0) reason_prefixes
           then ("", player0)
           else (player0, reason0)
       end
  else (player0, reason0).

(** The branch for a row with no player, status or reason: team and matchup
    text may be a stray reason. *)
Definition fragment_step (st : NState) (row : Row) (raw_team : string) : NState :=
  let possible_reason :=
    trim_reason_noise (PyStr.strip (PyStr.join2 (team row) (matchup row))) in
  if PyStr.nonempty possible_reason
     && (String.length possible_reason <=? 120)%nat
     && looks_like_reason_continuation possible_reason
     && negb (looks_like_player_blob possible_reason)
  then
    let page_key := page row in
    let hold :=
      with_pending (<[ page_key := possible_reason ]> (pending_reason_by_page st))
                   (<[ page_key := raw_team ]> (pending_team_by_page st)) st in
    match last (normalized st) with
    | Some prev_row =>
        if page prev_row =? page_key
        then
          let prev_reason := reason prev_row in
          if should_append_reason prev_reason possible_reason
             || looks_like_reason_continuation possible_reason
          then with_normalized
                 (set_last_reason (glue prev_reason possible_reason) (normalized st))
                 st
          else hold
        else hold
    | None => hold
    end
  else st.

(** Team, matchup and game time filled from the rolling context; the
    context follows the row. *)
Definition context_step (st : NState) (row : Row) : NState * Row :=
  let '(row1, lt) :=
    if negb (PyStr.nonempty (team row))
       || negb (PyStr.nonempty (PyStr.strip (team row)))
    then (set_team (opt_or (last_team st) "") row, last_team st)
    else
      let team_value := PyStr.strip (team row) in
      (row,
       if PyStr.nonempty team_value
          && negb (String.eqb (PyStr.upper team_value) NYS_MARKER)
       then Some team_value else last_team st) in
  let '(row2, lm) :=
    if negb (PyStr.nonempty (matchup row1))
       || negb (PyStr.nonempty (PyStr.strip (matchup row1)))
    then (set_matchup (opt_or (last_matchup st) "") row1, last_matchup st)
    else
      let matchup_value := PyStr.strip (matchup row1) in
      (row1,
       if PyStr.nonempty matchup_value
          && negb (String.eqb (PyStr.upper matchup_value) NYS_MARKER)
       then Some matchup_value else last_matchup st) in
  let matchup_key := PyStr.upper (PyStr.strip (matchup row2)) in
  let time_value := PyStr.strip (gameTime row2) in
  if PyStr.nonempty time_value
     && negb (is_tbd time_value || String.eqb (PyStr.upper time_value) NYS_MARKER)
  then
    (with_context lt (Some time_value) (Some time_value) lm
       (if PyStr.nonempty matchup_key
        then <[ matchup_key := time_value ]> (game_time_by_matchup st)
        else game_time_by_matchup st)
       st,
     set_gameTime time_value row2)
  else
    let inferred_time :=
      if PyStr.nonempty matchup_key
      then default "" (game_time_by_matchup st !! matchup_key) else "" in
    let inferred_time :=
      if negb (PyStr.nonempty inferred_time)
      then opt_or (last_real_game_time st) "" else inferred_time in
    let inferred_time :=
      if negb (PyStr.nonempty inferred_time)
      then opt_or (last_game_time st) "" else inferred_time in
    (with_context lt (last_game_time st) (last_real_game_time st) lm
       (game_time_by_matchup st) st,
     set_gameTime (PyStr.or_else inferred_time "TBD") row2).

(** The branch for a row that is only a reason: a continuation of the row
    before it, or text held for the next one.  [reason1] is the reason
    after the first trim. *)
Definition continuation_step (st : NState) (row : Row) (reason1 : string)
  (current_team : string) : NState :=
  let page_key := page row in
  let raw_reason := normalize_spaces (reason row) in
  if looks_like_player_blob raw_reason then st
  else
    let reason2 := trim_reason_noise reason1 in
    if negb (PyStr.nonempty reason2) || looks_like_player_blob reason2 then st
    else
      let hold :=
        if looks_like_reason_continuation reason2
        then with_pending (<[ page_key := reason2 ]> (pending_reason_by_page st))
                          (<[ page_key := current_team ]> (pending_team_by_page st))
                          st
        else st in
      match last (normalized st) with
      | Some prev_row =>
          if (page prev_row =? page_key)
             && (negb (PyStr.nonempty current_team)
                 || String.eqb (team prev_row) current_team)
          then
            let prev_reason := reason prev_row in
            if should_append_reason prev_reason reason2
            then with_normalized
                   (set_last_reason (glue prev_reason reason2) (normalized st)) st
            else hold
          else hold
      | None => hold
      end.

(** The test shared by the pending and the carry-over attachment. *)
Definition may_prepend (reason1 : string) : bool :=
  negb (PyStr.nonempty reason1)
  || negb (starts_with_reason_prefix reason1)
  || looks_like_reason_continuation reason1.

Definition attach_pending (st : NState) (page_key : Z) (current_team reason1 : string)
  : NState * string :=
  match pending_reason_by_page st !! page_key with
  | Some pending_reason =>
      let pending_team := default "" (pending_team_by_page st !! page_key) in
      if PyStr.nonempty pending_reason
         && negb (looks_like_player_blob pending_reason)
         && (negb (PyStr.nonempty pending_team)
             || String.eqb pending_team current_team)
      then
        (with_pending (delete page_key (pending_reason_by_page st))
                      (delete page_key (pending_team_by_page st)) st,
         if may_prepend reason1
         then trim_reason_noise (glue pending_reason reason1)
         else reason1)
      else (st, reason1)
  | None => (st, reason1)
  end.

Definition attach_carryover (st : NState) (page_key : Z)
  (player1 status1 reason1 : string) : NState * string :=
  match carryover_reason_by_page st !! page_key with
  | Some carry_reason =>
      if PyStr.nonempty carry_reason
         && negb (looks_like_player_blob carry_reason)
         && (PyStr.nonempty player1 || PyStr.nonempty status1)
         && may_prepend reason1
      then
        (with_carryover (delete page_key (carryover_reason_by_page st))
                        (delete page_key (carryover_team_by_page st)) st,
         trim_reason_noise (glue carry_reason reason1))
      else (st, reason1)
  | None => (st, reason1)
  end.

(** The last trim, and the split that sets a second reason aside. *)
Definition finish_reason (st : NState) (page_key : Z) (explicit_team reason1 : string)
  : NState * string :=
  if PyStr.nonempty reason1
  then
    let '(head_part, spill) := split_reason_on_prefixes (trim_reason_noise reason1) in
    let reason2 := trim_reason_noise head_part in
    let spill := trim_reason_noise spill in
    if PyStr.nonempty spill && negb (looks_like_player_blob spill)
    then
      (with_carryover
         (<[ page_key := spill ]> (carryover_reason_by_page st))
         (<[ page_key := (if PyStr.nonempty explicit_team
                          then Some explicit_team else None) ]>
            (carryover_team_by_page st))
         st,
       reason2)
    else (st, reason2)
  else (st, reason1).

(** The rest of the loop body, for a row that is neither a header nor a
    marker row: [player1], [status1], [reason1] are the three texts after
    recovery. *)
Definition regular_step (game_date : string) (st : NState) (row : Row)
  (raw_team player1 status1 reason1 : string) : NState :=
  if negb (PyStr.nonempty player1) && negb (PyStr.nonempty status1)
     && negb (PyStr.nonempty reason1)
  then fragment_step st row raw_team
  else
    let '(st1, row1) := context_step st row in
    let current_team := PyStr.or_else (team row1) (opt_or (last_team st1) "") in
    let page_key := page row1 in
    let explicit_team := raw_team in
    if negb (PyStr.nonempty player1) && negb (PyStr.nonempty status1)
       && PyStr.nonempty reason1
    then continuation_step st1 row1 reason1 current_team
    else
      let '(st2, reason2) := attach_pending st1 page_key current_team reason1 in
      let '(st3, reason3) := attach_carryover st2 page_key player1 status1 reason2 in
      let '(st4, reason4) := finish_reason st3 page_key explicit_team reason3 in
      if negb (PyStr.nonempty player1) && negb (PyStr.nonempty status1)
         && negb (PyStr.nonempty reason4)
      then st4
      else
        with_normalized
          (normalized st4 ++
           [set_gameDate game_date
              (set_reason reason4 (set_status status1 (set_player player1 row1)))])%list
          st4.

(** One turn of the loop of [normalize_rows]. *)
Definition normalize_step (game_date : string) (st : NState) (row : Row) : NState :=
  let player0 := player row in
  let status0 := status row in
  let raw_reason_original := reason row in
  let raw_team := PyStr.strip (team row) in
  let reason0 :=
    if PyStr.nonempty raw_reason_original
    then trim_reason_noise raw_reason_original else raw_reason_original in
  if is_header_row raw_team player0 then st
  else if String.eqb (PyStr.upper (PyStr.strip player0)) NYS_MARKER
          || String.eqb (PyStr.upper (PyStr.strip status0)) NYS_MARKER
  then sentinel_step game_date st row
  else
    let '(player1, status1) := recover_status player0 status0 in
    let '(player2, reason1) := recover_reason player1 reason0 in
    regular_step game_date st row raw_team player2 status1 reason1.

Definition normalize_rows (rows : list Row) (game_date : string) : list Row :=
  normalized (fold_left (normalize_step game_date) rows NState_initial).

(** The four noise predicates on a reason, as the validator applies them. *)
Definition is_contaminated_reason (text : string) : bool :=
  let text := normalize_spaces text in
  if negb (PyStr.nonempty text) then false
  else Re.found (Re.search true player_status_blob_regex text)
       || Re.found (Re.search true page_marker_regex text)
       || Re.found (Re.search false matchup_blob_regex text)
       || Re.found (Re.search true date_or_time_blob_regex text).

(* ===================================================================== *)
(** ** Predicates used in the statements and proofs *)
(* ===================================================================== *)

(** The hour and the minute that a raw time text spells: its digits, the
    last two being the minutes when there are more than two. *)
Definition extracted_hour (raw_time_str : string) : Z :=
  let digits := PyStr.filter_chars PyStr.is_digit raw_time_str in
  if (String.length digits <=? 2)%nat then digits_value 0 digits
  else digits_value 0 (all_but_last2 digits).

Definition extracted_minute (raw_time_str : string) : Z :=
  let digits := PyStr.filter_chars PyStr.is_digit raw_time_str in
  if (String.length digits <=? 2)%nat then 0
  else digits_value 0 (last2 digits).

(** The reading [date_str], [hour]:[minutes] as a [datetime]. *)
Definition datetime_of (date_str : string) (hour minutes : Z) : datetime :=
  Datetime (date_year date_str) (date_month date_str) (date_day date_str)
           hour minutes.

(** The keys under which the entries of [unique] are stored. *)
Definition dict_keys (u : unique_dict) : list dkey := omap fst u.

(** The entry a row makes when it meets no earlier row of its key. *)
Definition own_entry (row : Row) : option dkey * Row :=
  (if keyless (row_key row) then None else Some (row_key row), row).

(** The keys of the rows that are grouped by key. *)
Definition keyed_keys (l : list Row) : list dkey :=
  dict_keys (map own_entry l).

(** An entry sits under the key of its row, or under none when the row is
    kept on its own. *)
Definition entry_ok (e : option dkey * Row) : Prop := e = own_entry (snd e).

(** Ascending by [(page, rowIndex)]. *)
Fixpoint rows_sorted (l : list Row) : Prop :=
  match l with
  | [] => True
  | x :: l' =>
      match l' with
      | [] => True
      | y :: _ => sort_key_le x y = true
      end /\ rows_sorted l'
  end.

(** What the loop of [deduplicate_rows] maintains: every entry under the
    key of its row, no key twice. *)
Definition dict_inv (u : unique_dict) : Prop :=
  Forall entry_ok u /\ NoDup (dict_keys u).

(** The state after the reconciler has gone through [rs]. *)
Definition reconcile (game_date : string) (rs : list Row) : NState :=
  fold_left (normalize_step game_date) rs NState_initial.

(** A sentinel row: player, status and reason are all the marker. *)
Definition is_sentinel (r : Row) : Prop :=
  player r = NYS_MARKER /\ status r = NYS_MARKER /\ reason r = NYS_MARKER.

(** A game time that is neither empty nor "TBD" nor the marker. *)
Definition concrete_time (t : string) : bool :=
  PyStr.nonempty t
  && negb (is_tbd t || String.eqb (PyStr.upper t) NYS_MARKER).

(** A row that the reconciler treats as a marker row. *)
Definition marker_row (row : Row) : bool :=
  String.eqb (PyStr.upper (PyStr.strip (player row))) NYS_MARKER
  || String.eqb (PyStr.upper (PyStr.strip (status row))) NYS_MARKER.

(** Two rows that differ in their reason at most. *)
Definition same_but_reason (a b : Row) : Prop :=
  set_reason "" a = set_reason "" b.

(** What every row of [normalized] satisfies: it has a team, or its status
    is not the marker. *)
Definition team_or_status (r : Row) : Prop :=
  team r <> "" \/ status r <> NYS_MARKER.

(** The rolling context of a state. *)
Definition context_of (st : NState)
  : option string * option string * option string * option string
    * gmap string string :=
  (last_team st, last_game_time st, last_real_game_time st, last_matchup st,
   game_time_by_matchup st).

(** The row that one turn of the loop appends, when it appends one: the
    marker record with a resolved team, or the input row after the context
    step with its recovered player and status and its final reason. *)
Inductive emitted (game_date : string) (st : NState) (row : Row) : Row -> Prop :=
| emitted_sentinel (tv : string) :
    marker_row row = true ->
    tv = PyStr.or_else (PyStr.strip (team row)) (opt_or (last_team st) "") ->
    PyStr.nonempty tv = true ->
    emitted game_date st row
      (mkRow (sentinel_time st row) (sentinel_matchup st row) tv NYS_MARKER
             NYS_MARKER NYS_MARKER (page row) (rowIndex row) (Some game_date))
| emitted_regular (p1 r4 : string) :
    marker_row row = false ->
    emitted game_date st row
      (set_gameDate game_date
         (set_reason r4
            (set_status (snd (recover_status (player row) (status row)))
               (set_player p1 (snd (context_step st row)))))).

(** A branch that only touches the reason of the last row, or holds a
    fragment back. *)
Definition mends_last (st st' : NState) : Prop :=
  context_of st' = context_of st
  /\ (normalized st' = normalized st
      \/ exists v, normalized st' = set_last_reason v (normalized st)).


(** Every time recorded for a matchup is a text other than "" and "TBD". *)
Definition times_recorded_concrete (st : NState) : Prop :=
  forall k t, game_time_by_matchup st !! k = Some t ->
              PyStr.nonempty t = true /\ is_tbd t = false.

(** The key under which a row's matchup is looked up, and whether the
    row's own game time counts as concrete: a marker row upper-cases its
    resolved matchup and only sets "" and "TBD" aside; any other row
    strips its matchup as well and also sets the marker aside. *)
Definition lookup_key (row x : Row) : string :=
  if marker_row row then PyStr.upper (matchup x)
  else PyStr.upper (PyStr.strip (matchup x)).

Definition own_time_concrete (row : Row) : bool :=
  let own := PyStr.strip (gameTime row) in
  if marker_row row then PyStr.nonempty own && negb (is_tbd own)
  else concrete_time own.
(* ===================================================================== *)
(** ** Sample values *)
(* ===================================================================== *)

Definition failed_payload : Payload :=
  mkPayload false (Some "No PDF found on official page.") (Some "parse_links")
            None None None.

Definition kept_payload : Payload :=
  mkPayload true None None
    (Some (mkMeta "https://ak-static.cms.nba.com/referee/injury/Injury-Report_2026-02-08_03_45AM.pdf"
                  "Injury-Report_2026-02-08_03_45AM.pdf" "" "03:45 AM ET" "" ""))
    None (Some []).


(** A kept row without a status, and two later rows of the same player:
    one whose reason is a leaked name and status, one that is clean. *)
Definition doe_first : Row :=
  mkRow "07:00 (ET)" "MIA@WAS" "Miami Heat" "Doe, John" ""
        "Injury/Illness - Knee" 1 3 None.
Definition doe_noisy : Row :=
  mkRow "07:00 (ET)" "MIA@WAS" "Miami Heat" "Doe, John" "Out"
        "Curry, Seth Out" 1 7 None.
Definition doe_clean : Row :=
  mkRow "07:00 (ET)" "" "miami heat " "DOE, John" "Out" "Sprain" 2 1 None.

(** Two rows of one matchup with different concrete times, then one with
    no time of its own. *)
Definition heat_0200 : Row :=
  mkRow "02:00 (ET)" "MIA@WAS" "Miami Heat" "A, Player" "Out"
        "Injury/Illness - Test" 1 1 None.
Definition wizards_0300 : Row :=
  mkRow "03:00 (ET)" "MIA@WAS" "Washington Wizards" "B, Player" "Questionable"
        "Injury/Illness - Test" 1 2 None.
Definition wizards_tbd : Row :=
  mkRow "TBD" "MIA@WAS" "Washington Wizards" "C, Player" "Probable"
        "Injury/Illness - Test" 1 3 None.

(** A row whose reason cell begins with a leaked game date. *)
Definition doe_leaked_date : Row :=
  mkRow "07:00 (ET)" "MIA@WAS" "Miami Heat" "Doe, John" "Out"
        "02/08/2026 Knee Soreness" 1 3 None.

(** The two rows of the repository's test of game-time propagation. *)
Definition test_row_heat : Row :=
  mkRow "02:00 (ET)" "MIA@WAS" "Miami Heat" "A, Player" "Out"
        "Injury/Illness - Test" 1 1 None.
Definition test_row_wizards : Row :=
  mkRow "TBD" "MIA@WAS" "Washington Wizards" "B, Player" "Questionable"
        "Injury/Illness - Test" 1 2 None.
(* ===================================================================== *)
(** ** Unicode data for Latin text *)
(* ===================================================================== *)

(** The tables of Unicode 14.0 for the code points below U+0250 (Basic
    Latin, Latin-1 Supplement, Latin Extended-A and B), for the combining
    marks U+0300 to U+036F and for the capital sigma; the white space is
    that of all of Unicode.  Every other code point is taken as a letter
    without case, without decomposition and of combining class zero. *)

Definition latin_decompositions : list (N * list N) :=
  [
   (0x00A0, [0x0020]); (0x00A8, [0x0020; 0x0308]); (0x00AA, [0x0061]);
   (0x00AF, [0x0020; 0x0304]); (0x00B2, [0x0032]); (0x00B3, [0x0033]);
   (0x00B4, [0x0020; 0x0301]); (0x00B5, [0x03BC]);
   (0x00B8, [0x0020; 0x0327]); (0x00B9, [0x0031]); (0x00BA, [0x006F]);
   (0x00BC, [0x0031; 0x2044; 0x0034]); (0x00BD, [0x0031; 0x2044; 0x0032]);
   (0x00BE, [0x0033; 0x2044; 0x0034]); (0x00C0, [0x0041; 0x0300]);
   (0x00C1, [0x0041; 0x0301]); (0x00C2, [0x0041; 0x0302]);
   (0x00C3, [0x0041; 0x0303]); (0x00C4, [0x0041; 0x0308]);
   (0x00C5, [0x0041; 0x030A]); (0x00C7, [0x0043; 0x0327]);
   (0x00C8, [0x0045; 0x0300]); (0x00C9, [0x0045; 0x0301]);
   (0x00CA, [0x0045; 0x0302]); (0x00CB, [0x0045; 0x0308]);
   (0x00CC, [0x0049; 0x0300]); (0x00CD, [0x0049; 0x0301]);
   (0x00CE, [0x0049; 0x0302]); (0x00CF, [0x0049; 0x0308]);
   (0x00D1, [0x004E; 0x0303]); (0x00D2, [0x004F; 0x0300]);
   (0x00D3, [0x004F; 0x0301]); (0x00D4, [0x004F; 0x0302]);
   (0x00D5, [0x004F; 0x0303]); (0x00D6, [0x004F; 0x0308]);
   (0x00D9, [0x0055; 0x0300]); (0x00DA, [0x0055; 0x0301]);
   (0x00DB, [0x0055; 0x0302]); (0x00DC, [0x0055; 0x0308]);
   (0x00DD, [0x0059; 0x0301]); (0x00E0, [0x0061; 0x0300]);
   (0x00E1, [0x0061; 0x0301]); (0x00E2, [0x0061; 0x0302]);
   (0x00E3, [0x0061; 0x0303]); (0x00E4, [0x0061; 0x0308]);
   (0x00E5, [0x0061; 0x030A]); (0x00E7, [0x0063; 0x0327]);
   (0x00E8, [0x0065; 0x0300]); (0x00E9, [0x0065; 0x0301]);
   (0x00EA, [0x0065; 0x0302]); (0x00EB, [0x0065; 0x0308]);
   (0x00EC, [0x0069; 0x0300]); (0x00ED, [0x0069; 0x0301]);
   (0x00EE, [0x0069; 0x0302]); (0x00EF, [0x0069; 0x0308]);
   (0x00F1, [0x006E; 0x0303]); (0x00F2, [0x006F; 0x0300]);
   (0x00F3, [0x006F; 0x0301]); (0x00F4, [0x006F; 0x0302]);
   (0x00F5, [0x006F; 0x0303]); (0x00F6, [0x006F; 0x0308]);
   (0x00F9, [0x0075; 0x0300]); (0x00FA, [0x0075; 0x0301]);
   (0x00FB, [0x0075; 0x0302]); (0x00FC, [0x0075; 0x0308]);
   (0x00FD, [0x0079; 0x0301]); (0x00FF, [0x0079; 0x0308]);
   (0x0100, [0x0041; 0x0304]); (0x0101, [0x0061; 0x0304]);
   (0x0102, [0x0041; 0x0306]); (0x0103, [0x0061; 0x0306]);
   (0x0104, [0x0041; 0x0328]); (0x0105, [0x0061; 0x0328]);
   (0x0106, [0x0043; 0x0301]); (0x0107, [0x0063; 0x0301]);
   (0x0108, [0x0043; 0x0302]); (0x0109, [0x0063; 0x0302]);
   (0x010A, [0x0043; 0x0307]); (0x010B, [0x0063; 0x0307]);
   (0x010C, [0x0043; 0x030C]); (0x010D, [0x0063; 0x030C]);
   (0x010E, [0x0044; 0x030C]); (0x010F, [0x0064; 0x030C]);
   (0x0112, [0x0045; 0x0304]); (0x0113, [0x0065; 0x0304]);
   (0x0114, [0x0045; 0x0306]); (0x0115, [0x0065; 0x0306]);
   (0x0116, [0x0045; 0x0307]); (0x0117, [0x0065; 0x0307]);
   (0x0118, [0x0045; 0x0328]); (0x0119, [0x0065; 0x0328]);
   (0x011A, [0x0045; 0x030C]); (0x011B, [0x0065; 0x030C]);
   (0x011C, [0x0047; 0x0302]); (0x011D, [0x0067; 0x0302]);
   (0x011E, [0x0047; 0x0306]); (0x011F, [0x0067; 0x0306]);
   (0x0120, [0x0047; 0x0307]); (0x0121, [0x0067; 0x0307]);
   (0x0122, [0x0047; 0x0327]); (0x0123, [0x0067; 0x0327]);
   (0x0124, [0x0048; 0x0302]); (0x0125, [0x0068; 0x0302]);
   (0x0128, [0x0049; 0x0303]); (0x0129, [0x0069; 0x0303]);
   (0x012A, [0x0049; 0x0304]); (0x012B, [0x0069; 0x0304]);
   (0x012C, [0x0049; 0x0306]); (0x012D, [0x0069; 0x0306]);
   (0x012E, [0x0049; 0x0328]); (0x012F, [0x0069; 0x0328]);
   (0x0130, [0x0049; 0x0307]); (0x0132, [0x0049; 0x004A]);
   (0x0133, [0x0069; 0x006A]); (0x0134, [0x004A; 0x0302]);
   (0x0135, [0x006A; 0x0302]); (0x0136, [0x004B; 0x0327]);
   (0x0137, [0x006B; 0x0327]); (0x0139, [0x004C; 0x0301]);
   (0x013A, [0x006C; 0x0301]); (0x013B, [0x004C; 0x0327]);
   (0x013C, [0x006C; 0x0327]); (0x013D, [0x004C; 0x030C]);
   (0x013E, [0x006C; 0x030C]); (0x013F, [0x004C; 0x00B7]);
   (0x0140, [0x006C; 0x00B7]); (0x0143, [0x004E; 0x0301]);
   (0x0144, [0x006E; 0x0301]); (0x0145, [0x004E; 0x0327]);
   (0x0146, [0x006E; 0x0327]); (0x0147, [0x004E; 0x030C]);
   (0x0148, [0x006E; 0x030C]); (0x0149, [0x02BC; 0x006E]);
   (0x014C, [0x004F; 0x0304]); (0x014D, [0x006F; 0x0304]);
   (0x014E, [0x004F; 0x0306]); (0x014F, [0x006F; 0x0306]);
   (0x0150, [0x004F; 0x030B]); (0x0151, [0x006F; 0x030B]);
   (0x0154, [0x0052; 0x0301]); (0x0155, [0x0072; 0x0301]);
   (0x0156, [0x0052; 0x0327]); (0x0157, [0x0072; 0x0327]);
   (0x0158, [0x0052; 0x030C]); (0x0159, [0x0072; 0x030C]);
   (0x015A, [0x0053; 0x0301]); (0x015B, [0x0073; 0x0301]);
   (0x015C, [0x0053; 0x0302]); (0x015D, [0x0073; 0x0302]);
   (0x015E, [0x0053; 0x0327]); (0x015F, [0x0073; 0x0327]);
   (0x0160, [0x0053; 0x030C]); (0x0161, [0x0073; 0x030C]);
   (0x0162, [0x0054; 0x0327]); (0x0163, [0x0074; 0x0327]);
   (0x0164, [0x0054; 0x030C]); (0x0165, [0x0074; 0x030C]);
   (0x0168, [0x0055; 0x0303]); (0x0169, [0x0075; 0x0303]);
   (0x016A, [0x0055; 0x0304]); (0x016B, [0x0075; 0x0304]);
   (0x016C, [0x0055; 0x0306]); (0x016D, [0x0075; 0x0306]);
   (0x016E, [0x0055; 0x030A]); (0x016F, [0x0075; 0x030A]);
   (0x0170, [0x0055; 0x030B]); (0x0171, [0x0075; 0x030B]);
   (0x0172, [0x0055; 0x0328]); (0x0173, [0x0075; 0x0328]);
   (0x0174, [0x0057; 0x0302]); (0x0175, [0x0077; 0x0302]);
   (0x0176, [0x0059; 0x0302]); (0x0177, [0x0079; 0x0302]);
   (0x0178, [0x0059; 0x0308]); (0x0179, [0x005A; 0x0301]);
   (0x017A, [0x007A; 0x0301]); (0x017B, [0x005A; 0x0307]);
   (0x017C, [0x007A; 0x0307]); (0x017D, [0x005A; 0x030C]);
   (0x017E, [0x007A; 0x030C]); (0x017F, [0x0073]);
   (0x01A0, [0x004F; 0x031B]); (0x01A1, [0x006F; 0x031B]);
   (0x01AF, [0x0055; 0x031B]); (0x01B0, [0x0075; 0x031B]);
   (0x01C4, [0x0044; 0x005A; 0x030C]); (0x01C5, [0x0044; 0x007A; 0x030C]);
   (0x01C6, [0x0064; 0x007A; 0x030C]); (0x01C7, [0x004C; 0x004A]);
   (0x01C8, [0x004C; 0x006A]); (0x01C9, [0x006C; 0x006A]);
   (0x01CA, [0x004E; 0x004A]); (0x01CB, [0x004E; 0x006A]);
   (0x01CC, [0x006E; 0x006A]); (0x01CD, [0x0041; 0x030C]);
   (0x01CE, [0x0061; 0x030C]); (0x01CF, [0x0049; 0x030C]);
   (0x01D0, [0x0069; 0x030C]); (0x01D1, [0x004F; 0x030C]);
   (0x01D2, [0x006F; 0x030C]); (0x01D3, [0x0055; 0x030C]);
   (0x01D4, [0x0075; 0x030C]); (0x01D5, [0x0055; 0x0308; 0x0304]);
   (0x01D6, [0x0075; 0x0308; 0x0304]); (0x01D7, [0x0055; 0x0308; 0x0301]);
   (0x01D8, [0x0075; 0x0308; 0x0301]); (0x01D9, [0x0055; 0x0308; 0x030C]);
   (0x01DA, [0x0075; 0x0308; 0x030C]); (0x01DB, [0x0055; 0x0308; 0x0300]);
   (0x01DC, [0x0075; 0x0308; 0x0300]); (0x01DE, [0x0041; 0x0308; 0x0304]);
   (0x01DF, [0x0061; 0x0308; 0x0304]); (0x01E0, [0x0041; 0x0307; 0x0304]);
   (0x01E1, [0x0061; 0x0307; 0x0304]); (0x01E2, [0x00C6; 0x0304]);
   (0x01E3, [0x00E6; 0x0304]); (0x01E6, [0x0047; 0x030C]);
   (0x01E7, [0x0067; 0x030C]); (0x01E8, [0x004B; 0x030C]);
   (0x01E9, [0x006B; 0x030C]); (0x01EA, [0x004F; 0x0328]);
   (0x01EB, [0x006F; 0x0328]); (0x01EC, [0x004F; 0x0328; 0x0304]);
   (0x01ED, [0x006F; 0x0328; 0x0304]); (0x01EE, [0x01B7; 0x030C]);
   (0x01EF, [0x0292; 0x030C]); (0x01F0, [0x006A; 0x030C]);
   (0x01F1, [0x0044; 0x005A]); (0x01F2, [0x0044; 0x007A]);
   (0x01F3, [0x0064; 0x007A]); (0x01F4, [0x0047; 0x0301]);
   (0x01F5, [0x0067; 0x0301]); (0x01F8, [0x004E; 0x0300]);
   (0x01F9, [0x006E; 0x0300]); (0x01FA, [0x0041; 0x030A; 0x0301]);
   (0x01FB, [0x0061; 0x030A; 0x0301]); (0x01FC, [0x00C6; 0x0301]);
   (0x01FD, [0x00E6; 0x0301]); (0x01FE, [0x00D8; 0x0301]);
   (0x01FF, [0x00F8; 0x0301]); (0x0200, [0x0041; 0x030F]);
   (0x0201, [0x0061; 0x030F]); (0x0202, [0x0041; 0x0311]);
   (0x0203, [0x0061; 0x0311]); (0x0204, [0x0045; 0x030F]);
   (0x0205, [0x0065; 0x030F]); (0x0206, [0x0045; 0x0311]);
   (0x0207, [0x0065; 0x0311]); (0x0208, [0x0049; 0x030F]);
   (0x0209, [0x0069; 0x030F]); (0x020A, [0x0049; 0x0311]);
   (0x020B, [0x0069; 0x0311]); (0x020C, [0x004F; 0x030F]);
   (0x020D, [0x006F; 0x030F]); (0x020E, [0x004F; 0x0311]);
   (0x020F, [0x006F; 0x0311]); (0x0210, [0x0052; 0x030F]);
   (0x0211, [0x0072; 0x030F]); (0x0212, [0x0052; 0x0311]);
   (0x0213, [0x0072; 0x0311]); (0x0214, [0x0055; 0x030F]);
   (0x0215, [0x0075; 0x030F]); (0x0216, [0x0055; 0x0311]);
   (0x0217, [0x0075; 0x0311]); (0x0218, [0x0053; 0x0326]);
   (0x0219, [0x0073; 0x0326]); (0x021A, [0x0054; 0x0326]);
   (0x021B, [0x0074; 0x0326]); (0x021E, [0x0048; 0x030C]);
   (0x021F, [0x0068; 0x030C]); (0x0226, [0x0041; 0x0307]);
   (0x0227, [0x0061; 0x0307]); (0x0228, [0x0045; 0x0327]);
   (0x0229, [0x0065; 0x0327]); (0x022A, [0x004F; 0x0308; 0x0304]);
   (0x022B, [0x006F; 0x0308; 0x0304]); (0x022C, [0x004F; 0x0303; 0x0304]);
   (0x022D, [0x006F; 0x0303; 0x0304]); (0x022E, [0x004F; 0x0307]);
   (0x022F, [0x006F; 0x0307]); (0x0230, [0x004F; 0x0307; 0x0304]);
   (0x0231, [0x006F; 0x0307; 0x0304]); (0x0232, [0x0059; 0x0304]);
   (0x0233, [0x0079; 0x0304])
  ]%N.

Definition latin_lower : list (N * list N) :=
  [
   (0x0041, [0x0061]); (0x0042, [0x0062]); (0x0043, [0x0063]);
   (0x0044, [0x0064]); (0x0045, [0x0065]); (0x0046, [0x0066]);
   (0x0047, [0x0067]); (0x0048, [0x0068]); (0x0049, [0x0069]);
   (0x004A, [0x006A]); (0x004B, [0x006B]); (0x004C, [0x006C]);
   (0x004D, [0x006D]); (0x004E, [0x006E]); (0x004F, [0x006F]);
   (0x0050, [0x0070]); (0x0051, [0x0071]); (0x0052, [0x0072]);
   (0x0053, [0x0073]); (0x0054, [0x0074]); (0x0055, [0x0075]);
   (0x0056, [0x0076]); (0x0057, [0x0077]); (0x0058, [0x0078]);
   (0x0059, [0x0079]); (0x005A, [0x007A]); (0x00C0, [0x00E0]);
   (0x00C1, [0x00E1]); (0x00C2, [0x00E2]); (0x00C3, [0x00E3]);
   (0x00C4, [0x00E4]); (0x00C5, [0x00E5]); (0x00C6, [0x00E6]);
   (0x00C7, [0x00E7]); (0x00C8, [0x00E8]); (0x00C9, [0x00E9]);
   (0x00CA, [0x00EA]); (0x00CB, [0x00EB]); (0x00CC, [0x00EC]);
   (0x00CD, [0x00ED]); (0x00CE, [0x00EE]); (0x00CF, [0x00EF]);
   (0x00D0, [0x00F0]); (0x00D1, [0x00F1]); (0x00D2, [0x00F2]);
   (0x00D3, [0x00F3]); (0x00D4, [0x00F4]); (0x00D5, [0x00F5]);
   (0x00D6, [0x00F6]); (0x00D8, [0x00F8]); (0x00D9, [0x00F9]);
   (0x00DA, [0x00FA]); (0x00DB, [0x00FB]); (0x00DC, [0x00FC]);
   (0x00DD, [0x00FD]); (0x00DE, [0x00FE]); (0x0100, [0x0101]);
   (0x0102, [0x0103]); (0x0104, [0x0105]); (0x0106, [0x0107]);
   (0x0108, [0x0109]); (0x010A, [0x010B]); (0x010C, [0x010D]);
   (0x010E, [0x010F]); (0x0110, [0x0111]); (0x0112, [0x0113]);
   (0x0114, [0x0115]); (0x0116, [0x0117]); (0x0118, [0x0119]);
   (0x011A, [0x011B]); (0x011C, [0x011D]); (0x011E, [0x011F]);
   (0x0120, [0x0121]); (0x0122, [0x0123]); (0x0124, [0x0125]);
   (0x0126, [0x0127]); (0x0128, [0x0129]); (0x012A, [0x012B]);
   (0x012C, [0x012D]); (0x012E, [0x012F]); (0x0130, [0x0069; 0x0307]);
   (0x0132, [0x0133]); (0x0134, [0x0135]); (0x0136, [0x0137]);
   (0x0139, [0x013A]); (0x013B, [0x013C]); (0x013D, [0x013E]);
   (0x013F, [0x0140]); (0x0141, [0x0142]); (0x0143, [0x0144]);
   (0x0145, [0x0146]); (0x0147, [0x0148]); (0x014A, [0x014B]);
   (0x014C, [0x014D]); (0x014E, [0x014F]); (0x0150, [0x0151]);
   (0x0152, [0x0153]); (0x0154, [0x0155]); (0x0156, [0x0157]);
   (0x0158, [0x0159]); (0x015A, [0x015B]); (0x015C, [0x015D]);
   (0x015E, [0x015F]); (0x0160, [0x0161]); (0x0162, [0x0163]);
   (0x0164, [0x0165]); (0x0166, [0x0167]); (0x0168, [0x0169]);
   (0x016A, [0x016B]); (0x016C, [0x016D]); (0x016E, [0x016F]);
   (0x0170, [0x0171]); (0x0172, [0x0173]); (0x0174, [0x0175]);
   (0x0176, [0x0177]); (0x0178, [0x00FF]); (0x0179, [0x017A]);
   (0x017B, [0x017C]); (0x017D, [0x017E]); (0x0181, [0x0253]);
   (0x0182, [0x0183]); (0x0184, [0x0185]); (0x0186, [0x0254]);
   (0x0187, [0x0188]); (0x0189, [0x0256]); (0x018A, [0x0257]);
   (0x018B, [0x018C]); (0x018E, [0x01DD]); (0x018F, [0x0259]);
   (0x0190, [0x025B]); (0x0191, [0x0192]); (0x0193, [0x0260]);
   (0x0194, [0x0263]); (0x0196, [0x0269]); (0x0197, [0x0268]);
   (0x0198, [0x0199]); (0x019C, [0x026F]); (0x019D, [0x0272]);
   (0x019F, [0x0275]); (0x01A0, [0x01A1]); (0x01A2, [0x01A3]);
   (0x01A4, [0x01A5]); (0x01A6, [0x0280]); (0x01A7, [0x01A8]);
   (0x01A9, [0x0283]); (0x01AC, [0x01AD]); (0x01AE, [0x0288]);
   (0x01AF, [0x01B0]); (0x01B1, [0x028A]); (0x01B2, [0x028B]);
   (0x01B3, [0x01B4]); (0x01B5, [0x01B6]); (0x01B7, [0x0292]);
   (0x01B8, [0x01B9]); (0x01BC, [0x01BD]); (0x01C4, [0x01C6]);
   (0x01C5, [0x01C6]); (0x01C7, [0x01C9]); (0x01C8, [0x01C9]);
   (0x01CA, [0x01CC]); (0x01CB, [0x01CC]); (0x01CD, [0x01CE]);
   (0x01CF, [0x01D0]); (0x01D1, [0x01D2]); (0x01D3, [0x01D4]);
   (0x01D5, [0x01D6]); (0x01D7, [0x01D8]); (0x01D9, [0x01DA]);
   (0x01DB, [0x01DC]); (0x01DE, [0x01DF]); (0x01E0, [0x01E1]);
   (0x01E2, [0x01E3]); (0x01E4, [0x01E5]); (0x01E6, [0x01E7]);
   (0x01E8, [0x01E9]); (0x01EA, [0x01EB]); (0x01EC, [0x01ED]);
   (0x01EE, [0x01EF]); (0x01F1, [0x01F3]); (0x01F2, [0x01F3]);
   (0x01F4, [0x01F5]); (0x01F6, [0x0195]); (0x01F7, [0x01BF]);
   (0x01F8, [0x01F9]); (0x01FA, [0x01FB]); (0x01FC, [0x01FD]);
   (0x01FE, [0x01FF]); (0x0200, [0x0201]); (0x0202, [0x0203]);
   (0x0204, [0x0205]); (0x0206, [0x0207]); (0x0208, [0x0209]);
   (0x020A, [0x020B]); (0x020C, [0x020D]); (0x020E, [0x020F]);
   (0x0210, [0x0211]); (0x0212, [0x0213]); (0x0214, [0x0215]);
   (0x0216, [0x0217]); (0x0218, [0x0219]); (0x021A, [0x021B]);
   (0x021C, [0x021D]); (0x021E, [0x021F]); (0x0220, [0x019E]);
   (0x0222, [0x0223]); (0x0224, [0x0225]); (0x0226, [0x0227]);
   (0x0228, [0x0229]); (0x022A, [0x022B]); (0x022C, [0x022D]);
   (0x022E, [0x022F]); (0x0230, [0x0231]); (0x0232, [0x0233]);
   (0x023A, [0x2C65]); (0x023B, [0x023C]); (0x023D, [0x019A]);
   (0x023E, [0x2C66]); (0x0241, [0x0242]); (0x0243, [0x0180]);
   (0x0244, [0x0289]); (0x0245, [0x028C]); (0x0246, [0x0247]);
   (0x0248, [0x0249]); (0x024A, [0x024B]); (0x024C, [0x024D]);
   (0x024E, [0x024F]); (0x03A3, [0x03C3])
  ]%N.

Definition latin_combining : list (N * N) :=
  [
   (0x0300, 230); (0x0301, 230); (0x0302, 230); (0x0303, 230);
   (0x0304, 230); (0x0305, 230); (0x0306, 230); (0x0307, 230);
   (0x0308, 230); (0x0309, 230); (0x030A, 230); (0x030B, 230);
   (0x030C, 230); (0x030D, 230); (0x030E, 230); (0x030F, 230);
   (0x0310, 230); (0x0311, 230); (0x0312, 230); (0x0313, 230);
   (0x0314, 230); (0x0315, 232); (0x0316, 220); (0x0317, 220);
   (0x0318, 220); (0x0319, 220); (0x031A, 232); (0x031B, 216);
   (0x031C, 220); (0x031D, 220); (0x031E, 220); (0x031F, 220);
   (0x0320, 220); (0x0321, 202); (0x0322, 202); (0x0323, 220);
   (0x0324, 220); (0x0325, 220); (0x0326, 220); (0x0327, 202);
   (0x0328, 202); (0x0329, 220); (0x032A, 220); (0x032B, 220);
   (0x032C, 220); (0x032D, 220); (0x032E, 220); (0x032F, 220);
   (0x0330, 220); (0x0331, 220); (0x0332, 220); (0x0333, 220); (0x0334, 1);
   (0x0335, 1); (0x0336, 1); (0x0337, 1); (0x0338, 1); (0x0339, 220);
   (0x033A, 220); (0x033B, 220); (0x033C, 220); (0x033D, 230);
   (0x033E, 230); (0x033F, 230); (0x0340, 230); (0x0341, 230);
   (0x0342, 230); (0x0343, 230); (0x0344, 230); (0x0345, 240);
   (0x0346, 230); (0x0347, 220); (0x0348, 220); (0x0349, 220);
   (0x034A, 230); (0x034B, 230); (0x034C, 230); (0x034D, 220);
   (0x034E, 220); (0x034F, 0); (0x0350, 230); (0x0351, 230); (0x0352, 230);
   (0x0353, 220); (0x0354, 220); (0x0355, 220); (0x0356, 220);
   (0x0357, 230); (0x0358, 232); (0x0359, 220); (0x035A, 220);
   (0x035B, 230); (0x035C, 233); (0x035D, 234); (0x035E, 234);
   (0x035F, 233); (0x0360, 234); (0x0361, 234); (0x0362, 233);
   (0x0363, 230); (0x0364, 230); (0x0365, 230); (0x0366, 230);
   (0x0367, 230); (0x0368, 230); (0x0369, 230); (0x036A, 230);
   (0x036B, 230); (0x036C, 230); (0x036D, 230); (0x036E, 230); (0x036F, 230)
  ]%N.

Definition unicode_space : list (N * N) :=
  [
   (0x0009, 0x000D); (0x001C, 0x0020); (0x0085, 0x0085); (0x00A0, 0x00A0);
   (0x1680, 0x1680); (0x2000, 0x200A); (0x2028, 0x2029); (0x202F, 0x202F);
   (0x205F, 0x205F); (0x3000, 0x3000)
  ]%N.

Definition latin_case_ignorable : list (N * N) :=
  [
   (0x0027, 0x0027); (0x002E, 0x002E); (0x003A, 0x003A); (0x005E, 0x005E);
   (0x0060, 0x0060); (0x00A8, 0x00A8); (0x00AD, 0x00AD); (0x00AF, 0x00AF);
   (0x00B4, 0x00B4); (0x00B7, 0x00B8); (0x02BC, 0x02BC); (0x0300, 0x036F)
  ]%N.

Definition latin_cased : list (N * N) :=
  [
   (0x0041, 0x005A); (0x0061, 0x007A); (0x00AA, 0x00AA); (0x00B5, 0x00B5);
   (0x00BA, 0x00BA); (0x00C0, 0x00D6); (0x00D8, 0x00F6); (0x00F8, 0x01BA);
   (0x01BC, 0x01BF); (0x01C4, 0x024F); (0x0253, 0x0254); (0x0256, 0x0257);
   (0x0259, 0x0259); (0x025B, 0x025B); (0x0260, 0x0260); (0x0263, 0x0263);
   (0x0268, 0x0269); (0x026F, 0x026F); (0x0272, 0x0272); (0x0275, 0x0275);
   (0x0280, 0x0280); (0x0283, 0x0283); (0x0288, 0x028C); (0x0292, 0x0292);
   (0x03A3, 0x03A3); (0x03BC, 0x03BC); (0x03C2, 0x03C3); (0x2C65, 0x2C66)
  ]%N.

Fixpoint table_get {A : Type} (c : N) (t : list (N * A)) : option A :=
  match t with
  | [] => None
  | (k, v) :: t' => if (k =? c)%N then Some v else table_get c t'
  end.

Definition in_ranges (c : N) (ranges : list (N * N)) : bool :=
  existsb (fun r => (fst r <=? c)%N && (c <=? snd r)%N) ranges.

Definition ucd_latin : UnicodeData :=
  mkUnicodeData
    (fun c => default [c] (table_get c latin_decompositions))
    (fun c => default 0%N (table_get c latin_combining))
    (fun c => default [c] (table_get c latin_lower))
    (fun c => in_ranges c latin_cased)
    (fun c => in_ranges c latin_case_ignorable)
    (fun c => in_ranges c unicode_space).

(** The code points of a text written in ASCII. *)
Definition ustr (s : string) : ustring :=
  map N_of_ascii (list_ascii_of_string s).

(** A code point that no step of the name key changes any more. *)
Definition settled (U : UnicodeData) (y : N) : Prop :=
  ucd_decomposition U y = [y]
  /\ ucd_combining U y = 0%N
  /\ ucd_tolower_full U y = [y]
  /\ y <> U_CAPITAL_SIGMA.

(** What the proofs use of the Unicode Character Database: a full
    decomposition is made of characters that decompose no further; the
    lower case of a character that has no decomposition and is not a
    combining mark is made of settled characters; so are the two small
    sigmas and the space. *)
Record ucd_sound (U : UnicodeData) : Prop := mk_ucd_sound {
  decomposition_full :
    forall c z, In z (ucd_decomposition U c) -> ucd_decomposition U z = [z];
  lower_settled :
    forall z,
      ucd_decomposition U z = [z] -> ucd_combining U z = 0%N ->
      Forall (settled U) (ucd_tolower_full U z);
  sigma_settled : settled U U_SMALL_SIGMA /\ settled U U_FINAL_SIGMA;
  space_settled : settled U U_SPACE
}.

(** [settled], computed. *)
Definition points_eqb (a b : list N) : bool :=
  bool_decide (a = b).

Definition settled_b (U : UnicodeData) (y : N) : bool :=
  points_eqb (ucd_decomposition U y) [y]
  && (ucd_combining U y =? 0)%N
  && points_eqb (ucd_tolower_full U y) [y]
  && negb (y =? U_CAPITAL_SIGMA)%N.

(** A text in which white space is single spaces only; with [in_run] it
    must not begin with one either. *)
Fixpoint usingle_spaced (sp : N -> bool) (in_run : bool) (s : ustring) : bool :=
  match s with
  | [] => true
  | c :: s' =>
      if sp c
      then (c =? U_SPACE)%N && negb in_run && usingle_spaced sp true s'
      else usingle_spaced sp false s'
  end.

(** What every character of a key satisfies. *)
Definition key_point (U : UnicodeData) (y : N) : Prop :=
  settled U y /\ y <> U_NBSP /\ is_name_punctuation y = false
  /\ y <> U_HYPHEN.
(* ===================================================================== *)
(** ** Further predicates *)
(* ===================================================================== *)

(** Where a row comes from: its page and its place on the page. *)
Definition row_origin (r : Row) : Z * Z := (page r, rowIndex r).

(** What the reconciler gives every row it keeps. *)
Definition kept_row (game_date : string) (x : Row) : Prop :=
  gameDate x = Some game_date
  /\ gameTime x <> ""
  /\ (player x <> "" \/ status x <> "").

(** A row that the deduplicator keeps on its own: its player is empty or
    the marker. *)
Definition solo_row (r : Row) : bool := keyless (row_key r).

(** The rows of [unique] stored under [id(row)]. *)
Definition solo_entries (u : unique_dict) : list Row :=
  map snd (List.filter (fun e => match fst e with None => true | Some _ => false end) u).

(** The probe gives no reason to refresh: it raises, finds no link, or
    finds one whose time stamp is not after that of the cached document. *)
Definition probe_not_newer (utcoffset : Z -> Z) (w : World) (cached : Payload)
  : Prop :=
  match fetch_latest_pdf_link w with
  | Raises _ => True
  | Returns None => True
  | Returns (Some latest_url) =>
      latest_url = ""
      \/ forall latest_ts cached_ts,
           parse_pdf_datetime utcoffset latest_url = Returns latest_ts ->
           parse_pdf_datetime utcoffset (cached_pdf_url cached) = Returns cached_ts ->
           latest_ts <= cached_ts
  end.

(** The probe finds a link that is stamped after the cached document. *)
Definition probe_newer (utcoffset : Z -> Z) (w : World) (cached : Payload)
  : Prop :=
  exists latest_url latest_ts cached_ts,
    fetch_latest_pdf_link w = Returns (Some latest_url)
    /\ latest_url <> ""
    /\ parse_pdf_datetime utcoffset latest_url = Returns latest_ts
    /\ parse_pdf_datetime utcoffset (cached_pdf_url cached) = Returns cached_ts
    /\ cached_ts < latest_ts.

(** A world whose probe fails on the network and whose pipeline would
    fail too, and one whose pipeline succeeds. *)
Definition world_offline : World :=
  mkWorld (Raises (OtherError "ConnectionError")) (Raises (OtherError "ConnectionError")).
Definition world_fresh_report : World :=
  mkWorld (Returns (Some "https://ak-static.cms.nba.com/referee/injury/Injury-Report_2026-02-08_05_45AM.pdf"))
          (Returns kept_payload).
(* ===================================================================== *)
(** ** Links: the game date, the mirror, the preferred link *)
(* ===================================================================== *)

(** r"Injury-Report_(\d{4})-(\d{2})-(\d{2})_", no flag *)
Definition pdf_date_regex : Re.regex :=
  Re.seq [ Re.Lit "Injury-Report_"; Re.Grp 1 (Re.times [Re.Digit] 4);
           Re.Lit "-"; Re.Grp 2 (Re.times [Re.Digit] 2);
           Re.Lit "-"; Re.Grp 3 (Re.times [Re.Digit] 2); Re.Lit "_" ].

Definition parse_pdf_date (url : string) : string :=
  let file_name := last_segment url in
  match Re.search false pdf_date_regex file_name with
  | None => ""
  | Some m =>
      let year := Re.group 1 (Re.m_groups m) in
      let month := Re.group 2 (Re.m_groups m) in
      let day := Re.group 3 (Re.m_groups m) in
      month ++ "/" ++ day ++ "/" ++ year
  end.

Definition MIRROR_HOST : string := "ak-static.cms.nba.com".

Definition fallback_pdf_url (url : string) : option string :=
  let file_name := last_segment url in
  if negb (PyStr.nonempty file_name) then None
  else Some ("https://ak-static.cms.nba.com/referee/injury/" ++ file_name).

(** The sort key of [prefer_link]: the time stamp, then whether the link is
    on the mirror host. *)
Definition link_key (utcoffset : Z -> Z) (link : string) : outcome (Z * bool) :=
  ts ← parse_pdf_datetime utcoffset link;
  Returns (ts, PyStr.contains MIRROR_HOST link).

(** [sorted] calls the key function once on every element, in order. *)
Fixpoint keyed_links (utcoffset : Z -> Z) (links : list string)
  : outcome (list ((Z * bool) * string)) :=
  match links with
  | [] => Returns []
  | link :: links' =>
      k ← link_key utcoffset link;
      rest ← keyed_links utcoffset links';
      Returns ((k, link) :: rest)
  end.

(** Tuples [(int, bool)] compared as Python compares them. *)
Definition key_lt (a b : Z * bool) : bool :=
  (fst a <? fst b) || ((fst a =? fst b) && negb (snd a) && snd b).

(** [sorted(..., reverse=True)]: descending, and stable, so that of equal
    elements the one that came first stays first. *)
Fixpoint insert_desc (x : (Z * bool) * string) (l : list ((Z * bool) * string))
  : list ((Z * bool) * string) :=
  match l with
  | [] => [x]
  | y :: l' => if key_lt (fst x) (fst y) then y :: insert_desc x l' else x :: l
  end.

Fixpoint sort_desc (l : list ((Z * bool) * string)) : list ((Z * bool) * string) :=
  match l with
  | [] => []
  | x :: l' => insert_desc x (sort_desc l')
  end.

Definition prefer_link (utcoffset : Z -> Z) (links : list string)
  : outcome (option string) :=
  match links with
  | [] => Returns None
  | _ =>
      keyed ← keyed_links utcoffset links;
      Returns (option_map snd (head (sort_desc keyed)))
  end.

(** The time stamp of a link, as a number. *)
Definition link_time (utcoffset : Z -> Z) (link : string) : Z :=
  match parse_pdf_datetime utcoffset link with
  | Returns ts => ts
  | Raises _ => 0
  end.

Definition on_mirror (link : string) : bool := PyStr.contains MIRROR_HOST link.

(** A text without a slash. *)
Definition no_slash (s : string) : bool :=
  all_chars (fun c => negb (Ascii.eqb c "/")) s.
(* ===================================================================== *)
(** ** Filtering and ordering rows for display *)
(* ===================================================================== *)

(** The set comprehension [{x.strip() for x in xs if x and x.strip()}], as
    the list of its members; [None] and the empty list are the same here. *)
Definition stripped_choices (xs : list string) : list string :=
  map PyStr.strip
      (List.filter (fun x => PyStr.nonempty x && PyStr.nonempty (PyStr.strip x)) xs).

Definition chosen (x : string) (choices : list string) : bool :=
  existsb (String.eqb x) choices.

Definition no_choice (choices : list string) : bool :=
  match choices with [] => true | _ => false end.

(** The three tests of the loop of [filter_rows]: [true] when the row is
    kept. *)
Definition row_passes (query : string) (team_set status_set : list string)
  (row : Row) : bool :=
  let player_ := PyStr.strip (player row) in
  let team_ := PyStr.strip (team row) in
  let status_ := PyStr.strip (status row) in
  negb (PyStr.nonempty query && negb (PyStr.contains query (PyStr.lower player_)))
  && negb (negb (no_choice team_set) && negb (chosen team_ team_set))
  && negb (negb (no_choice status_set) && negb (chosen status_ status_set)).

Definition filter_rows (rows : list Row) (player_query : option string)
  (selected_teams selected_statuses : list string) : list Row :=
  match rows with
  | [] => []
  | _ =>
      let query := PyStr.lower (PyStr.strip (default "" player_query)) in
      let team_set := stripped_choices selected_teams in
      let status_set := stripped_choices selected_statuses in
      List.filter (row_passes query team_set status_set) rows
  end.

Definition STATUS_DISPLAY_ORDER : list string :=
  ["Available"; "Probable"; "Questionable"; "Doubtful"; "Not With Team"; "Out"].

(** [STATUS_DISPLAY_ORDER.index(s)], or the length of the list. *)
Fixpoint index_or_length (s : string) (l : list string) : nat :=
  match l with
  | [] => O
  | x :: l' => if String.eqb x s then O else S (index_or_length s l')
  end.

Definition status_rank (s : string) : nat :=
  index_or_length s STATUS_DISPLAY_ORDER.

Definition team_key (row : Row) : string * string :=
  (PyStr.upper (PyStr.strip (matchup row)), PyStr.upper (PyStr.strip (team row))).

(** [team_block_order]: every (matchup, team) under the index of the first
    row that has it. *)
Fixpoint team_blocks (rows : list Row) (idx : N)
  (order : gmap (string * string) N) : gmap (string * string) N :=
  match rows with
  | [] => order
  | row :: rows' =>
      team_blocks rows' (idx + 1)%N
        (match order !! team_key row with
         | Some _ => order
         | None => <[ team_key row := idx ]> order
         end)
  end.

(** Strings compared as Python compares them, by code point. *)
Fixpoint str_le (a b : string) : bool :=
  match a, b with
  | EmptyString, _ => true
  | String _ _, EmptyString => false
  | String x a', String y b' =>
      if (PyStr.code x <? PyStr.code y)%N then true
      else if (PyStr.code y <? PyStr.code x)%N then false
      else str_le a' b'
  end.

Definition display_key (order : gmap (string * string) N) (row : Row)
  : N * nat * string :=
  (default (10 ^ 9)%N (order !! team_key row),
   status_rank (PyStr.strip (status row)),
   PyStr.upper (PyStr.strip (player row))).

Definition display_key_le (a b : N * nat * string) : bool :=
  let '(a1, a2, a3) := a in
  let '(b1, b2, b3) := b in
  (a1 <? b1)%N
  || ((a1 =? b1)%N && ((a2 <? b2)%nat || ((a2 =? b2)%nat && str_le a3 b3))).

(** [sorted(xs, key=...)]: the stable ascending order. *)
Fixpoint insert_by {A : Type} (le : A -> A -> bool) (x : A) (l : list A) : list A :=
  match l with
  | [] => [x]
  | y :: l' => if le x y then x :: l else y :: insert_by le x l'
  end.

Fixpoint sorted_by {A : Type} (le : A -> A -> bool) (l : list A) : list A :=
  match l with
  | [] => []
  | x :: l' => insert_by le x (sorted_by le l')
  end.

Definition sort_rows_for_display (rows : list Row) : list Row :=
  match rows with
  | [] => []
  | _ =>
      let team_block_order := team_blocks rows 0%N ∅ in
      sorted_by (fun a b => display_key_le (display_key team_block_order a)
                                           (display_key team_block_order b))
                rows
  end.

(** Ascending under [le]. *)
Fixpoint ascending {A : Type} (le : A -> A -> bool) (l : list A) : Prop :=
  match l with
  | [] => True
  | x :: l' =>
      match l' with
      | [] => True
      | y :: _ => le x y = true
      end /\ ascending le l'
  end.

(** The criteria of [filter_rows] as its caller reads them. *)
Definition query_of (player_query : option string) : string :=
  PyStr.lower (PyStr.strip (default "" player_query)).

Definition blank_choices (xs : list string) : Prop :=
  Forall (fun x => PyStr.strip x = "") xs.
(* ===================================================================== *)
(** ** Fetching with retries *)
(* ===================================================================== *)

(** What the code reads of a [requests.Response]: the status and the body
    ([.text] or [.content]). *)
Record Response : Type := mkResponse {
  status_code : Z;
  content : string
}.

(** [response.raise_for_status()]: an [HTTPError] for a 4xx or 5xx status. *)
Definition raise_for_status (response : Response) : outcome unit :=
  if (400 <=? status_code response) && (status_code response <? 600)
  then Raises (OtherError "HTTPError")
  else Returns tt.

(** [raise last_error]; raising [None] is a [TypeError]. *)
Definition raise_last {A : Type} (last_error : option exn) : outcome A :=
  match last_error with
  | Some exc => Raises exc
  | None => Raises (OtherError "TypeError")
  end.

(** The body of the [try] of [fetch_with_retry]; [get attempt] is what the
    request of that attempt does. *)
Definition try_get (get : nat -> outcome Response) (attempt : nat)
  : outcome Response :=
  response ← get attempt;
  _ ← raise_for_status response;
  Returns response.

(** The loop of [fetch_with_retry] over the attempts still to make.  The
    sleeps are recorded by their factor [attempt + 1] of [delay]. *)
Fixpoint fetch_attempts (get : nat -> outcome Response) (retries : nat)
  (attempts : list nat) (last_error : option exn) (slept : list nat)
  : list nat * outcome Response :=
  match attempts with
  | [] => (slept, raise_last last_error)
  | attempt :: rest =>
      match try_get get attempt with
      | Returns response => (slept, Returns response)
      | Raises exc =>
          fetch_attempts get retries rest (Some exc)
            (if (attempt <? retries)%nat then slept ++ [S attempt] else slept)
      end
  end.

(** [retries] is a count: the callers pass 2 or 3. *)
Definition fetch_with_retry (get : nat -> outcome Response) (retries : nat)
  : list nat * outcome Response :=
  fetch_attempts get retries (seq 0 (retries + 1)) None [].

(** The loop of [fetch_pdf_with_retry]; [warm attempt] is the request to
    the official page made after a 403 answer. *)
Fixpoint fetch_pdf_attempts (get : nat -> outcome Response)
  (warm : nat -> outcome unit) (retries : nat)
  (attempts : list nat) (last_error : option exn) (slept : list nat)
  : list nat * outcome Response :=
  match attempts with
  | [] => (slept, raise_last last_error)
  | attempt :: rest =>
      let failed exc :=
        fetch_pdf_attempts get warm retries rest (Some exc)
          (if (attempt <? retries)%nat then slept ++ [S attempt] else slept) in
      match get attempt with
      | Raises exc => failed exc
      | Returns response =>
          if status_code response =? 403 then
            match warm attempt with
            | Raises exc => failed exc
            | Returns _ =>
                fetch_pdf_attempts get warm retries rest last_error
                  (slept ++ [S attempt])
            end
          else
            match raise_for_status response with
            | Raises exc => failed exc
            | Returns _ => (slept, Returns response)
            end
      end
  end.

Definition fetch_pdf_with_retry (get : nat -> outcome Response)
  (warm : nat -> outcome unit) (retries : nat)
  : list nat * outcome Response :=
  fetch_pdf_attempts get warm retries (seq 0 (retries + 1)) None [].

(** The download of [fetch_injury_report], with its second try on the
    mirror; [fetch_pdf url] is [fetch_pdf_with_retry] on that address.  The
    result is the response and the address it came from, which the rest of
    the function uses as [latest]. *)
Definition download_pdf (fetch_pdf : string -> outcome Response)
  (latest : string) : outcome (Response * string) :=
  match fetch_pdf latest with
  | Returns pdf_response => Returns (pdf_response, latest)
  | Raises exc =>
      match fallback_pdf_url latest with
      | None => Raises exc
      | Some fallback_url =>
          if String.eqb fallback_url latest then Raises exc
          else
            pdf_response ← fetch_pdf fallback_url;
            Returns (pdf_response, fallback_url)
      end
  end.

(** [datetime.utcfromtimestamp(t)]: the reading of the UTC clock at the
    instant [t], in seconds from 1970-01-01T00:00:00 on that clock, which
    is [t] itself; a reading outside the years 1 to 9999 is a
    [ValueError].  [time.gmtime] itself is taken not to fail, as it does
    not on a 64-bit [time_t] for the instants a zone can put near these
    years. *)
Definition utcfromtimestamp (t : Z) : outcome Z :=
  if in_years t then Returns t else Raises ValueError.

(** The end of [fetch_injury_report], from the rows of the three
    extraction strategies to the payload.  [utc_date] and [utc_iso] are
    the texts [strftime("%m/%d/%Y")] and [isoformat()] give for a reading;
    [write_csv rows] is what building the data frame of the rows and
    writing the CSV file does: nothing that the payload shows, or an
    exception. *)
Definition report_game_date (utcoffset : Z -> Z) (utc_date : Z -> string)
  (latest : string) : outcome string :=
  let game_date := parse_pdf_date latest in
  if negb (PyStr.nonempty game_date) then
    timestamp ← parse_pdf_datetime utcoffset latest;
    if timestamp =? 0 then Returns game_date
    else
      reading ← utcfromtimestamp timestamp;
      Returns (utc_date reading)
  else Returns game_date.

Definition assemble_report (utcoffset : Z -> Z) (utc_date utc_iso : Z -> string)
  (write_csv : list Row -> outcome unit)
  (latest pdf_path csv_path : string) (combined_rows : list Row)
  : outcome Payload :=
  game_date ← report_game_date utcoffset utc_date latest;
  let rows := normalize_rows (deduplicate_rows combined_rows) game_date in
  match rows with
  | [] =>
      Returns (mkPayload false (Some "PDF loaded but no usable rows.")
                         (Some "parse_pdf") None None None)
  | _ =>
      _ ← write_csv rows;
      published_timestamp ← parse_pdf_datetime utcoffset latest;
      published_at ←
        (if published_timestamp =? 0 then Returns ""
         else
           reading ← utcfromtimestamp published_timestamp;
           Returns (utc_iso reading ++ "Z"));
      report_time ← parse_pdf_time_label latest;
      Returns (mkPayload true None None
                 (Some (mkMeta latest (last_segment latest) published_at
                               report_time pdf_path csv_path))
                 (Some (build_stats rows)) (Some rows))
  end.

(** The time stamp of the file name is one that [utcfromtimestamp]
    accepts. *)
Definition stamp_in_years (utcoffset : Z -> Z) (latest : string) : Prop :=
  forall stamp,
    parse_pdf_datetime utcoffset latest = Returns stamp -> in_years stamp = true.

(** What an exception of [assemble_report] can be. *)
Definition report_failure (utcoffset : Z -> Z)
  (write_csv : list Row -> outcome unit) (latest : string) (e : exn) : Prop :=
  (exists rows, rows <> [] /\ write_csv rows = Raises e)
  \/ (e = ValueError
      /\ exists stamp,
           parse_pdf_datetime utcoffset latest = Returns stamp
           /\ in_years stamp = false).

(** The sleeps of a run in which every attempt up to [n] failed. *)
Definition sleep_factors (n : nat) : list nat := map S (seq 0 n).

Definition succeeds (response : Response) : Prop :=
  raise_for_status response = Returns tt.

(** [(page, rowIndex)] pairs in tuple order, and lists of them in which
    every pair is followed only by pairs not below it. *)
Definition origin_le (a b : Z * Z) : Prop :=
  (fst a <? fst b) || ((fst a =? fst b) && (snd a <=? snd b)) = true.

Fixpoint origins_ascending (l : list (Z * Z)) : Prop :=
  match l with
  | [] => True
  | x :: l' => Forall (origin_le x) l' /\ origins_ascending l'
  end.
(* ===================================================================== *)
(** ** Rows from the text of a page *)
(* ===================================================================== *)

(** The line boundaries of [str.splitlines] below U+0100: LF, VT, FF, CR,
    FS, GS, RS and NEL; CR LF counts once. *)
Definition is_linebreak (c : ascii) : bool :=
  PyStr.in_range 10 13 c || PyStr.in_range 28 30 c || (PyStr.code c =? 133)%N.

Fixpoint splitlines_from (s acc : string) : list string :=
  match s with
  | EmptyString => if PyStr.nonempty acc then [PyStr.rev acc] else []
  | String c s' =>
      if is_linebreak c then
        PyStr.rev acc ::
        match s' with
        | String d s'' =>
            if Ascii.eqb c (ascii_of_N 13) && Ascii.eqb d (ascii_of_N 10)
            then splitlines_from s'' EmptyString
            else splitlines_from s' EmptyString
        | EmptyString => splitlines_from s' EmptyString
        end
      else splitlines_from s' (String c acc)
  end.

Definition splitlines (s : string) : list string :=
  splitlines_from s EmptyString.

(** [[x.strip() for x in xs if x.strip()]] *)
Definition stripped_nonblank (xs : list string) : list string :=
  map PyStr.strip (List.filter (fun x => PyStr.nonempty (PyStr.strip x)) xs).

(** [re.split(pattern, s)] for a pattern without groups that matches no
    empty text: the pieces between the matches. *)
Fixpoint split_at (spans : list (nat * nat)) (from : nat) (s : string)
  : list string :=
  match spans with
  | [] => [PyStr.drop from s]
  | (a, b) :: spans' =>
      PyStr.take (a - from) (PyStr.drop from s) :: split_at spans' b s
  end.

Definition re_split (r : Re.regex) (s : string) : list string :=
  split_at (Re.finditer false r s) 0 s.

(** [\s{2,}] *)
Definition wide_gap_regex : Re.regex := Re.Rep [Re.Space] 2 None.

Definition COLUMN_WORDS : list string :=
  ["GAME"; "DATE"; "TIME"; "MATCHUP"; "TEAM"; "PLAYER"; "STATUS"; "REASON"].

(** [^(GAME|...|REASON)(\s+\|\s+|\s{3,})(GAME|...|REASON)], used with
    [re.match], which anchors it. *)
Definition header_pair_regex : Re.regex :=
  Re.seq [Re.Grp 1 (Re.lits COLUMN_WORDS);
          Re.Grp 2 (Re.Alt (Re.seq [Re.plus [Re.Space]; Re.Lit "|";
                                    Re.plus [Re.Space]])
                           (Re.Rep [Re.Space] 3 None));
          Re.Grp 3 (Re.lits COLUMN_WORDS)].

Definition HEADER_LINES : list string :=
  ["GAME DATE MATCHUP TEAM PLAYER STATUS REASON";
   "GAME TIME MATCHUP TEAM PLAYER STATUS REASON";
   "GAME DATE/TIME MATCHUP TEAM PLAYER STATUS REASON";
   "GAME DATE GAME TIME MATCHUP TEAM PLAYER NAME CURRENT STATUS REASON"].

Definition is_header_or_footer (line : string) : bool :=
  let upper := PyStr.upper line in
  if PyStr.contains "NBA INJURY REPORT" upper then true
  else if PyStr.contains "REPORT UPDATED" upper then true
  else if PyStr.startswith "PAGE " upper then true
  else if existsb (String.eqb upper) HEADER_LINES then true
  else Re.found (Re.match_ false header_pair_regex upper).

(** [\d{2}:\d{2}] *)
Definition clock_regex : Re.regex :=
  Re.seq [Re.times [Re.Digit] 2; Re.Lit ":"; Re.times [Re.Digit] 2].

(** [xs[i] if len(xs) > i else ""] *)
Definition part (i : nat) (parts : list string) : string := nth i parts "".

(** The row of a line that starts a new entry. *)
Definition row_of_parts (parts : list string) (page_num line_index : Z) : Row :=
  let n := List.length parts in
  let '(game_time, matchup_, team_, player_, status_, reason_) :=
    if (6 <=? n)%nat then
      (part 0 parts, part 1 parts, part 2 parts, part 3 parts, part 4 parts,
       String.concat " " (skipn 5 parts))
    else if (n =? 5)%nat then
      (part 0 parts, "", part 1 parts, part 2 parts, part 3 parts, part 4 parts)
    else
      (part 0 parts, "", part 1 parts, part 2 parts, part 3 parts, "") in
  mkRow (PyStr.or_else game_time "TBD") matchup_ team_ player_ status_ reason_
        page_num line_index None.

(** One turn of the loop over the lines. *)
Definition text_step (page_num : Z) (rows : list Row) (entry : nat * string)
  : list Row :=
  let '(line_index, line) := entry in
  if is_header_or_footer line then rows
  else if String.eqb (PyStr.upper (PyStr.strip line)) NYS_MARKER then rows
  else
    let parts := stripped_nonblank (re_split wide_gap_regex line) in
    if (List.length parts =? 1)%nat
       && String.eqb (PyStr.upper (part 0 parts)) NYS_MARKER then rows
    else
      let is_new_player :=
        (4 <=? List.length parts)%nat
        || ((0 <? List.length parts)%nat
            && Re.found (Re.match_ false clock_regex (part 0 parts))) in
      if is_new_player
      then (rows ++ [row_of_parts parts page_num (Z.of_nat line_index)])%list
      else
        match last rows, parts with
        | Some last_row, _ :: _ =>
            let continuation_text := String.concat " " parts in
            if negb (String.eqb (PyStr.upper continuation_text) NYS_MARKER)
            then set_last_reason (glue (reason last_row) continuation_text) rows
            else rows
        | _, _ => rows
        end.

(** [enumerate(xs)], counting from [i]. *)
Fixpoint enumerate_from {A : Type} (i : nat) (xs : list A) : list (nat * A) :=
  match xs with
  | [] => []
  | x :: xs' => (i, x) :: enumerate_from (S i) xs'
  end.

Definition page_lines (text_ : string) : list string :=
  stripped_nonblank (splitlines text_).

Definition parse_rows_per_page (text_ : string) (page_num : Z) : list Row :=
  fold_left (text_step page_num) (enumerate_from 0 (page_lines text_)) [].

(* ===================================================================== *)
(** ** Rows from the tables of a page *)
(* ===================================================================== *)

(** A cell is a text or [None]; a row of a table is a list of cells, a
    table a list of rows. *)
Definition Cell : Type := option string.

(** [re.sub(r"[^a-z]", "", str(value).lower())] *)
Definition normalize_header (value : Cell) : string :=
  match value with
  | None => ""
  | Some v =>
      if negb (PyStr.nonempty v) then ""
      else PyStr.filter_chars PyStr.is_lower (PyStr.lower v)
  end.

(** [d[k] = v] on a dictionary kept in insertion order. *)
Fixpoint header_set (k : string) (v : nat) (d : list (string * nat))
  : list (string * nat) :=
  match d with
  | [] => [(k, v)]
  | (k', v') :: d' =>
      if String.eqb k' k then (k', v) :: d' else (k', v') :: header_set k v d'
  end.

Definition header_step (d : list (string * nat)) (entry : nat * Cell)
  : list (string * nat) :=
  let '(idx, value) := entry in
  match value with
  | Some v =>
      if PyStr.nonempty v then header_set (normalize_header value) idx d else d
  | None => d
  end.

Definition header_map_of (header : list Cell) : list (string * nat) :=
  fold_left header_step (enumerate_from 0 header) [].

(** [find_index]: the first key, in the order given, that is part of some
    header, and the index of the first such header. *)
Fixpoint find_index (header_map : list (string * nat)) (keys : list string)
  : option nat :=
  match keys with
  | [] => None
  | key :: keys' =>
      match List.find (fun e => PyStr.contains key (fst e)) header_map with
      | Some e => Some (snd e)
      | None => find_index header_map keys'
      end
  end.

Definition safe_get (row : list Cell) (index : option nat) : string :=
  match index with
  | None => ""
  | Some i =>
      match nth_error row i with
      | None => ""
      | Some cell => PyStr.strip (default "" cell)
      end
  end.

Record TableCols : Type := mkCols {
  game_idx : option nat;
  matchup_idx : option nat;
  team_idx : option nat;
  player_idx : option nat;
  status_idx : option nat;
  reason_idx : option nat
}.

Definition table_columns (header : list Cell) : TableCols :=
  let header_map := header_map_of header in
  mkCols (find_index header_map ["gamedate"; "gametime"; "game"; "date"; "time"])
         (find_index header_map ["matchup"; "match"])
         (find_index header_map ["team"])
         (find_index header_map ["player"; "name"])
         (find_index header_map ["status"])
         (find_index header_map ["reason"; "injury"; "comment"]).

(** The rows so far and [row_index]. *)
Definition TableState : Type := (list Row * Z)%type.

Definition table_row_step (cols : TableCols) (page_num : Z) (st : TableState)
  (row : list Cell) : TableState :=
  let '(rows, row_index) := st in
  match row with
  | [] => st
  | _ =>
      let game_time := safe_get row (game_idx cols) in
      let matchup_ := safe_get row (matchup_idx cols) in
      let team_ := safe_get row (team_idx cols) in
      let player_ := safe_get row (player_idx cols) in
      let status_ := safe_get row (status_idx cols) in
      let reason_ := safe_get row (reason_idx cols) in
      let is_continuation :=
        negb (PyStr.nonempty player_) && negb (PyStr.nonempty team_)
        && negb (PyStr.nonempty status_) && PyStr.nonempty reason_ in
      match (if is_continuation then last rows else None) with
      | Some last_row =>
          (set_last_reason (glue (reason last_row) reason_) rows, row_index)
      | None =>
          if negb (PyStr.nonempty team_ || PyStr.nonempty player_
                   || PyStr.nonempty status_ || PyStr.nonempty reason_)
          then st
          else if existsb (String.eqb (PyStr.upper player_)) ["PLAYER"; "NAME"]
          then st
          else
            ((rows ++ [mkRow (PyStr.or_else game_time "TBD") matchup_ team_
                             player_ status_ reason_ page_num row_index None])%list,
             row_index + 1)
      end
  end.

Definition table_step (page_num : Z) (st : TableState) (table : list (list Cell))
  : TableState :=
  match table with
  | [] | [_] => st
  | header :: body =>
      match header with
      | [] => st
      | _ => fold_left (table_row_step (table_columns header) page_num) body st
      end
  end.

Definition extract_rows_from_tables_per_page (tables : list (list (list Cell)))
  (page_num : Z) : list Row :=
  fst (fold_left (table_step page_num) tables ([], 0)).

(** Row indexes that grow strictly. *)
Fixpoint increasing (l : list Z) : Prop :=
  match l with
  | [] => True
  | x :: l' =>
      match l' with
      | [] => True
      | y :: _ => x < y
      end /\ increasing l'
  end.

(** What both strategies give every row. *)
Definition fresh_row (page_num : Z) (r : Row) : Prop :=
  page r = page_num /\ gameTime r <> "" /\ gameDate r = None.

(** A row with something in it besides its place and time. *)
Definition has_content (r : Row) : Prop :=
  team r <> "" \/ player r <> "" \/ status r <> "" \/ reason r <> "".

(** The player cell is not a repeated column title. *)
Definition not_a_title (r : Row) : Prop :=
  PyStr.upper (player r) <> "PLAYER" /\ PyStr.upper (player r) <> "NAME".

(** What the loop over the lines maintains, [i] lines in. *)
Definition text_inv (page_num : Z) (i : nat) (rows : list Row) : Prop :=
  Forall (fun r => fresh_row page_num r /\ 0 <= rowIndex r < Z.of_nat i) rows
  /\ increasing (map rowIndex rows)
  /\ (List.length rows <= i)%nat.

(** What the loops over tables and their rows maintain. *)
Definition table_inv (page_num : Z) (st : TableState) : Prop :=
  snd st = Z.of_nat (List.length (fst st))
  /\ map rowIndex (fst st) = map Z.of_nat (seq 0 (List.length (fst st)))
  /\ Forall (fun r => fresh_row page_num r /\ has_content r /\ not_a_title r)
            (fst st).
(* ===================================================================== *)
(** ** The CSV validator *)
(* ===================================================================== *)

Definition REQUIRED_COLUMNS : list string :=
  ["gameDate"; "team"; "player"; "status"; "reason"; "page"].

Definition MAX_REASON_LEN : nat := 180.

(** A data row as [csv.DictReader] gives it; a cell that is missing reads
    as the empty text ([row.get(...) or ""]). *)
Record CsvRow : Type := mkCsvRow {
  csv_gameDate : string;
  csv_team : string;
  csv_player : string;
  csv_status : string;
  csv_reason : string;
  csv_page : string
}.

(** An issue without its message text. *)
Record Issue : Type := mkIssue {
  level : string;
  code : string;
  row_number : option Z
}.

Record ValidationResult : Type := mkResult {
  row_count : nat;
  issues : list Issue
}.

Definition is_error (i : Issue) : bool := String.eqb (level i) "ERROR".
Definition is_warning (i : Issue) : bool := String.eqb (level i) "WARN".

Definition errors (r : ValidationResult) : list Issue :=
  List.filter is_error (issues r).
Definition warnings (r : ValidationResult) : list Issue :=
  List.filter is_warning (issues r).
Definition result_ok (r : ValidationResult) : bool :=
  match errors r with [] => true | _ => false end.

(** [s.count(sub)]: the occurrences of [sub] that do not overlap, left to
    right; [skip] counts the characters of the occurrence under way. *)
Fixpoint count_sub_aux (sub : string) (skip : nat) (s : string) : nat :=
  match s with
  | EmptyString => O
  | String c s' =>
      match skip with
      | S k => count_sub_aux sub k s'
      | O =>
          if PyStr.startswith sub s
          then S (count_sub_aux sub (Nat.pred (String.length sub)) s')
          else count_sub_aux sub O s'
      end
  end.
Definition count_sub (sub s : string) : nat := count_sub_aux sub O s.

Definition CsvKey : Type := (string * string * string * string * string)%type.

Definition csv_is_nys (row : CsvRow) : bool :=
  let team_ := PyStr.strip (csv_team row) in
  let player_ := PyStr.strip (csv_player row) in
  let status_ := PyStr.strip (csv_status row) in
  let reason_ := normalize_spaces (csv_reason row) in
  let combined :=
    PyStr.upper (team_ ++ " " ++ player_ ++ " " ++ status_ ++ " " ++ reason_) in
  PyStr.contains "NOT YET SUBMITTED" combined
  || PyStr.contains "NOTYETSUBMITTED" combined.

Definition csv_key (row : CsvRow) : CsvKey :=
  (PyStr.strip (csv_gameDate row),
   PyStr.upper (PyStr.strip (csv_team row)),
   PyStr.upper (PyStr.strip (csv_player row)),
   PyStr.upper (PyStr.strip (csv_status row)),
   PyStr.strip (csv_page row)).

(** [issues.append(...)] when the test holds. *)
Definition report (test : bool) (i : Issue) (issues_ : list Issue) : list Issue :=
  if test then (issues_ ++ [i])%list else issues_.

(** One turn of the loop over the rows: the issues and [seen_keys]. *)
Definition validate_row (st : list Issue * gset CsvKey) (entry : nat * CsvRow)
  : list Issue * gset CsvKey :=
  let '(issues_, seen_keys) := st in
  let '(index, row) := entry in
  let row_number := Some (Z.of_nat index) in
  let team_ := PyStr.strip (csv_team row) in
  let player_ := PyStr.strip (csv_player row) in
  let status_ := PyStr.strip (csv_status row) in
  let reason_ := normalize_spaces (csv_reason row) in
  let is_nys := csv_is_nys row in
  let issues_ :=
    if negb is_nys then
      let issues_ :=
        report (negb (PyStr.nonempty team_))
               (mkIssue "ERROR" "EMPTY_TEAM" row_number) issues_ in
      let issues_ :=
        report (negb (PyStr.nonempty player_))
               (mkIssue "ERROR" "EMPTY_PLAYER" row_number) issues_ in
      let issues_ :=
        report (negb (PyStr.nonempty status_))
               (mkIssue "ERROR" "EMPTY_STATUS" row_number) issues_ in
      report (negb (PyStr.nonempty reason_))
             (mkIssue "ERROR" "EMPTY_REASON" row_number) issues_
    else issues_ in
  let issues_ :=
    report (PyStr.nonempty reason_
            && (MAX_REASON_LEN <? String.length reason_)%nat)
           (mkIssue "ERROR" "REASON_TOO_LONG" row_number) issues_ in
  let issues_ :=
    report (PyStr.nonempty reason_ && is_contaminated_reason reason_)
           (mkIssue "ERROR" "REASON_CONTAMINATED" row_number) issues_ in
  let issues_ :=
    report (1 <? count_sub "Injury/Illness" reason_)%nat
           (mkIssue "WARN" "MULTI_INJURY_SEGMENT" row_number) issues_ in
  let key := csv_key row in
  if bool_decide (key ∈ seen_keys)
  then ((issues_ ++ [mkIssue "WARN" "DUPLICATE_PLAYER_ROW" row_number])%list,
        seen_keys)
  else (issues_, {[ key ]} ∪ seen_keys).

Definition strict_issue (warning : Issue) : Issue :=
  mkIssue "ERROR" ("STRICT_" ++ code warning) (row_number warning).

(** [validate_csv] on the columns and the data rows read from the file. *)
Definition validate_csv (columns : list string) (rows : list CsvRow)
  (strict_warnings : bool) : ValidationResult :=
  let missing_columns :=
    List.filter (fun column => negb (existsb (String.eqb column) columns))
                REQUIRED_COLUMNS in
  match missing_columns with
  | _ :: _ => mkResult (List.length rows) [mkIssue "ERROR" "MISSING_COLUMNS" None]
  | [] =>
      match rows with
      | [] => mkResult (List.length rows) [mkIssue "ERROR" "EMPTY_FILE" None]
      | _ =>
          let issues_ :=
            fst (fold_left validate_row (enumerate_from 2 rows) ([], ∅)) in
          let found := List.filter is_warning issues_ in
          let issues_ :=
            if strict_warnings && (match found with [] => false | _ => true end)
            then (issues_ ++ map strict_issue found)%list
            else issues_ in
          mkResult (List.length rows) issues_
      end
  end.

(** What a row must be like to pass without an error. *)
Definition clean_row (row : CsvRow) : Prop :=
  let reason_ := normalize_spaces (csv_reason row) in
  (csv_is_nys row = true
   \/ (PyStr.strip (csv_team row) <> "" /\ PyStr.strip (csv_player row) <> ""
       /\ PyStr.strip (csv_status row) <> "" /\ reason_ <> ""))
  /\ (String.length reason_ <= MAX_REASON_LEN)%nat
  /\ is_contaminated_reason reason_ = false.

(** Every issue the loop reports is an error or a warning. *)
Definition leveled (l : list Issue) : Prop :=
  Forall (fun i => is_error i || is_warning i = true) l.

(* ===================================================================== *)
(** ** Team logos *)
(* ===================================================================== *)

Definition TEAM_LOGO_CODE_BY_NAME : list (string * string) :=
  [("Atlanta Hawks", "atl"); ("Boston Celtics", "bos"); ("Brooklyn Nets", "bkn");
   ("Charlotte Hornets", "cha"); ("Chicago Bulls", "chi");
   ("Cleveland Cavaliers", "cle"); ("Dallas Mavericks", "dal");
   ("Denver Nuggets", "den"); ("Detroit Pistons", "det");
   ("Golden State Warriors", "gs"); ("Houston Rockets", "hou");
   ("Indiana Pacers", "ind"); ("LA Clippers", "lac");
   ("Los Angeles Clippers", "lac"); ("Los Angeles Lakers", "lal");
   ("Memphis Grizzlies", "mem"); ("Miami Heat", "mia");
   ("Milwaukee Bucks", "mil"); ("Minnesota Timberwolves", "min");
   ("New Orleans Pelicans", "no"); ("New York Knicks", "ny");
   ("Oklahoma City Thunder", "okc"); ("Orlando Magic", "orl");
   ("Philadelphia 76ers", "phi"); ("Phoenix Suns", "phx");
   ("Portland Trail Blazers", "por"); ("Sacramento Kings", "sac");
   ("San Antonio Spurs", "sa"); ("Toronto Raptors", "tor");
   ("Utah Jazz", "utah"); ("Washington Wizards", "wsh")].

(** [d.get(k)] on a dictionary literal without a repeated key. *)
Fixpoint dict_get (k : string) (d : list (string * string)) : option string :=
  match d with
  | [] => None
  | (k', v) :: d' => if String.eqb k' k then Some v else dict_get k d'
  end.

Definition team_logo_src (team_name : string) : option string :=
  match dict_get (PyStr.strip team_name) TEAM_LOGO_CODE_BY_NAME with
  | None => None
  | Some code_ =>
      if negb (PyStr.nonempty code_) then None
      else Some ("/assets/team_logos/" ++ code_ ++ ".png")
  end.

(** [TEAM_LOGO_CODES] of the asset script. *)
Definition TEAM_LOGO_CODES : list string :=
  ["atl"; "bkn"; "bos"; "cha"; "chi"; "cle"; "dal"; "den"; "det"; "gs"; "hou";
   "ind"; "lac"; "lal"; "mem"; "mia"; "mil"; "min"; "no"; "ny"; "okc"; "orl";
   "phi"; "phx"; "por"; "sa"; "sac"; "tor"; "utah"; "wsh"].

Definition team_logo_url (code_ : string) : string :=
  "https://a.espncdn.com/i/teamlogos/nba/500/" ++ code_ ++ ".png".

(** The files of the output directory, by name, and the three counters. *)
Record LogoSync : Type := mkLogoSync {
  files : gset string;
  downloaded : nat;
  skipped : nat;
  failed : nat
}.

(** One turn of the loop of [sync_team_logos]; [get url] is what the
    request does, and the write of the file is taken to go through. *)
Definition logo_step (force : bool) (get : string -> outcome Response)
  (st : LogoSync) (code_ : string) : LogoSync :=
  let target := code_ ++ ".png" in
  if bool_decide (target ∈ files st) && negb force
  then mkLogoSync (files st) (downloaded st) (skipped st + 1) (failed st)
  else
    match get (team_logo_url code_) with
    | Returns response =>
        if (status_code response =? 200) && PyStr.nonempty (content response)
        then mkLogoSync ({[ target ]} ∪ files st) (downloaded st + 1)
                        (skipped st) (failed st)
        else mkLogoSync (files st) (downloaded st) (skipped st) (failed st + 1)
    | Raises _ =>
        mkLogoSync (files st) (downloaded st) (skipped st) (failed st + 1)
    end.

Definition sync_team_logos (existing : gset string) (force : bool)
  (get : string -> outcome Response) : LogoSync :=
  fold_left (logo_step force get) TEAM_LOGO_CODES (mkLogoSync existing 0 0 0).
(* ===================================================================== *)
(** * Properties *)
(* ===================================================================== *)

(** ** Statistics *)

Section StatsFacts.

Local Open Scope nat_scope.

Lemma total_count_empty : total_count ∅ = 0.
Proof. unfold total_count. apply map_fold_empty. Qed.

Lemma total_count_insert_fresh (k : string) (n : nat) (d : gmap string nat) :
  d !! k = None -> total_count (<[ k := n ]> d) = n + total_count d.
Proof.
  intros Hk. unfold total_count.
  rewrite map_fold_insert_L; [reflexivity | | exact Hk].
  intros; cbv beta; lia.
Qed.

Lemma total_count_count_up (k : string) (d : gmap string nat) :
  total_count (count_up k d) = S (total_count d).
Proof.
  unfold count_up. destruct (d !! k) as [n|] eqn:Hk; simpl.
  - assert (Hd : total_count d = n + total_count (delete k d)).
    { unfold total_count.
      rewrite (map_fold_delete_L (fun _ v acc => v + acc) 0 k n d);
        [reflexivity | | exact Hk].
      intros; lia. }
    rewrite <- insert_delete_eq.
    rewrite total_count_insert_fresh by apply lookup_delete_eq.
    lia.
  - rewrite total_count_insert_fresh by exact Hk. lia.
Qed.

Lemma count_up_lookup (k l : string) (d : gmap string nat) :
  default 0 (count_up k d !! l)
  = default 0 (d !! l) + (if String.eqb k l then 1 else 0).
Proof.
  unfold count_up. destruct (String.eqb_spec k l) as [->|Hne].
  - rewrite lookup_insert_eq. simpl. reflexivity.
  - rewrite lookup_insert_ne by exact Hne. lia.
Qed.

Lemma stats_fold_totals (rs : list Row) (a b : gmap string nat) :
  let acc :=
    fold_left
      (fun acc row =>
         (count_up (PyStr.or_else (status row) "Unknown") (fst acc),
          count_up (PyStr.or_else (team row) "Unknown") (snd acc)))
      rs (a, b) in
  total_count (fst acc) = total_count a + length rs
  /\ total_count (snd acc) = total_count b + length rs
  /\ (forall l, default 0 (fst acc !! l)
                = default 0 (a !! l) + count_label status l rs)
  /\ (forall l, default 0 (snd acc !! l)
                = default 0 (b !! l) + count_label team l rs).
Proof.
  revert a b. induction rs as [|r rs IH]; intros a b; simpl.
  - repeat split; intros; unfold count_label; simpl; lia.
  - specialize (IH (count_up (PyStr.or_else (status r) "Unknown") a)
                   (count_up (PyStr.or_else (team r) "Unknown") b)).
    simpl in IH. destruct IH as (H1 & H2 & H3 & H4).
    rewrite H1, H2, !total_count_count_up.
    repeat split; try lia.
    + intros l. rewrite H3, count_up_lookup. unfold count_label. simpl.
      destruct (String.eqb _ l); simpl; lia.
    + intros l. rewrite H4, count_up_lookup. unfold count_label. simpl.
      destruct (String.eqb _ l); simpl; lia.
Qed.

(** C9. [build_stats] reports the number of rows as [totalRows]; the
    counts of [byStatus] add up to it, and so do those of [byTeam].  Each
    label's count is the number of rows carrying it, a row with an empty
    status or team being counted under "Unknown". *)
Theorem build_stats_totals (rs : list Row) :
  totalRows (build_stats rs) = length rs
  /\ total_count (byStatus (build_stats rs)) = totalRows (build_stats rs)
  /\ total_count (byTeam (build_stats rs)) = totalRows (build_stats rs)
  /\ (forall l, default 0 (byStatus (build_stats rs) !! l) = count_label status l rs)
  /\ (forall l, default 0 (byTeam (build_stats rs) !! l) = count_label team l rs).
Proof.
  pose proof (stats_fold_totals rs ∅ ∅) as H. simpl in H.
  unfold build_stats.
  destruct (fold_left _ rs (∅, ∅)) as [s t] eqn:E. simpl in *.
  destruct H as (H1 & H2 & H3 & H4).
  rewrite total_count_empty in H1, H2.
  repeat split; try lia.
  - intros l. rewrite H3, lookup_empty. reflexivity.
  - intros l. rewrite H4, lookup_empty. reflexivity.
Qed.

End StatsFacts.

(** ** The cache controller *)

Section CacheFacts.

Variable utcoffset : Z -> Z.

Lemma get_cached_report_cases (w : World) (now : Z) (force : bool)
    (st : CacheState) :
  fst (get_cached_report utcoffset w now force st) = st
  \/ exists payload,
       serve_cached utcoffset w now force st = Returns None
       /\ fetch_injury_report w = Returns payload
       /\ ok payload = true
       /\ get_cached_report utcoffset w now force st
          = (mkCache (Some payload) now, Returns payload).
Proof.
  unfold get_cached_report.
  destruct (serve_cached utcoffset w now force st) as [[p|]|e]; simpl; auto.
  destruct (fetch_injury_report w) as [payload|e]; simpl; auto.
  destruct (ok payload) eqn:Hok; simpl; auto.
  right. exists payload. auto.
Qed.

(** C3. When the call goes on to the full pipeline run and the run ends
    in a payload that is not [ok], the cache (slot and time stamp) is what
    it was and the caller receives that payload; and whenever a call does
    change the cache, the new slot holds the pipeline's payload, which is
    [ok], stamped with the time of the call. *)
Theorem failed_refresh_leaves_cache (w : World) (now : Z) (force : bool)
    (st : CacheState) (payload : Payload) :
  serve_cached utcoffset w now force st = Returns None ->
  fetch_injury_report w = Returns payload ->
  ok payload = false ->
  get_cached_report utcoffset w now force st = (st, Returns payload)
  /\ (forall w' now' force' st',
        fst (get_cached_report utcoffset w' now' force' st') <> st' ->
        exists good,
          fetch_injury_report w' = Returns good
          /\ ok good = true
          /\ get_cached_report utcoffset w' now' force' st'
             = (mkCache (Some good) now', Returns good)).
Proof.
  intros Hserve Hrun Hok. split.
  - unfold get_cached_report. rewrite Hserve, Hrun, Hok. reflexivity.
  - intros w' now' force' st' Hchanged.
    destruct (get_cached_report_cases w' now' force' st')
      as [Hsame | (good & _ & Hfetch & Hgood & Hres)].
    + contradiction.
    + exists good. auto.
Qed.

End CacheFacts.

Lemma failed_refresh_leaves_cache_witness :
  get_cached_report (fun _ => 0) (mkWorld (Returns None) (Returns failed_payload))
    5000 true (mkCache (Some kept_payload) 100)
  = (mkCache (Some kept_payload) 100, Returns failed_payload).
Proof.
  apply (failed_refresh_leaves_cache (fun _ => 0)
           (mkWorld (Returns None) (Returns failed_payload)) 5000 true
           (mkCache (Some kept_payload) 100) failed_payload);
    reflexivity.
Defined.
(** ** Player-name keys *)

Section StringFacts.

Import PyStr.

Lemma all_chars_filter (p q keep : ascii -> bool) (s : string) :
  (forall c, p c = true -> keep c = true -> q c = true) ->
  all_chars p s = true -> all_chars q (filter_chars keep s) = true.
Proof.
  intros Hpq. induction s as [|c s IH]; simpl; [reflexivity|].
  rewrite andb_true_iff. intros [Hc Hs].
  destruct (keep c) eqn:Hk; simpl; [rewrite andb_true_iff|]; auto.
Qed.

Lemma all_chars_true (s : string) : all_chars (fun _ => true) s = true.
Proof. induction s; simpl; auto. Qed.

End StringFacts.

Section NameKeyFacts.

Local Open Scope list_scope.
Local Open Scope N_scope.

Variable U : UnicodeData.

(** *** Each step keeps what holds of every character *)

Lemma Forall_insert_mark (P : N -> Prop) (ccc : N -> N) (c : N) (out : list N) :
  P c -> Forall P out -> Forall P (insert_mark ccc c out).
Proof.
  intros Hc. induction 1 as [|p out Hp Hout IH]; cbn [insert_mark].
  - constructor; [exact Hc | constructor].
  - destruct (ccc c <? ccc p).
    + constructor; [exact Hp | exact IH].
    + constructor; [exact Hc|]. constructor; [exact Hp | exact Hout].
Qed.

Lemma Forall_canonical_order (P : N -> Prop) (ccc : N -> N) (s : ustring) :
  Forall P s -> Forall P (canonical_order ccc s).
Proof.
  intros Hs. unfold canonical_order. apply Forall_rev.
  assert (Hgen : forall out, Forall P out ->
            Forall P (fold_left
                        (fun out c => if ccc c =? 0 then c :: out
                                      else insert_mark ccc c out) s out)).
  { induction Hs as [|c s Hc Hs IH]; intros out Hout; [exact Hout|].
    cbn [fold_left]. apply IH. destruct (ccc c =? 0).
    - constructor; [exact Hc | exact Hout].
    - apply Forall_insert_mark; assumption. }
  apply Hgen. constructor.
Qed.

Lemma canonical_order_starters (ccc : N -> N) (s : ustring) :
  Forall (fun c => ccc c = 0) s -> canonical_order ccc s = s.
Proof.
  intros Hs. unfold canonical_order.
  assert (Hgen : forall out,
            fold_left (fun out c => if ccc c =? 0 then c :: out
                                    else insert_mark ccc c out) s out
            = rev s ++ out).
  { induction Hs as [|c s Hc Hs IH]; intros out; [reflexivity|].
    cbn [fold_left rev]. rewrite Hc. cbn [N.eqb]. rewrite IH.
    rewrite <- app_assoc. reflexivity. }
  rewrite Hgen, app_nil_r. apply rev_involutive.
Qed.

Lemma flat_map_fixed (f : N -> list N) (s : ustring) :
  Forall (fun c => f c = [c]) s -> flat_map f s = s.
Proof.
  induction 1 as [|c s Hc Hs IH]; [reflexivity|].
  cbn [flat_map]. rewrite Hc, IH. reflexivity.
Qed.

Lemma Forall_flat_map (P : N -> Prop) (f : N -> list N) (s : ustring) :
  (forall c, Forall P (f c)) -> Forall P (flat_map f s).
Proof.
  intros Hf. induction s as [|c s IH]; [constructor|].
  cbn [flat_map]. apply Forall_app. split; [apply Hf | exact IH].
Qed.

Lemma Forall_filter_both (P : N -> Prop) (keep : N -> bool) (s : ustring) :
  Forall P s ->
  Forall (fun c => P c /\ keep c = true) (List.filter keep s).
Proof.
  induction 1 as [|c s Hc Hs IH]; [constructor|].
  cbn [List.filter]. destruct (keep c) eqn:Hk; [|exact IH].
  constructor; [split; assumption | exact IH].
Qed.

Lemma filter_fixed (keep : N -> bool) (s : ustring) :
  Forall (fun c => keep c = true) s -> List.filter keep s = s.
Proof.
  induction 1 as [|c s Hc Hs IH]; [reflexivity|].
  cbn [List.filter]. rewrite Hc, IH. reflexivity.
Qed.

Lemma Forall_ulstrip (P : N -> Prop) (sp : N -> bool) (s : ustring) :
  Forall P s -> Forall P (ulstrip sp s).
Proof.
  induction 1 as [|c s Hc Hs IH]; [constructor|].
  cbn [ulstrip]. destruct (sp c); [exact IH|]. constructor; assumption.
Qed.

Lemma Forall_urstrip (P : N -> Prop) (sp : N -> bool) (s : ustring) :
  Forall P s -> Forall P (urstrip sp s).
Proof.
  induction 1 as [|c s Hc Hs IH]; [constructor|].
  cbn [urstrip]. destruct (urstrip sp s) as [|d r].
  - destruct (sp c); [constructor|]. constructor; [exact Hc | constructor].
  - constructor; [exact Hc | exact IH].
Qed.

Lemma Forall_ustrip (P : N -> Prop) (s : ustring) :
  Forall P s -> Forall P (ustrip U s).
Proof. intros H. unfold ustrip. apply Forall_urstrip, Forall_ulstrip, H. Qed.

Lemma Forall_ureplace (P : N -> Prop) (c d : N) (s : ustring) :
  P d -> Forall P s ->
  Forall (fun x => P x /\ (x <> c \/ x = d)) (ureplace c d s).
Proof.
  intros Hd. induction 1 as [|x s Hx Hs IH]; [constructor|].
  cbn [ureplace map]. constructor; [|exact IH].
  destruct (N.eqb_spec x c) as [->|Hne]; [split; [exact Hd | now right]|].
  split; [exact Hx | now left].
Qed.

Lemma ureplace_fixed (c d : N) (s : ustring) :
  Forall (fun x => x <> c) s -> ureplace c d s = s.
Proof.
  induction 1 as [|x s Hx Hs IH]; [reflexivity|].
  cbn [ureplace map]. fold (ureplace c d s). rewrite IH.
  destruct (N.eqb_spec x c); [contradiction | reflexivity].
Qed.

Lemma Forall_ucollapse_ws (P : N -> Prop) (sp : N -> bool) (b : bool)
  (s : ustring) :
  P U_SPACE -> Forall P s -> Forall P (ucollapse_ws sp b s).
Proof.
  intros Hsp Hs. revert b.
  induction Hs as [|c s Hc Hs IH]; intros b; [constructor|].
  cbn [ucollapse_ws]. destruct (sp c); [destruct b|].
  - apply IH.
  - constructor; [exact Hsp | apply IH].
  - constructor; [exact Hc | apply IH].
Qed.

(** *** Texts that are single-spaced *)

Lemma usingle_spaced_weaken (sp : N -> bool) (b : bool) (s : ustring) :
  usingle_spaced sp b s = true -> usingle_spaced sp false s = true.
Proof.
  destruct s as [|c s]; [reflexivity|]. cbn [usingle_spaced].
  destruct (sp c); [|auto].
  rewrite !andb_true_iff. intros [[Hsp _] Hs]. auto.
Qed.

Lemma ucollapse_ws_single_spaced (sp : N -> bool) (b : bool) (s : ustring) :
  usingle_spaced sp b (ucollapse_ws sp b s) = true.
Proof.
  revert b. induction s as [|c s IH]; intros b; [reflexivity|].
  cbn [ucollapse_ws]. destruct (sp c) eqn:Hc.
  - destruct b; [apply IH|].
    cbn [usingle_spaced]. destruct (sp U_SPACE).
    + rewrite N.eqb_refl. cbn [negb andb]. apply IH.
    + eapply usingle_spaced_weaken, IH.
  - cbn [usingle_spaced]. rewrite Hc. apply IH.
Qed.

Lemma ucollapse_ws_fixed (sp : N -> bool) (b : bool) (s : ustring) :
  usingle_spaced sp b s = true -> ucollapse_ws sp b s = s.
Proof.
  revert b. induction s as [|c s IH]; intros b; [reflexivity|].
  cbn [usingle_spaced ucollapse_ws]. destruct (sp c) eqn:Hc.
  - rewrite !andb_true_iff. intros [[Hsp Hb] Hs].
    apply N.eqb_eq in Hsp. subst c.
    destruct b; [discriminate|]. rewrite IH by exact Hs. reflexivity.
  - intros Hs. rewrite IH by exact Hs. reflexivity.
Qed.

Lemma usingle_spaced_lstrip (sp : N -> bool) (b : bool) (s : ustring) :
  usingle_spaced sp b s = true -> usingle_spaced sp false (ulstrip sp s) = true.
Proof.
  revert b. induction s as [|c s IH]; intros b; [reflexivity|].
  cbn [usingle_spaced ulstrip]. destruct (sp c) eqn:Hc.
  - rewrite !andb_true_iff. intros [_ Hs]. eapply IH, Hs.
  - intros Hs. cbn [usingle_spaced]. rewrite Hc. exact Hs.
Qed.

Lemma usingle_spaced_rstrip (sp : N -> bool) (b : bool) (s : ustring) :
  usingle_spaced sp b s = true -> usingle_spaced sp b (urstrip sp s) = true.
Proof.
  revert b. induction s as [|c s IH]; intros b; [reflexivity|].
  cbn [usingle_spaced urstrip]. destruct (sp c) eqn:Hc.
  - rewrite !andb_true_iff. intros [[Hsp Hb] Hs]. specialize (IH _ Hs).
    destruct (urstrip sp s) as [|d r]; [reflexivity|].
    cbn [usingle_spaced]. rewrite Hc, Hsp, Hb. exact IH.
  - intros Hs. specialize (IH _ Hs).
    destruct (urstrip sp s) as [|d r]; cbn [usingle_spaced];
      rewrite Hc; [reflexivity | exact IH].
Qed.

(** *** Lower case *)

(** Lowering settled characters changes nothing. *)
Lemma ulower_from_fixed (before s : ustring) :
  Forall (settled U) s -> ulower_from U before s = s.
Proof.
  intros Hs. revert before.
  induction Hs as [|c s (_ & _ & Hlow & Hsigma) Hs IH]; intros before;
    [reflexivity|].
  cbn [ulower_from]. destruct (N.eqb_spec c U_CAPITAL_SIGMA); [contradiction|].
  rewrite Hlow, IH. reflexivity.
Qed.

Hypothesis Hsound : ucd_sound U.

(** Lowering characters that have no decomposition and are no combining
    marks gives settled characters. *)
Lemma ulower_from_settled (before s : ustring) :
  Forall (fun z => ucd_decomposition U z = [z] /\ ucd_combining U z = 0) s ->
  Forall (settled U) (ulower_from U before s).
Proof.
  intros Hs. revert before.
  induction Hs as [|c s [Hdec Hccc] Hs IH]; intros before; [constructor|].
  cbn [ulower_from]. apply Forall_app. split; [|apply IH].
  destruct (c =? U_CAPITAL_SIGMA).
  - constructor; [|constructor].
    destruct (sigma_settled U Hsound) as [Hsmall Hfinal].
    destruct (final_sigma U before s); assumption.
  - apply (lower_settled U Hsound); assumption.
Qed.

(** *** The key *)

Lemma key_points (s : ustring) :
  Forall (key_point U) (normalize_player_name_key U s).
Proof.
  unfold normalize_player_name_key.
  assert (Hsp : settled U U_SPACE) by apply (space_settled U Hsound).
  assert (H1 : Forall (fun z => ucd_decomposition U z = [z])
                      (unicodedata_normalize_NFKD U s)).
  { unfold unicodedata_normalize_NFKD. apply Forall_canonical_order.
    apply Forall_flat_map. intros c. apply Forall_forall. intros z Hz.
    apply list_elem_of_In in Hz. exact (decomposition_full U Hsound c z Hz). }
  apply (Forall_filter_both _ (fun c => negb (unicodedata_combining U c))) in H1.
  set (a := List.filter _ (unicodedata_normalize_NFKD U s)) in *.
  assert (H2 : Forall (fun z => ucd_decomposition U z = [z]
                                /\ ucd_combining U z = 0) (ustrip U a)).
  { apply Forall_ustrip. eapply Forall_impl; [exact H1|].
    cbn. intros z [Hdec Hccc]. split; [exact Hdec|].
    unfold unicodedata_combining in Hccc.
    apply negb_true_iff, negb_false_iff, N.eqb_eq in Hccc. exact Hccc. }
  apply (ulower_from_settled []) in H2. fold (ulower U (ustrip U a)) in H2.
  apply (Forall_ureplace _ U_NBSP U_SPACE _ Hsp) in H2.
  apply (Forall_filter_both _ (fun c => negb (is_name_punctuation c))) in H2.
  assert (Hsp' : (settled U U_SPACE /\ (U_SPACE <> U_NBSP \/ U_SPACE = U_SPACE))
                 /\ negb (is_name_punctuation U_SPACE) = true)
    by (split; [split; [exact Hsp | now right] | reflexivity]).
  apply (Forall_ureplace _ U_HYPHEN U_SPACE _ Hsp') in H2.
  apply (Forall_ucollapse_ws _ (ucd_space U) false) in H2.
  2:{ split; [exact Hsp' | now right]. }
  eapply Forall_impl; [exact H2|]. cbn.
  intros y [[[Hy Hnbsp] Hpunct] Hhyphen].
  apply negb_true_iff in Hpunct.
  split; [exact Hy|]. split; [|split; [exact Hpunct|]].
  - destruct Hnbsp as [H|H]; [exact H | rewrite H; discriminate].
  - destruct Hhyphen as [H|H]; [exact H | rewrite H; discriminate].
Qed.

Lemma key_single_spaced (s : ustring) :
  usingle_spaced (ucd_space U) false (normalize_player_name_key U s) = true.
Proof. unfold normalize_player_name_key. apply ucollapse_ws_single_spaced. Qed.

Lemma normalize_key_of_tidy (t : ustring) :
  Forall (key_point U) t ->
  usingle_spaced (ucd_space U) false t = true ->
  normalize_player_name_key U t = ustrip U t.
Proof.
  intros Hpoints Hsp.
  assert (Hpoints' : Forall (key_point U) (ustrip U t))
    by (apply Forall_ustrip, Hpoints).
  assert (Hsp' : usingle_spaced (ucd_space U) false (ustrip U t) = true).
  { unfold ustrip. eapply usingle_spaced_rstrip, usingle_spaced_lstrip, Hsp. }
  unfold normalize_player_name_key, unicodedata_normalize_NFKD.
  rewrite (flat_map_fixed _ t).
  2:{ eapply Forall_impl; [exact Hpoints|]. cbn. intros y [[Hdec _] _]. exact Hdec. }
  rewrite canonical_order_starters.
  2:{ eapply Forall_impl; [exact Hpoints|]. cbn. intros y [(_ & Hccc & _) _].
      exact Hccc. }
  rewrite (filter_fixed _ t).
  2:{ eapply Forall_impl; [exact Hpoints|]. cbn. intros y [(_ & Hccc & _) _].
      unfold unicodedata_combining. rewrite Hccc. reflexivity. }
  unfold ulower. rewrite ulower_from_fixed.
  2:{ eapply Forall_impl; [exact Hpoints'|]. cbn. intros y [Hy _]. exact Hy. }
  rewrite (ureplace_fixed U_NBSP U_SPACE (ustrip U t)).
  2:{ eapply Forall_impl; [exact Hpoints'|]. cbn. intros y (_ & Hy & _). exact Hy. }
  rewrite (filter_fixed _ (ustrip U t)).
  2:{ eapply Forall_impl; [exact Hpoints'|]. cbn. intros y (_ & _ & Hy & _).
      rewrite Hy. reflexivity. }
  rewrite (ureplace_fixed U_HYPHEN U_SPACE (ustrip U t)).
  2:{ eapply Forall_impl; [exact Hpoints'|]. cbn. intros y (_ & _ & _ & Hy).
      exact Hy. }
  apply ucollapse_ws_fixed, Hsp'.
Qed.

End NameKeyFacts.

(** The tables of [ucd_latin] have what the proofs use. *)
Section LatinData.

Local Open Scope list_scope.
Local Open Scope N_scope.

Lemma table_get_in {A : Type} (c : N) (v : A) (t : list (N * A)) :
  table_get c t = Some v -> In (c, v) t.
Proof.
  induction t as [|[k w] t IH]; [discriminate|].
  cbn [table_get]. destruct (N.eqb_spec k c) as [->|Hne].
  - intros [= ->]. now left.
  - intros H. right. exact (IH H).
Qed.

Lemma settled_b_settled (U : UnicodeData) (y : N) :
  settled_b U y = true -> settled U y.
Proof.
  unfold settled_b, settled, points_eqb.
  rewrite !andb_true_iff, !bool_decide_eq_true, N.eqb_eq, negb_true_iff, N.eqb_neq.
  tauto.
Qed.

Lemma ucd_latin_sound : ucd_sound ucd_latin.
Proof.
  constructor.
  - intros c z Hz. cbn [ucd_decomposition ucd_latin] in *.
    destruct (table_get c latin_decompositions) as [l|] eqn:Hc; cbn [default] in Hz.
    + apply table_get_in in Hc.
      assert (Hall : forallb
                (fun e => forallb
                   (fun z => points_eqb
                      (default [z] (table_get z latin_decompositions)) [z])
                   (snd e))
                latin_decompositions = true) by (vm_compute; reflexivity).
      rewrite forallb_forall in Hall. specialize (Hall _ Hc). cbn [snd] in Hall.
      rewrite forallb_forall in Hall. specialize (Hall _ Hz).
      apply bool_decide_eq_true in Hall. exact Hall.
    + destruct Hz as [<-|[]]. rewrite Hc. reflexivity.
  - intros z Hdec Hccc. apply Forall_forall. intros y Hy.
    apply list_elem_of_In in Hy. apply settled_b_settled.
    cbn [ucd_tolower_full ucd_latin] in Hy.
    destruct (table_get z latin_lower) as [l|] eqn:Hz; cbn [default] in Hy.
    + apply table_get_in in Hz.
      assert (Hall : forallb
                (fun e =>
                   implb (points_eqb (ucd_decomposition ucd_latin (fst e)) [fst e]
                          && (ucd_combining ucd_latin (fst e) =? 0))
                         (forallb (settled_b ucd_latin) (snd e)))
                latin_lower = true) by (vm_compute; reflexivity).
      rewrite forallb_forall in Hall. specialize (Hall _ Hz). cbn [fst snd] in Hall.
      unfold points_eqb in Hall at 1.
      rewrite (bool_decide_eq_true_2 _ Hdec), Hccc in Hall. cbn [N.eqb andb implb] in Hall.
      rewrite forallb_forall in Hall. exact (Hall _ Hy).
    + destruct Hy as [<-|[]].
      unfold settled_b, points_eqb.
      rewrite (bool_decide_eq_true_2 _ Hdec), Hccc. cbn [N.eqb andb].
      cbn [ucd_tolower_full ucd_latin]. rewrite Hz. cbn [default].
      rewrite bool_decide_eq_true_2 by reflexivity. cbn [andb].
      destruct (N.eqb_spec z U_CAPITAL_SIGMA) as [->|]; [|reflexivity].
      vm_compute in Hz. discriminate.
  - split; apply settled_b_settled; vm_compute; reflexivity.
  - apply settled_b_settled. vm_compute. reflexivity.
Qed.

End LatinData.

(** C10, as the code has it.  Normalising a key again strips it: the
    second pass returns the first key without the space that a leading or
    trailing hyphen, full stop, quote or back-quote leaves behind.  The
    normalisation is therefore idempotent on every text whose key neither
    starts nor ends with a space, and from the second pass on.  This holds
    of every Unicode text, with the tables of any version of Unicode that
    has the properties of [ucd_sound]. *)
Theorem normalize_player_name_key_twice (U : UnicodeData) (s : ustring) :
  ucd_sound U ->
  normalize_player_name_key U (normalize_player_name_key U s)
  = ustrip U (normalize_player_name_key U s).
Proof.
  intros Hsound.
  apply normalize_key_of_tidy; [apply key_points, Hsound | apply key_single_spaced].
Qed.

Lemma normalize_player_name_key_twice_witness :
  normalize_player_name_key ucd_latin
    (normalize_player_name_key ucd_latin
       (ustr "-Dant" ++ [0xE9%N] ++ ustr " Exum")%list)
  = ustrip ucd_latin
      (normalize_player_name_key ucd_latin
         (ustr "-Dant" ++ [0xE9%N] ++ ustr " Exum")%list).
Proof.
  apply (normalize_player_name_key_twice ucd_latin). exact ucd_latin_sound.
Defined.

(** C10 fails as stated: the key of "-a" is " a", whose key is "a". *)
Lemma normalize_player_name_key_not_idempotent :
  normalize_player_name_key ucd_latin (ustr "-a") = ustr " a"
  /\ normalize_player_name_key ucd_latin (ustr " a") = ustr "a"
  /\ normalize_player_name_key ucd_latin
       (normalize_player_name_key ucd_latin (ustr "-a"))
     <> normalize_player_name_key ucd_latin (ustr "-a").
Proof. vm_compute. repeat split; discriminate. Qed.

(** ** Time stamps in file names *)

Section TimeStampFacts.

Import PyStr.

Lemma py_int_digits (s : string) :
  nonempty s = true -> all_chars is_digit s = true ->
  py_int s = Returns (digits_value 0 s).
Proof. intros Hn Hd. unfold py_int. rewrite Hn, Hd. reflexivity. Qed.

Lemma all_chars_take (p : ascii -> bool) (n : nat) (s : string) :
  all_chars p s = true -> all_chars p (take n s) = true.
Proof.
  revert n. induction s as [|c s IH]; intros [|n]; simpl; auto.
  rewrite !andb_true_iff. intros [Hc Hs]. auto.
Qed.

Lemma all_chars_drop (p : ascii -> bool) (n : nat) (s : string) :
  all_chars p s = true -> all_chars p (drop n s) = true.
Proof.
  revert n. induction s as [|c s IH]; intros [|n]; simpl; auto.
  rewrite !andb_true_iff. intros [Hc Hs]. auto.
Qed.

Lemma nonempty_take (n : nat) (s : string) :
  (0 < n)%nat -> nonempty s = true -> nonempty (take n s) = true.
Proof. destruct n, s; simpl; auto; lia. Qed.

Lemma nonempty_drop (n : nat) (s : string) :
  (n < String.length s)%nat -> nonempty (drop n s) = true.
Proof.
  revert n. induction s as [|c s IH]; intros [|n]; simpl; try lia; auto.
  intros H. apply IH. lia.
Qed.

Lemma digits_are_digits (s : string) :
  all_chars is_digit (filter_chars is_digit s) = true.
Proof.
  apply all_chars_filter with (p := fun _ => true); [auto | apply all_chars_true].
Qed.

(** The clock fields are read without an exception, and are the ones the
    text spells. *)
Lemma clock_fields_read (raw : string) :
  let digits := filter_chars is_digit raw in
  nonempty digits = true ->
  (if (String.length digits <=? 2)%nat
   then h ← py_int digits; Returns (h, 0)
   else h ← py_int (all_but_last2 digits);
        mi ← py_int (last2 digits);
        Returns (h, mi))
  = Returns (extracted_hour raw, extracted_minute raw).
Proof.
  intros digits Hn. unfold extracted_hour, extracted_minute. fold digits.
  pose proof (digits_are_digits raw) as Hd. fold digits in Hd.
  destruct (String.length digits <=? 2)%nat eqn:Hlen.
  - rewrite py_int_digits by assumption. reflexivity.
  - apply Nat.leb_gt in Hlen.
    unfold all_but_last2, last2.
    rewrite (py_int_digits (take (String.length digits - 2) digits)).
    2:{ apply nonempty_take; [lia | exact Hn]. }
    2:{ apply all_chars_take, Hd. }
    cbn [mbind outcome_bind].
    rewrite (py_int_digits (drop (String.length digits - 2) digits)).
    2:{ apply nonempty_drop. lia. }
    2:{ apply all_chars_drop, Hd. }
    reflexivity.
Qed.

Lemma empty_digits_hour (raw : string) :
  nonempty (filter_chars is_digit raw) = false -> extracted_hour raw = 0.
Proof.
  unfold extracted_hour. destruct (filter_chars is_digit raw); [reflexivity|].
  discriminate.
Qed.

Lemma to_24h_range (h : Z) (mer : string) :
  1 <= h <= 12 -> 0 <= to_24h h mer <= 23.
Proof.
  intros Hh. unfold to_24h.
  destruct (String.eqb mer "PM"); destruct (h <? 12) eqn:H12; simpl;
    [apply Z.ltb_lt in H12 | apply Z.ltb_ge in H12
    | apply Z.ltb_lt in H12 | apply Z.ltb_ge in H12 ];
    destruct (String.eqb mer "AM"); simpl;
    repeat match goal with
           | |- context [?a =? ?b] => destruct (Z.eqb_spec a b)
           end; lia.
Qed.

Lemma strptime_valid (d : string) (h mi : Z) :
  0 <= h <= 23 -> 0 <= mi <= 59 ->
  strptime d h mi
  = if valid_date d then Returns (datetime_of d h mi) else Raises ValueError.
Proof.
  intros Hh Hm. unfold strptime, datetime_of.
  destruct (valid_date d); simpl; [|reflexivity].
  destruct (Z.leb_spec 0 h); [|lia]. destruct (Z.leb_spec h 23); [|lia].
  destruct (Z.leb_spec 0 mi); [|lia]. destruct (Z.leb_spec mi 59); [|lia].
  reflexivity.
Qed.

(** What [parse_pdf_time_parts] returns, in terms of the match. *)
Lemma parse_pdf_time_parts_spec (url : string) :
  parse_pdf_time_parts url
  = Returns
      match Re.search true time_parts_regex (last_segment url) with
      | None => None
      | Some m =>
          let raw := Re.group 2 (Re.m_groups m) in
          let h := extracted_hour raw in
          let mi := extracted_minute raw in
          if (h <? 1) || (h >? 12) || (mi <? 0) || (mi >? 59) then None
          else Some (Re.group 1 (Re.m_groups m), h, mi,
                     upper (Re.group 3 (Re.m_groups m)))
      end.
Proof.
  unfold parse_pdf_time_parts.
  destruct (Re.search true time_parts_regex (last_segment url)) as [m|];
    [|reflexivity].
  cbv zeta.
  destruct (nonempty (filter_chars is_digit (Re.group 2 (Re.m_groups m))))
    eqn:Hn; cbn [negb].
  - rewrite clock_fields_read by exact Hn. cbn [mbind outcome_bind].
    destruct (_ || _); reflexivity.
  - rewrite (empty_digits_hour _ Hn). reflexivity.
Qed.

(** The conversion of a reading to an instant raises nothing but
    [ValueError]. *)
Lemma local_raises (utcoffset : Z -> Z) (u : Z) (e : exn) :
  local utcoffset u = Raises e -> e = ValueError.
Proof. unfold local. destruct (in_years _); congruence. Qed.

Lemma mktime_raises (utcoffset : Z -> Z) (t : Z) (e : exn) :
  mktime utcoffset t = Raises e -> e = ValueError.
Proof.
  unfold mktime.
  destruct (local utcoffset t) as [lt|e1] eqn:E1; cbn [mbind outcome_bind].
  2:{ intros [= <-]. exact (local_raises _ _ _ E1). }
  destruct (local utcoffset (t - (lt - t))) as [t1|e2] eqn:E2;
    cbn [mbind outcome_bind].
  2:{ intros [= <-]. exact (local_raises _ _ _ E2). }
  destruct (t1 =? t).
  - destruct (local utcoffset (t - (lt - t) - max_fold_seconds)) as [lt2|e3] eqn:E3;
      cbn [mbind outcome_bind].
    2:{ intros [= <-]. exact (local_raises _ _ _ E3). }
    destruct (_ =? _); [discriminate|].
    match goal with
    | |- context [local utcoffset ?u ≫= _] =>
        destruct (local utcoffset u) as [t2|e4] eqn:E4
    end; cbn [mbind outcome_bind].
    2:{ intros [= <-]. exact (local_raises _ _ _ E4). }
    destruct (t2 =? t); discriminate.
  - cbn [mbind outcome_bind].
    match goal with
    | |- context [local utcoffset ?u ≫= _] =>
        destruct (local utcoffset u) as [t2|e4] eqn:E4
    end; cbn [mbind outcome_bind].
    2:{ intros [= <-]. exact (local_raises _ _ _ E4). }
    destruct (t2 =? t); discriminate.
Qed.

Lemma local_in_years (utcoffset : Z -> Z) (u : Z) :
  MIN_READING <= u + utcoffset u <= MAX_READING ->
  local utcoffset u = Returns (u + utcoffset u).
Proof.
  intros H. unfold local, in_years.
  destruct (Z.leb_spec MIN_READING (u + utcoffset u)); [|lia].
  destruct (Z.leb_spec (u + utcoffset u) MAX_READING); [|lia].
  reflexivity.
Qed.

(** Three days inside the years 1 to 9999, and in a zone whose offsets
    are under a day, the conversion returns an instant within a day of
    the reading. *)
Lemma mktime_inland (utcoffset : Z -> Z) (t : Z) :
  (forall u, -86400 < utcoffset u < 86400) ->
  MIN_READING + 3 * 86400 <= t <= MAX_READING - 3 * 86400 ->
  exists v, mktime utcoffset t = Returns v /\ t - 86400 < v < t + 86400.
Proof.
  intros Hzone Ht. unfold mktime, max_fold_seconds.
  pose proof (Hzone t) as Ha.
  rewrite (local_in_years utcoffset t) by lia.
  cbn [mbind outcome_bind].
  set (u1 := t - (t + utcoffset t - t)).
  assert (E1 : u1 = t - utcoffset t) by (unfold u1; lia). clearbody u1.
  pose proof (Hzone u1) as H1.
  rewrite (local_in_years utcoffset u1) by lia.
  cbn [mbind outcome_bind].
  destruct (u1 + utcoffset u1 =? t) eqn:Ht1.
  - pose proof (Hzone (u1 - 24 * 3600)) as H2.
    rewrite (local_in_years utcoffset (u1 - 24 * 3600)) by lia.
    cbn [mbind outcome_bind].
    destruct (t + utcoffset t - t =? _);
      [exists u1; split; [reflexivity | lia]|].
    set (u2 := t - _).
    assert (E2 : u2 = t - utcoffset (u1 - 24 * 3600)) by (unfold u2; lia).
    clearbody u2. pose proof (Hzone u2) as H3.
    rewrite (local_in_years utcoffset u2) by lia.
    cbn [mbind outcome_bind].
    destruct (u2 + utcoffset u2 =? t); [exists u2 | exists u1]; (split; [reflexivity | lia]).
  - cbn [mbind outcome_bind].
    set (u2 := t - _).
    assert (E2 : u2 = t - utcoffset u1) by (unfold u2; lia).
    clearbody u2. pose proof (Hzone u2) as H3.
    rewrite (local_in_years utcoffset u2) by lia.
    cbn [mbind outcome_bind].
    destruct (u2 + utcoffset u2 =? t); [exists u2; split; [reflexivity | lia]|].
    exists (Z.max u1 u2). split; [reflexivity | lia].
Qed.

(** A [try] that catches [ValueError] around a call that raises nothing
    else: its value is that of the call, or zero. *)
Lemma caught_value_error (f : datetime -> outcome Z) (dt : datetime) :
  (forall e, f dt = Raises e -> e = ValueError) ->
  exists v : Z,
    match (dt' ← Returns dt; f dt') with
    | Returns epoch => Returns epoch
    | Raises ValueError => Returns 0
    | Raises e => Raises e
    end = Returns v
    /\ match f dt with
       | Returns epoch => v = epoch
       | Raises e => e = ValueError /\ v = 0
       end.
Proof.
  intros Hf. cbn [mbind outcome_bind].
  destruct (f dt) as [epoch|e].
  - exists epoch. split; reflexivity.
  - rewrite (Hf e eq_refl). exists 0. repeat split.
Qed.

Lemma caught_timestamp (utcoffset : Z -> Z) (dt : datetime) :
  exists v : Z,
    match (dt' ← Returns dt; timestamp utcoffset dt') with
    | Returns epoch => Returns epoch
    | Raises ValueError => Returns 0
    | Raises e => Raises e
    end = Returns v
    /\ match timestamp utcoffset dt with
       | Returns epoch => v = epoch
       | Raises e => e = ValueError /\ v = 0
       end.
Proof.
  apply (caught_value_error (timestamp utcoffset) dt).
  intros e. apply mktime_raises.
Qed.

(** C7, as the code has it.  [parse_pdf_datetime] never raises.  It
    returns the zero sentinel when the file name does not match the
    pattern, when the hour its digits spell is outside 1-12 or the minute
    outside 0-59, when the date is not a date of the calendar, and when
    the conversion of the reading to an instant raises (its [ValueError]
    is caught like that of the parser); otherwise it returns the epoch
    value of the date at the 24-hour reading of hour, minute and
    meridiem. *)
Theorem parse_pdf_datetime_never_raises (utcoffset : Z -> Z) (url : string) :
  exists v : Z,
    parse_pdf_datetime utcoffset url = Returns v
    /\ match Re.search true time_parts_regex (last_segment url) with
       | None => v = 0
       | Some m =>
           let date_str := Re.group 1 (Re.m_groups m) in
           let raw := Re.group 2 (Re.m_groups m) in
           let meridiem := upper (Re.group 3 (Re.m_groups m)) in
           let h := extracted_hour raw in
           let mi := extracted_minute raw in
           if (h <? 1) || (h >? 12) || (mi <? 0) || (mi >? 59) then v = 0
           else if valid_date date_str
           then match timestamp utcoffset
                        (datetime_of date_str (to_24h h meridiem) mi) with
                | Returns epoch => v = epoch
                | Raises e => e = ValueError /\ v = 0
                end
           else v = 0
       end.
Proof.
  unfold parse_pdf_datetime. rewrite parse_pdf_time_parts_spec.
  cbn [mbind outcome_bind].
  destruct (Re.search true time_parts_regex (last_segment url)) as [m|].
  2:{ exists 0. split; reflexivity. }
  cbv zeta.
  set (raw := Re.group 2 (Re.m_groups m)).
  set (h := extracted_hour raw). set (mi := extracted_minute raw).
  destruct ((h <? 1) || (h >? 12) || (mi <? 0) || (mi >? 59)) eqn:Hrange.
  { exists 0. split; reflexivity. }
  apply orb_false_iff in Hrange as [Hrange Hm2].
  apply orb_false_iff in Hrange as [Hrange Hm1].
  apply orb_false_iff in Hrange as [Hh1 Hh2].
  apply Z.ltb_ge in Hh1, Hm1. rewrite Z.gtb_ltb in Hh2, Hm2.
  apply Z.ltb_ge in Hh2, Hm2.
  rewrite strptime_valid by (try apply to_24h_range; lia).
  destruct (valid_date _).
  - apply caught_timestamp.
  - exists 0. split; reflexivity.
Qed.

(** C7 fails as stated: this name matches the pattern and spells 3:45,
    yet the result is the zero sentinel, month 13 being no month. *)
Lemma parse_pdf_datetime_month_13 :
  parse_pdf_time_parts "https://example.com/Injury-Report_2026-13-08_03-45AM.pdf"
  = Returns (Some ("2026-13-08", 3, 45, "AM"))
  /\ parse_pdf_datetime (fun _ => 0)
       "https://example.com/Injury-Report_2026-13-08_03-45AM.pdf"
     = Returns 0
  /\ strptime "2026-13-08" (to_24h 3 "AM") 45 = Raises ValueError.
Proof. vm_compute. repeat split; reflexivity. Qed.

(** A reading of the first day of year 1 is a date of the calendar, yet
    in a zone of any fixed offset its conversion looks a day back, into
    year 0, and raises: the result is the zero sentinel. *)
Lemma parse_pdf_datetime_year_1 (offset : Z) :
  parse_pdf_datetime (fun _ => offset)
    "https://example.com/Injury-Report_0001-01-01_03-45AM.pdf"
  = Returns 0.
Proof.
  assert (Hparts : parse_pdf_time_parts
                     "https://example.com/Injury-Report_0001-01-01_03-45AM.pdf"
                   = Returns (Some ("0001-01-01", 3, 45, "AM")))
    by (vm_compute; reflexivity).
  unfold parse_pdf_datetime. rewrite Hparts.
  cbn [mbind outcome_bind].
  change (strptime _ _ _) with (Returns (Datetime 1 1 1 3 45)).
  cbn [mbind outcome_bind]. unfold timestamp.
  change (wall_seconds (Datetime 1 1 1 3 45)) with (-62135583300).
  unfold mktime, local, in_years, max_fold_seconds, MIN_READING, MAX_READING.
  destruct (Z.leb_spec (-62135596800) (-62135583300 + offset));
    [|reflexivity].
  destruct (Z.leb_spec (-62135583300 + offset) 253402300799);
    [|reflexivity].
  cbn [andb mbind outcome_bind].
  replace (-62135583300 - (-62135583300 + offset - -62135583300) + offset)
    with (-62135583300) by lia.
  cbn [Z.leb Z.compare Pos.compare Pos.compare_cont andb].
  change (-62135596800 <=? -62135583300) with true.
  change (-62135583300 <=? 253402300799) with true.
  cbn [andb mbind outcome_bind].
  rewrite Z.eqb_refl.
  replace (-62135583300 - (-62135583300 + offset - -62135583300) - 24 * 3600 + offset)
    with (-62135669700) by lia.
  reflexivity.
Qed.

(** A file name that begins with the stamp of 8 February 2026, 03:45 AM:
    the leftmost match is at its first character whatever follows. *)
Lemma stamp_0345_parts (url ext : string) :
  last_segment url = "Injury-Report_2026-02-08_03-45AM." ++ ext ->
  parse_pdf_time_parts url = Returns (Some ("2026-02-08", 3, 45, "AM")).
Proof.
  intros Hname. rewrite parse_pdf_time_parts_spec, Hname. reflexivity.
Qed.

(** C6, as the code has it.  For a URL whose file name is
    Injury-Report_2026-02-08_03-45AM followed by an extension, the label
    is "03:45 AM ET" and the epoch value is positive, in every time zone
    (offsets being less than a day). *)
Theorem injury_report_0345_label_and_epoch (utcoffset : Z -> Z)
    (url ext : string) :
  (forall t, -86400 < utcoffset t < 86400) ->
  last_segment url = "Injury-Report_2026-02-08_03-45AM." ++ ext ->
  parse_pdf_time_label url = Returns "03:45 AM ET"
  /\ exists epoch,
       parse_pdf_datetime utcoffset url = Returns epoch /\ 0 < epoch.
Proof.
  intros Hzone Hname. split.
  - unfold parse_pdf_time_label. rewrite (stamp_0345_parts url ext Hname).
    reflexivity.
  - unfold parse_pdf_datetime. rewrite (stamp_0345_parts url ext Hname).
    cbn [mbind outcome_bind].
    change (strptime "2026-02-08" (to_24h 3 "AM") 45)
      with (Returns (Datetime 2026 2 8 3 45)).
    cbn [mbind outcome_bind]. unfold timestamp.
    change (wall_seconds (Datetime 2026 2 8 3 45)) with 1770522300.
    destruct (mktime_inland utcoffset 1770522300 Hzone) as (v & Hv & Hnear).
    { unfold MIN_READING, MAX_READING. lia. }
    rewrite Hv. exists v. split; [reflexivity | lia].
Qed.

Lemma injury_report_0345_label_and_epoch_witness :
  parse_pdf_time_label
    "https://ak-static.cms.nba.com/referee/injury/Injury-Report_2026-02-08_03-45AM.pdf"
  = Returns "03:45 AM ET"
  /\ exists epoch,
       parse_pdf_datetime (fun _ => -18000)
         "https://ak-static.cms.nba.com/referee/injury/Injury-Report_2026-02-08_03-45AM.pdf"
       = Returns epoch /\ 0 < epoch.
Proof.
  apply (injury_report_0345_label_and_epoch (fun _ => -18000)
           "https://ak-static.cms.nba.com/referee/injury/Injury-Report_2026-02-08_03-45AM.pdf"
           "pdf").
  - intros t. lia.
  - reflexivity.
Defined.

(** C6 fails as stated: a file name that starts at "Report_" is not
    matched, so the label is empty and the epoch value is the sentinel. *)
Lemma bare_report_name_not_parsed :
  parse_pdf_time_label "https://example.com/Report_2026-02-08_03-45AM.pdf"
  = Returns ""
  /\ parse_pdf_datetime (fun _ => 0)
       "https://example.com/Report_2026-02-08_03-45AM.pdf"
     = Returns 0.
Proof. vm_compute. split; reflexivity. Qed.

End TimeStampFacts.

(** ** The deduplicator *)

Section DedupFacts.

Local Open Scope list_scope.

Lemma dkey_eqb_eq (a b : dkey) : dkey_eqb a b = true <-> a = b.
Proof.
  destruct a as [[a1 a2] a3], b as [[b1 b2] b3]. unfold dkey_eqb. simpl.
  rewrite !andb_true_iff, !String.eqb_eq. split.
  - intros [[-> ->] ->]. reflexivity.
  - intros H. inversion H. auto.
Qed.

Lemma dkey_eqb_refl (a : dkey) : dkey_eqb a a = true.
Proof. apply dkey_eqb_eq. reflexivity. Qed.

Lemma dict_keys_app (u v : unique_dict) :
  dict_keys (u ++ v) = dict_keys u ++ dict_keys v.
Proof. unfold dict_keys. apply omap_app. Qed.

Lemma unique_get_none (k : dkey) (u : unique_dict) :
  unique_get k u = None <-> k ∉ dict_keys u.
Proof.
  induction u as [|[[k'|] r] u IH]; simpl.
  - split; [intros _; apply not_elem_of_nil | reflexivity].
  - unfold dict_keys in *. simpl. rewrite not_elem_of_cons.
    destruct (dkey_eqb k k') eqn:E.
    + apply dkey_eqb_eq in E. split; [discriminate | intros [H _]; contradiction].
    + rewrite IH. split; [|tauto]. intros H. split; [|exact H].
      intros ->. rewrite dkey_eqb_refl in E. discriminate.
  - exact IH.
Qed.

Lemma unique_get_some (k : dkey) (u : unique_dict) (r : Row) :
  Forall entry_ok u -> unique_get k u = Some r ->
  row_key r = k /\ keyless k = false.
Proof.
  induction u as [|[[k'|] r'] u IH]; simpl; intros Hok Hget.
  - discriminate.
  - apply Forall_cons in Hok as [He Hu].
    destruct (dkey_eqb k k') eqn:E.
    + apply dkey_eqb_eq in E. subst k'. inversion Hget; subst r'.
      unfold entry_ok, own_entry in He. simpl in He.
      destruct (keyless (row_key r)) eqn:Hkl; [discriminate|].
      inversion He as [Hk]. split; congruence.
    + auto.
  - apply Forall_cons in Hok as [He Hu]. auto.
Qed.

Lemma dict_keys_set (k : dkey) (v : Row) (u : unique_dict) :
  dict_keys (unique_set k v u) = dict_keys u.
Proof.
  unfold dict_keys.
  induction u as [|[[k'|] r] u IH]; simpl; [reflexivity| |exact IH].
  destruct (dkey_eqb k k'); simpl; [reflexivity|]. f_equal. exact IH.
Qed.

Lemma entry_ok_set (k : dkey) (v : Row) (u : unique_dict) :
  row_key v = k -> keyless k = false ->
  Forall entry_ok u -> Forall entry_ok (unique_set k v u).
Proof.
  intros Hv Hk. induction u as [|[[k'|] r] u IH]; simpl; intros Hok.
  - constructor.
  - apply Forall_cons in Hok as [He Hu]. destruct (dkey_eqb k k') eqn:E.
    + apply dkey_eqb_eq in E. subst k'. constructor; [|assumption].
      unfold entry_ok, own_entry. simpl. rewrite Hv, Hk. reflexivity.
    + constructor; auto.
  - apply Forall_cons in Hok as [He Hu]. constructor; auto.
Qed.

(** Merging keeps the kept record under its key. *)
Lemma row_key_merge_reason (row existing : Row) :
  row_key (merge_reason row existing) = row_key existing.
Proof. unfold merge_reason. destruct (_ && _); reflexivity. Qed.

Lemma row_key_set_gameTime (v : string) (r : Row) :
  PyStr.strip v = snd (row_key r) -> row_key (set_gameTime v r) = row_key r.
Proof. unfold row_key. simpl. intros ->. reflexivity. Qed.

Lemma row_key_set_team (v : string) (r : Row) :
  PyStr.upper (PyStr.strip v) = fst (fst (row_key r)) ->
  row_key (set_team v r) = row_key r.
Proof. unfold row_key. simpl. intros ->. reflexivity. Qed.

Lemma row_key_backfill (row existing : Row) :
  row_key row = row_key existing ->
  row_key (backfill row existing) = row_key existing.
Proof.
  intros Hk. unfold backfill. cbv zeta.
  match goal with
  | |- context [if ?c then set_status ?v existing else existing] =>
      set (e1 := if c then set_status v existing else existing)
  end.
  assert (H1 : row_key e1 = row_key existing)
    by (subst e1; destruct (_ && _); reflexivity).
  clearbody e1.
  match goal with
  | |- context [if ?c then set_matchup ?v e1 else e1] =>
      set (e2 := if c then set_matchup v e1 else e1)
  end.
  assert (H2 : row_key e2 = row_key existing)
    by (subst e2; destruct (_ && _); exact H1).
  clearbody e2.
  match goal with
  | |- context [if ?c then set_gameTime ?v e2 else e2] =>
      set (e3 := if c then set_gameTime v e2 else e2)
  end.
  assert (H3 : row_key e3 = row_key existing).
  { subst e3. destruct (_ && _); [|exact H2].
    rewrite row_key_set_gameTime; [exact H2|].
    rewrite H2, <- Hk. reflexivity. }
  clearbody e3.
  destruct (_ && _); [|exact H3].
  rewrite row_key_set_team; [exact H3|].
  rewrite H3, <- Hk. reflexivity.
Qed.

Lemma dedup_step_inv (u : unique_dict) (row : Row) :
  dict_inv u -> dict_inv (dedup_step u row).
Proof.
  intros [Hok Hnd]. unfold dedup_step.
  destruct (keyless (row_key row)) eqn:Hkl.
  - split.
    + apply Forall_app. split; [exact Hok|]. constructor; [|constructor].
      unfold entry_ok, own_entry. simpl. rewrite Hkl. reflexivity.
    + rewrite dict_keys_app. unfold dict_keys at 2. simpl.
      rewrite app_nil_r. exact Hnd.
  - destruct (unique_get (row_key row) u) as [existing|] eqn:Hget.
    + destruct (noisy_reason row); [split; assumption|].
      destruct (unique_get_some _ _ _ Hok Hget) as [Hke _].
      split.
      * apply entry_ok_set; [|exact Hkl|exact Hok].
        rewrite row_key_backfill; rewrite row_key_merge_reason; congruence.
      * rewrite dict_keys_set. exact Hnd.
    + apply unique_get_none in Hget. split.
      * apply Forall_app. split; [exact Hok|]. constructor; [|constructor].
        unfold entry_ok, own_entry. simpl. rewrite Hkl. reflexivity.
      * rewrite dict_keys_app. unfold dict_keys at 2. simpl.
        apply NoDup_app. split; [exact Hnd|]. split.
        -- intros x Hx Hx'. apply list_elem_of_singleton in Hx'. subst x.
           contradiction.
        -- apply NoDup_singleton.
Qed.

Lemma dedup_fold_inv (rs : list Row) (u : unique_dict) :
  dict_inv u -> dict_inv (fold_left dedup_step rs u).
Proof.
  revert u. induction rs as [|r rs IH]; intros u Hu; simpl; [exact Hu|].
  apply IH, dedup_step_inv, Hu.
Qed.

(** Rows whose keys are new and distinct are stored one by one. *)
Lemma dedup_fold_fresh (rs : list Row) (u : unique_dict) :
  NoDup (dict_keys u ++ keyed_keys rs) ->
  fold_left dedup_step rs u = (u ++ map own_entry rs)%list.
Proof.
  revert u. induction rs as [|r rs IH]; intros u Hnd; simpl.
  - rewrite app_nil_r. reflexivity.
  - assert (Hstep : dedup_step u r = (u ++ [own_entry r])%list).
    { unfold dedup_step, own_entry.
      destruct (keyless (row_key r)) eqn:Hkl; [reflexivity|].
      assert (Hfresh : unique_get (row_key r) u = None).
      { apply unique_get_none. intros Hin.
        apply NoDup_app in Hnd as (_ & Hdis & _).
        apply (Hdis _ Hin). unfold keyed_keys, dict_keys, own_entry. simpl.
        rewrite Hkl. simpl. apply list_elem_of_here. }
      rewrite Hfresh. reflexivity. }
    rewrite Hstep, IH.
    + rewrite <- app_assoc. reflexivity.
    + rewrite dict_keys_app, <- app_assoc.
      change (keyed_keys (r :: rs))
        with (dict_keys ([own_entry r] ++ map own_entry rs)) in Hnd.
      rewrite dict_keys_app in Hnd. exact Hnd.
Qed.

Lemma entries_of_ok (u : unique_dict) :
  Forall entry_ok u -> map own_entry (map snd u) = u.
Proof.
  induction 1 as [|e u He Hu IH]; simpl; [reflexivity|].
  rewrite IH. f_equal. symmetry. exact He.
Qed.

(** Sorting. *)
Lemma sort_key_le_total (a b : Row) :
  sort_key_le a b = false -> sort_key_le b a = true.
Proof.
  unfold sort_key_le. intros H.
  apply orb_false_iff in H as [H1 H2]. apply Z.ltb_ge in H1.
  apply andb_false_iff in H2.
  destruct (Z.ltb_spec (page b) (page a)); [reflexivity|]. simpl.
  assert (E : page a = page b) by lia.
  destruct H2 as [H2|H2].
  - apply Z.eqb_neq in H2. contradiction.
  - apply Z.leb_gt in H2. apply andb_true_iff. split.
    + apply Z.eqb_eq. auto.
    + apply Z.leb_le. lia.
Qed.

Lemma insert_sorted_sorted (x : Row) (l : list Row) :
  rows_sorted l -> rows_sorted (insert_sorted x l).
Proof.
  induction l as [|y l IH]; simpl; [auto|].
  intros [Hy Hl]. destruct (sort_key_le x y) eqn:E.
  - simpl. auto.
  - specialize (IH Hl). apply sort_key_le_total in E.
    destruct l as [|z l]; simpl in *; [auto|].
    destruct (sort_key_le x z); simpl in *; auto.
Qed.

Lemma sort_rows_sorted (l : list Row) : rows_sorted (sort_rows l).
Proof.
  induction l as [|x l IH]; simpl; [exact I|]. apply insert_sorted_sorted, IH.
Qed.

Lemma sort_rows_of_sorted (l : list Row) : rows_sorted l -> sort_rows l = l.
Proof.
  induction l as [|x l IH]; simpl; [reflexivity|].
  intros [Hx Hl]. rewrite (IH Hl). destruct l as [|y l]; simpl; [reflexivity|].
  rewrite Hx. reflexivity.
Qed.

Lemma insert_sorted_perm (x : Row) (l : list Row) :
  Permutation (insert_sorted x l) (x :: l).
Proof.
  induction l as [|y l IH]; simpl; [reflexivity|].
  destruct (sort_key_le x y); [reflexivity|].
  rewrite IH. apply perm_swap.
Qed.

Lemma sort_rows_perm (l : list Row) : Permutation (sort_rows l) l.
Proof.
  induction l as [|x l IH]; simpl; [reflexivity|].
  rewrite insert_sorted_perm, IH. reflexivity.
Qed.

Lemma keyed_keys_perm (l l' : list Row) :
  Permutation l l' -> Permutation (keyed_keys l) (keyed_keys l').
Proof.
  intros H. unfold keyed_keys, dict_keys.
  apply omap_Permutation, Permutation_map, H.
Qed.

(** A list of rows that is sorted and in which the keyed rows have
    distinct keys is left as it is. *)
Lemma deduplicate_rows_fixed (l : list Row) :
  rows_sorted l -> NoDup (keyed_keys l) -> deduplicate_rows l = l.
Proof.
  intros Hs Hnd. unfold deduplicate_rows. destruct l as [|x l]; [reflexivity|].
  rewrite dedup_fold_fresh by exact Hnd.
  rewrite app_nil_l, map_map. simpl map at 1.
  rewrite (map_ext _ id) by reflexivity. rewrite map_id.
  apply sort_rows_of_sorted, Hs.
Qed.

Lemma deduplicate_rows_sorted (rs : list Row) :
  rows_sorted (deduplicate_rows rs).
Proof.
  unfold deduplicate_rows. destruct rs; [exact I | apply sort_rows_sorted].
Qed.

Lemma deduplicate_rows_keys (rs : list Row) :
  NoDup (keyed_keys (deduplicate_rows rs)).
Proof.
  unfold deduplicate_rows. destruct rs as [|r rs]; [apply NoDup_nil_2|].
  set (u := fold_left dedup_step (r :: rs) []).
  assert (Hinv : dict_inv u).
  { apply dedup_fold_inv. split; [constructor | apply NoDup_nil_2]. }
  destruct Hinv as [Hok Hnd].
  rewrite (keyed_keys_perm _ _ (sort_rows_perm (map snd u))).
  unfold keyed_keys. rewrite entries_of_ok by exact Hok. exact Hnd.
Qed.

(** C5. Deduplicating the output of the deduplicator returns it as it is:
    the same rows, with the same fields, in the same order. *)
Theorem deduplicate_rows_idempotent (rs : list Row) :
  deduplicate_rows (deduplicate_rows rs) = deduplicate_rows rs.
Proof.
  apply deduplicate_rows_fixed;
    [apply deduplicate_rows_sorted | apply deduplicate_rows_keys].
Qed.

Lemma unique_get_set (k : dkey) (v e : Row) (u : unique_dict) :
  unique_get k u = Some e -> unique_get k (unique_set k v u) = Some v.
Proof.
  induction u as [|[[k'|] r] u IH]; simpl; [discriminate| |exact IH].
  destruct (dkey_eqb k k') eqn:E; simpl; rewrite E; auto.
Qed.

Lemma backfill_fields (row e : Row) :
  status (backfill row e) = PyStr.or_else (status e) (status row)
  /\ matchup (backfill row e) = PyStr.or_else (matchup e) (matchup row)
  /\ gameTime (backfill row e) = PyStr.or_else (gameTime e) (gameTime row)
  /\ team (backfill row e) = PyStr.or_else (team e) (team row)
  /\ reason (backfill row e) = reason e
  /\ player (backfill row e) = player e
  /\ page (backfill row e) = page e
  /\ rowIndex (backfill row e) = rowIndex e.
Proof.
  destruct row as [gt m t p s r pg ri gd], e as [gt' m' t' p' s' r' pg' ri' gd'].
  unfold backfill, PyStr.or_else. simpl.
  destruct s', s, m', m, gt', gt, t', t; simpl; repeat split; reflexivity.
Qed.

(** C4, as the code has it.  When the incoming row has a key and a kept
    row is stored under it: an incoming reason that matches the noise
    pattern makes the whole incoming row be dropped, the kept row staying
    as it is, with no back-fill; otherwise the kept row gets the two
    stripped reasons joined by a space when the incoming one is not empty
    and not a substring of the kept one, and each of status, matchup,
    gameTime and team that is empty on it is filled from the incoming
    row. *)
Theorem dedup_merge_rule (u : unique_dict) (row existing : Row) :
  keyless (row_key row) = false ->
  unique_get (row_key row) u = Some existing ->
  if noisy_reason row
  then dedup_step u row = u
  else exists kept,
    dedup_step u row = unique_set (row_key row) kept u
    /\ unique_get (row_key row) (dedup_step u row) = Some kept
    /\ reason kept
       = (let existing_reason := PyStr.strip (reason existing) in
          let new_reason := PyStr.strip (reason row) in
          if PyStr.nonempty new_reason
             && negb (PyStr.contains new_reason existing_reason)
          then PyStr.strip (existing_reason ++ " " ++ new_reason)%string
          else reason existing)
    /\ status kept = PyStr.or_else (status existing) (status row)
    /\ matchup kept = PyStr.or_else (matchup existing) (matchup row)
    /\ gameTime kept = PyStr.or_else (gameTime existing) (gameTime row)
    /\ team kept = PyStr.or_else (team existing) (team row)
    /\ player kept = player existing
    /\ page kept = page existing
    /\ rowIndex kept = rowIndex existing.
Proof.
  intros Hkl Hget. unfold dedup_step. rewrite Hkl, Hget.
  destruct (noisy_reason row); [reflexivity|].
  exists (backfill row (merge_reason row existing)).
  split; [reflexivity|]. split; [eapply unique_get_set, Hget|].
  destruct (backfill_fields row (merge_reason row existing))
    as (Hs & Hm & Hg & Ht & Hr & Hp & Hpg & Hri).
  rewrite Hs, Hm, Hg, Ht, Hr, Hp, Hpg, Hri.
  unfold merge_reason. cbv zeta.
  destruct (_ && _); repeat split; reflexivity.
Qed.

Lemma dedup_merge_rule_witness :
  exists kept,
    dedup_step [(Some (row_key doe_first), doe_first)] doe_clean
    = unique_set (row_key doe_clean) kept [(Some (row_key doe_first), doe_first)]
    /\ reason kept = "Injury/Illness - Knee Sprain"
    /\ status kept = "Out".
Proof.
  pose proof (dedup_merge_rule [(Some (row_key doe_first), doe_first)]
                doe_clean doe_first eq_refl eq_refl) as H.
  change (noisy_reason doe_clean) with false in H.
  destruct H as (kept & Hstep & _ & Hr & Hs & _).
  exists kept. split; [exact Hstep|]. split; [exact Hr | exact Hs].
Defined.

(** C4 fails as stated: the second row shares the key of the first and
    carries the status the first lacks, but its reason is noise, so the
    row is dropped whole and the status of the kept row stays empty. *)
Lemma noisy_row_does_not_backfill :
  row_key doe_noisy = row_key doe_first
  /\ noisy_reason doe_noisy = true
  /\ status doe_first = ""
  /\ status doe_noisy = "Out"
  /\ deduplicate_rows [doe_first; doe_noisy] = [doe_first].
Proof. vm_compute. repeat split; reflexivity. Qed.

End DedupFacts.

(** ** The matcher *)

Section MatcherFacts.

Local Open Scope nat_scope.
Local Open Scope list_scope.

Lemma advance_pos (n : nat) (k : Re.cursor) :
  Re.pos (Re.advance n k) <= Re.pos k + n.
Proof.
  revert k. induction n as [|n IH]; intros k; simpl; [lia|].
  destruct (Re.rest k); [lia|]. specialize (IH (Re.Cursor (Some a) (S (Re.pos k)) s)).
  simpl in IH. lia.
Qed.

Lemma take_length (n : nat) (s : string) : String.length (PyStr.take n s) <= n.
Proof.
  revert s. induction n as [|n IH]; intros [|c s]; simpl; try lia.
  specialize (IH s). lia.
Qed.

(** A match of an alternation of literals spans one of them. *)
Lemma run_lits_span (ic : bool) (ls : list string) (k k' : Re.cursor)
    (g g' : Re.caps) :
  In (k', g') (Re.run ic (Re.lits ls) k g) ->
  exists l, In l ls /\ k' = Re.advance (String.length l) k /\ g' = g.
Proof.
  unfold Re.lits. induction ls as [|l ls IH]; simpl.
  - destruct (Re.rest k); [intros []|]. destruct ic; intros [].
  - destruct ls as [|l' ls].
    + simpl. destruct (Re.lit_here ic l (Re.rest k)); simpl; [|intros []].
      intros [E|[]]. inversion E. exists l. auto.
    + cbn [map Re.alt Re.run]. rewrite in_app_iff. intros [H|H].
      * destruct (Re.lit_here ic l (Re.rest k)); simpl in H; [|destruct H].
        destruct H as [E|[]]. inversion E. exists l. auto.
      * destruct (IH H) as (x & Hx & E). exists x. split; [right; exact Hx|exact E].
Qed.

Lemma status_token_length (l : string) :
  In l STATUS_TOKENS -> String.length l <= 13.
Proof.
  unfold STATUS_TOKENS. simpl.
  intros [<-|[<-|[<-|[<-|[<-|[<-|[]]]]]]]; simpl; lia.
Qed.

Lemma run_status_pattern_group (k k' : Re.cursor) (g' : Re.caps) :
  In (k', g') (Re.run true status_pattern k []) ->
  String.length (Re.group 1 g') <= 13.
Proof.
  unfold status_pattern. cbn [Re.seq Re.run].
  rewrite in_flat_map. intros ([k1 g1] & H1 & H2).
  assert (E1 : k1 = k /\ g1 = []).
  { destruct (xorb (Re.is_word_opt (Re.prev k)) _); simpl in H1; [|destruct H1].
    destruct H1 as [E|[]]. inversion E. auto. }
  destruct E1 as [-> ->]. cbn [fst snd] in H2.
  rewrite in_flat_map in H2. destruct H2 as ([k2 g2] & H2 & H3).
  rewrite in_map_iff in H2. destruct H2 as ([k3 g3] & E & H2).
  cbn [fst snd] in E. inversion E; subst k2 g2; clear E.
  cbn [fst snd] in H3.
  assert (E3 : g' = (1, PyStr.take (Re.pos k3 - Re.pos k) (Re.rest k)) :: g3).
  { destruct (xorb (Re.is_word_opt (Re.prev k3)) _); simpl in H3; [|destruct H3].
    destruct H3 as [E|[]]. inversion E. reflexivity. }
  subst g'. simpl.
  destruct (run_lits_span _ _ _ _ _ _ H2) as (l & Hl & -> & _).
  pose proof (status_token_length l Hl).
  pose proof (advance_pos (String.length l) k).
  pose proof (take_length (Re.pos (Re.advance (String.length l) k) - Re.pos k)
                          (Re.rest k)).
  lia.
Qed.

Lemma search_from_status_group (p : option ascii) (i : nat) (s : string)
    (m : Re.rmatch) :
  Re.search_from true status_pattern p i s = Some m ->
  String.length (Re.group 1 (Re.m_groups m)) <= 13.
Proof.
  revert p i. induction s as [|c s IH]; intros p i; cbn [Re.search_from];
    unfold Re.first_match.
  - destruct (Re.run true status_pattern (Re.Cursor p i "") []) as [|[k' g'] rs]
      eqn:E; [discriminate|].
    intros H. inversion H. simpl.
    eapply run_status_pattern_group. rewrite E. left. reflexivity.
  - destruct (Re.run true status_pattern (Re.Cursor p i (String c s)) [])
      as [|[k' g'] rs] eqn:E.
    + apply IH.
    + intros H. inversion H. simpl.
      eapply run_status_pattern_group. rewrite E. left. reflexivity.
Qed.

(** The status that [status_pattern] finds is never the marker. *)
Lemma status_group_not_marker (s : string) (m : Re.rmatch) :
  Re.search true status_pattern s = Some m ->
  Re.group 1 (Re.m_groups m) <> NYS_MARKER.
Proof.
  intros H E. apply search_from_status_group in H. rewrite E in H.
  simpl in H. lia.
Qed.

End MatcherFacts.

(** ** The reconciler *)

Section ReconcilerFacts.

Local Open Scope list_scope.

(** *** What the branches leave alone *)

Lemma attach_pending_frame (st : NState) (pk : Z) (ct r1 : string) :
  normalized (fst (attach_pending st pk ct r1)) = normalized st
  /\ context_of (fst (attach_pending st pk ct r1)) = context_of st.
Proof.
  unfold attach_pending.
  destruct (pending_reason_by_page st !! pk); [|auto].
  destruct (_ && _); auto.
Qed.

Lemma attach_carryover_frame (st : NState) (pk : Z) (p1 s1 r1 : string) :
  normalized (fst (attach_carryover st pk p1 s1 r1)) = normalized st
  /\ context_of (fst (attach_carryover st pk p1 s1 r1)) = context_of st.
Proof.
  unfold attach_carryover.
  destruct (carryover_reason_by_page st !! pk); [|auto].
  destruct (_ && _); auto.
Qed.

Lemma finish_reason_frame (st : NState) (pk : Z) (et r1 : string) :
  normalized (fst (finish_reason st pk et r1)) = normalized st
  /\ context_of (fst (finish_reason st pk et r1)) = context_of st.
Proof.
  unfold finish_reason. destruct (PyStr.nonempty r1); [|auto].
  destruct (split_reason_on_prefixes _) as [h sp].
  destruct (_ && _); auto.
Qed.

Lemma context_step_normalized (st : NState) (row : Row) :
  normalized (fst (context_step st row)) = normalized st.
Proof.
  unfold context_step.
  repeat match goal with
         | |- context [let '(_, _) := ?c in _] => destruct c
         end.
  destruct (_ && _); reflexivity.
Qed.

Lemma fragment_step_mends (st : NState) (row : Row) (raw_team : string) :
  mends_last st (fragment_step st row raw_team).
Proof.
  unfold fragment_step, mends_last.
  destruct (_ && _); [|auto].
  destruct (last (normalized st)) as [prev_row|]; [|auto].
  destruct (page prev_row =? page row)%Z; [|auto].
  destruct (_ || _); [|auto].
  split; [reflexivity|]. right. eexists. reflexivity.
Qed.

Lemma continuation_step_mends (st : NState) (row : Row) (r1 ct : string) :
  mends_last st (continuation_step st row r1 ct).
Proof.
  unfold continuation_step, mends_last.
  destruct (looks_like_player_blob (normalize_spaces (reason row))); [auto|].
  destruct (_ || _); [auto|].
  assert (Hhold : forall h : NState,
             h = (if looks_like_reason_continuation (trim_reason_noise r1)
                  then with_pending
                         (<[page row:=trim_reason_noise r1]> (pending_reason_by_page st))
                         (<[page row:=ct]> (pending_team_by_page st)) st
                  else st) ->
             context_of h = context_of st /\
             (normalized h = normalized st \/
              exists v, normalized h = set_last_reason v (normalized st))).
  { intros h ->. destruct (looks_like_reason_continuation _); auto. }
  destruct (last (normalized st)) as [prev_row|]; [|apply Hhold; reflexivity].
  destruct (_ && _); [|apply Hhold; reflexivity].
  destruct (should_append_reason _ _); [|apply Hhold; reflexivity].
  split; [reflexivity|]. right. eexists. reflexivity.
Qed.

(** *** The shape of one turn *)

Lemma sentinel_step_shape (gd : string) (st : NState) (row : Row) :
  marker_row row = true ->
  normalized (sentinel_step gd st row) = normalized st
  \/ exists x, normalized (sentinel_step gd st row) = normalized st ++ [x]
               /\ emitted gd st row x.
Proof.
  intros Hm. unfold sentinel_step. cbv zeta.
  match goal with
  | |- context [with_normalized (normalized ?s1 ++ _) ?s1] =>
      set (st1 := s1);
      assert (H1 : normalized st1 = normalized st)
        by (subst st1; destruct (_ && _); reflexivity);
      clearbody st1
  end.
  destruct (PyStr.nonempty (PyStr.or_else (PyStr.strip (team row))
                                           (opt_or (last_team st) ""))
            && _) eqn:Ht.
  - right. eexists. split; [simpl; rewrite H1; reflexivity|].
    apply andb_true_iff in Ht as [Ht _].
    apply emitted_sentinel; [exact Hm | reflexivity | exact Ht].
  - left. exact H1.
Qed.

Lemma regular_step_shape (gd : string) (st : NState) (row : Row)
    (p2 r1 : string) :
  marker_row row = false ->
  let st' := regular_step gd st row (PyStr.strip (team row)) p2
               (snd (recover_status (player row) (status row))) r1 in
  (normalized st' = normalized st
   \/ exists v, normalized st' = set_last_reason v (normalized st))
  \/ exists x, normalized st' = normalized st ++ [x]
               /\ emitted gd st row x
               /\ context_of st' = context_of (fst (context_step st row)).
Proof.
  intros Hm. cbv zeta. unfold regular_step.
  destruct (_ && _).
  { left. apply fragment_step_mends. }
  pose proof (context_step_normalized st row) as Hn.
  destruct (context_step st row) as [st1 row1] eqn:Hctx. cbn [fst] in Hn.
  destruct (_ && _).
  { left. rewrite <- Hn. apply continuation_step_mends. }
  match goal with
  | |- context [attach_pending st1 ?pk ?ct ?r] =>
      pose proof (attach_pending_frame st1 pk ct r) as [N2 C2];
      destruct (attach_pending st1 pk ct r) as [st2 reason2]
  end.
  match goal with
  | |- context [attach_carryover st2 ?pk ?p ?s ?r] =>
      pose proof (attach_carryover_frame st2 pk p s r) as [N3 C3];
      destruct (attach_carryover st2 pk p s r) as [st3 reason3]
  end.
  match goal with
  | |- context [finish_reason st3 ?pk ?et ?r] =>
      pose proof (finish_reason_frame st3 pk et r) as [N4 C4];
      destruct (finish_reason st3 pk et r) as [st4 reason4]
  end.
  cbn [fst] in *.
  assert (N : normalized st4 = normalized st) by congruence.
  assert (C : context_of st4 = context_of st1) by congruence.
  destruct (_ && _).
  { left. left. exact N. }
  right. eexists. split; [simpl; rewrite N; reflexivity|]. split.
  - replace row1 with (snd (context_step st row)) by (rewrite Hctx; reflexivity).
    apply emitted_regular. exact Hm.
  - exact C.
Qed.

Lemma normalize_step_shape (gd : string) (st : NState) (row : Row) :
  let st' := normalize_step gd st row in
  (normalized st' = normalized st
   \/ exists v, normalized st' = set_last_reason v (normalized st))
  \/ exists x, normalized st' = normalized st ++ [x] /\ emitted gd st row x
               /\ (marker_row row = false ->
                   context_of st' = context_of (fst (context_step st row))).
Proof.
  cbv zeta. unfold normalize_step.
  destruct (is_header_row _ _); [auto|].
  destruct (_ || _) eqn:Hm.
  - destruct (sentinel_step_shape gd st row Hm) as [H|(x & H1 & H2)]; [auto|].
    right. exists x. split; [exact H1|]. split; [exact H2|].
    unfold marker_row. rewrite Hm. discriminate.
  - destruct (recover_status (player row) (status row)) as [player1 status1] eqn:Hs.
    destruct (recover_reason player1 _) as [player2 reason1].
    pose proof (regular_step_shape gd st row player2 reason1 Hm) as H.
    rewrite Hs in H. cbn [snd] in H. cbv zeta in H.
    destruct H as [H|(x & H1 & H2 & H3)]; [left; exact H|].
    right. exists x. auto.
Qed.

(** *** Sentinel rows *)

Lemma Forall_set_last_reason (P : Row -> Prop) (v : string) (l : list Row) :
  (forall r, P r -> P (set_reason v r)) ->
  Forall P l -> Forall P (set_last_reason v l).
Proof.
  intros HP. induction 1 as [|r l Hr Hl IH]; simpl; [constructor|].
  destruct l as [|r' l]; [constructor; auto|].
  constructor; [exact Hr | exact IH].
Qed.

Lemma marker_row_status (row : Row) :
  marker_row row = false -> status row <> NYS_MARKER.
Proof.
  unfold marker_row. intros H E. rewrite E in H.
  rewrite orb_false_iff in H. destruct H as [_ H]. vm_compute in H.
  discriminate.
Qed.

Lemma recover_status_not_marker (row : Row) :
  marker_row row = false ->
  snd (recover_status (player row) (status row)) <> NYS_MARKER.
Proof.
  intros Hm. unfold recover_status.
  destruct (_ && _); [|apply marker_row_status, Hm].
  destruct (Re.search true status_pattern (player row)) as [m|] eqn:E.
  - cbn [snd]. eapply status_group_not_marker, E.
  - apply marker_row_status, Hm.
Qed.

Lemma emitted_team_or_status (gd : string) (st : NState) (row x : Row) :
  emitted gd st row x -> team_or_status x.
Proof.
  intros [tv _ _ Htv | p1 r4 Hm].
  - left. simpl. intros E. rewrite E in Htv. discriminate.
  - right. simpl. apply recover_status_not_marker, Hm.
Qed.

Lemma normalize_step_team_or_status (gd : string) (st : NState) (row : Row) :
  Forall team_or_status (normalized st) ->
  Forall team_or_status (normalized (normalize_step gd st row)).
Proof.
  intros Hst.
  destruct (normalize_step_shape gd st row) as [[H|[v H]]|(x & H & Hx & _)];
    rewrite H.
  - exact Hst.
  - apply Forall_set_last_reason; [|exact Hst]. intros r Hr. exact Hr.
  - apply Forall_app. split; [exact Hst|].
    constructor; [|constructor]. eapply emitted_team_or_status, Hx.
Qed.

Lemma reconcile_team_or_status (gd : string) (rs : list Row) (st : NState) :
  Forall team_or_status (normalized st) ->
  Forall team_or_status (normalized (fold_left (normalize_step gd) rs st)).
Proof.
  revert st. induction rs as [|r rs IH]; intros st Hst; simpl; [exact Hst|].
  apply IH, normalize_step_team_or_status, Hst.
Qed.

Lemma app_one_stays (l : list Row) (x : Row) : l <> l ++ [x].
Proof.
  intros E. apply (f_equal (@length Row)) in E. rewrite length_app in E.
  simpl in E. lia.
Qed.

Lemma sentinel_row_is_marker (row : Row) :
  is_sentinel row -> marker_row row = true.
Proof. intros (Hp & _ & _). unfold marker_row. rewrite Hp. reflexivity. Qed.

(** C8. Every sentinel row in the output of [normalize_rows] has a
    non-empty team.  A sentinel input row that is emitted carries the team
    resolved from the row itself or else from the rolling context; when
    neither gives a team, nothing is emitted for it. *)
Theorem sentinel_rows_have_team (gd : string) (rs : list Row) :
  (forall r, In r (normalize_rows rs gd) -> is_sentinel r -> team r <> "")
  /\ (forall st row x,
        is_sentinel row ->
        normalized (normalize_step gd st row) = normalized st ++ [x] ->
        team x = PyStr.or_else (PyStr.strip (team row)) (opt_or (last_team st) "")
        /\ team x <> "")
  /\ (forall st row,
        is_sentinel row ->
        PyStr.or_else (PyStr.strip (team row)) (opt_or (last_team st) "") = "" ->
        normalized (normalize_step gd st row) = normalized st).
Proof.
  split; [|split].
  - intros r Hin (_ & Hs & _).
    assert (H : Forall team_or_status (normalize_rows rs gd)).
    { unfold normalize_rows. apply reconcile_team_or_status. constructor. }
    rewrite Forall_forall in H. apply list_elem_of_In in Hin.
    destruct (H r Hin) as [Ht|Hst]; [exact Ht | contradiction].
  - intros st row x Hrow Hstep.
    pose proof (sentinel_row_is_marker row Hrow) as Hm.
    unfold normalize_step in Hstep.
    destruct (is_header_row _ _).
    { exfalso. eapply app_one_stays, Hstep. }
    fold (marker_row row) in Hstep. rewrite Hm in Hstep.
    destruct (sentinel_step_shape gd st row Hm) as [H|(y & H & Hy)];
      rewrite H in Hstep.
    { exfalso. eapply app_one_stays, Hstep. }
    apply app_inv_head in Hstep. inversion Hstep; subst y.
    destruct Hy as [tv _ Htv Hne | p1 r4 Hm'].
    + simpl. split; [exact Htv|]. intros E. rewrite E in Hne. discriminate.
    + rewrite Hm in Hm'. discriminate.
  - intros st row Hrow Hteam.
    pose proof (sentinel_row_is_marker row Hrow) as Hm.
    unfold normalize_step.
    destruct (is_header_row _ _); [reflexivity|].
    fold (marker_row row). rewrite Hm.
    destruct (sentinel_step_shape gd st row Hm) as [H|(y & H & Hy)];
      [exact H|].
    exfalso. destruct Hy as [tv _ Htv Hne | p1 r4 Hm'].
    + rewrite <- Htv in Hteam. rewrite Hteam in Hne. discriminate.
    + rewrite Hm in Hm'. discriminate.
Qed.

(** *** Game times *)

Lemma length_set_last_reason (v : string) (l : list Row) :
  length (set_last_reason v l) = length l.
Proof.
  induction l as [|r l IH]; simpl; [reflexivity|].
  destruct l; simpl in *; [reflexivity|]. rewrite IH. reflexivity.
Qed.

Lemma same_but_reason_set (v : string) (r : Row) :
  same_but_reason r (set_reason v r).
Proof. reflexivity. Qed.

Lemma same_but_reason_fields (a b : Row) :
  same_but_reason a b ->
  gameTime a = gameTime b /\ matchup a = matchup b /\ team a = team b
  /\ player a = player b /\ status a = status b.
Proof.
  unfold same_but_reason, set_reason. intros E. inversion E. auto.
Qed.

Lemma same_but_reason_trans (a b c : Row) :
  same_but_reason a b -> same_but_reason b c -> same_but_reason a c.
Proof. unfold same_but_reason. congruence. Qed.

Lemma Forall2_same_refl (l : list Row) : Forall2 same_but_reason l l.
Proof. induction l; constructor; [reflexivity | assumption]. Qed.

Lemma Forall2_same_set_last (v : string) (l : list Row) :
  Forall2 same_but_reason l (set_last_reason v l).
Proof.
  induction l as [|r l IH]; simpl; [constructor|].
  destruct l as [|r' l]; [repeat constructor|].
  constructor; [reflexivity | exact IH].
Qed.

Lemma Forall2_same_trans (l1 l2 l3 : list Row) :
  Forall2 same_but_reason l1 l2 -> Forall2 same_but_reason l2 l3 ->
  Forall2 same_but_reason l1 l3.
Proof.
  intros H. revert l3. induction H as [|a b l1 l2 Hab _ IH]; intros l3 H23.
  - inversion H23. constructor.
  - inversion H23 as [|b' c l2' l3' Hbc Hrest]; subst.
    constructor; [eapply same_but_reason_trans; eassumption | apply IH, Hrest].
Qed.

(** Rows already emitted keep everything but their reason. *)
Lemma normalize_step_keeps (gd : string) (st : NState) (row : Row) :
  exists kept tail,
    normalized (normalize_step gd st row) = kept ++ tail
    /\ Forall2 same_but_reason (normalized st) kept.
Proof.
  destruct (normalize_step_shape gd st row) as [[H|[v H]]|(x & H & _)];
    rewrite H.
  - exists (normalized st), []. rewrite app_nil_r.
    split; [reflexivity | apply Forall2_same_refl].
  - exists (set_last_reason v (normalized st)), []. rewrite app_nil_r.
    split; [reflexivity | apply Forall2_same_set_last].
  - exists (normalized st), [x]. split; [reflexivity | apply Forall2_same_refl].
Qed.

Lemma reconcile_keeps (gd : string) (rs : list Row) (st : NState) :
  exists kept tail,
    normalized (fold_left (normalize_step gd) rs st) = kept ++ tail
    /\ Forall2 same_but_reason (normalized st) kept.
Proof.
  revert st. induction rs as [|r rs IH]; intros st; simpl.
  - exists (normalized st), []. rewrite app_nil_r.
    split; [reflexivity | apply Forall2_same_refl].
  - destruct (normalize_step_keeps gd st r) as (k1 & t1 & E1 & F1).
    destruct (IH (normalize_step gd st r)) as (k2 & t2 & E2 & F2).
    rewrite E1 in F2. apply Forall2_app_inv_l in F2.
    destruct F2 as (k2a & k2b & Fa & Fb & ->).
    exists k2a, (k2b ++ t2). rewrite E2, <- app_assoc.
    split; [reflexivity | eapply Forall2_same_trans; eassumption].
Qed.

Lemma nonempty_neq (s : string) : PyStr.nonempty s = true <-> s <> "".
Proof. destruct s; simpl; split; congruence. Qed.

(** The game time that the context step gives a row. *)
Lemma context_step_time (st : NState) (row : Row) :
  let st1 := fst (context_step st row) in
  let row1 := snd (context_step st row) in
  let key := PyStr.upper (PyStr.strip (matchup row1)) in
  let own := PyStr.strip (gameTime row) in
  if concrete_time own
  then gameTime row1 = own
       /\ (key <> "" -> game_time_by_matchup st1 !! key = Some own)
  else forall t, key <> "" -> PyStr.nonempty t = true ->
                 game_time_by_matchup st !! key = Some t -> gameTime row1 = t.
Proof.
  cbv zeta. unfold context_step.
  match goal with
  | |- context [let '(_, _) := ?c in _] =>
      assert (Hg1 : gameTime (fst c) = gameTime row)
        by (destruct (_ || _); reflexivity);
      destruct c as [row1 lt]
  end.
  match goal with
  | |- context [let '(_, _) := ?c in _] =>
      assert (Hg2 : gameTime (fst c) = gameTime row1)
        by (destruct (_ || _); reflexivity);
      destruct c as [row2 lm]
  end.
  cbn [fst] in Hg1, Hg2. rewrite Hg2, Hg1. fold (concrete_time (PyStr.strip (gameTime row))).
  destruct (concrete_time (PyStr.strip (gameTime row))); cbn [fst snd].
  - split; [reflexivity|]. simpl. intros Hk. apply nonempty_neq in Hk.
    rewrite Hk. apply lookup_insert_eq.
  - simpl. intros t Hk Ht Hlook. apply nonempty_neq in Hk.
    rewrite Hk, Hlook. destruct t as [|c t]; [discriminate|]. reflexivity.
Qed.

(** Only concrete times are ever recorded. *)
Lemma insert_time_concrete (m : gmap string string) (key v : string) :
  PyStr.nonempty v = true -> is_tbd v = false ->
  (forall k t, m !! k = Some t -> PyStr.nonempty t = true /\ is_tbd t = false) ->
  forall k t, <[ key := v ]> m !! k = Some t ->
              PyStr.nonempty t = true /\ is_tbd t = false.
Proof.
  intros Hv Htbd Hm k t. rewrite lookup_insert. case_decide; [|apply Hm].
  intros E. inversion E; subst. auto.
Qed.

Lemma context_step_times (st : NState) (row : Row) :
  times_recorded_concrete st ->
  times_recorded_concrete (fst (context_step st row)).
Proof.
  intros Hst. unfold context_step.
  repeat match goal with
         | |- context [let '(_, _) := ?c in _] => destruct c
         end.
  destruct (PyStr.nonempty (PyStr.strip (gameTime _)) && _) eqn:Hc;
    cbn [fst]; [|exact Hst].
  apply andb_true_iff in Hc as [Hne Hc]. apply negb_true_iff in Hc.
  apply orb_false_iff in Hc as [Htbd _].
  destruct (PyStr.nonempty (PyStr.upper _)); [|exact Hst].
  unfold times_recorded_concrete. simpl.
  apply insert_time_concrete; assumption.
Qed.

Lemma sentinel_step_times (gd : string) (st : NState) (row : Row) :
  times_recorded_concrete st ->
  times_recorded_concrete (sentinel_step gd st row).
Proof.
  intros Hst. unfold sentinel_step. cbv zeta.
  match goal with
  | |- context [with_normalized (normalized ?s1 ++ _) ?s1] =>
      set (st1 := s1);
      assert (H1 : times_recorded_concrete st1)
  end.
  { subst st1. destruct (PyStr.nonempty _ && _) eqn:Hc; [|exact Hst].
    apply andb_true_iff in Hc as [Hne Htbd]. apply negb_true_iff in Htbd.
    destruct (PyStr.nonempty (PyStr.upper _)); [|exact Hst].
    unfold times_recorded_concrete. simpl.
    apply insert_time_concrete; assumption. }
  clearbody st1. destruct (_ && _); exact H1.
Qed.

Lemma times_of_context (st st' : NState) :
  context_of st' = context_of st ->
  times_recorded_concrete st -> times_recorded_concrete st'.
Proof.
  unfold context_of, times_recorded_concrete. intros E.
  assert (H : game_time_by_matchup st' = game_time_by_matchup st)
    by (inversion E; reflexivity).
  rewrite H. auto.
Qed.

Lemma regular_step_times (gd : string) (st : NState) (row : Row)
    (rt p1 s1 r1 : string) :
  times_recorded_concrete st ->
  times_recorded_concrete (regular_step gd st row rt p1 s1 r1).
Proof.
  intros Hst. unfold regular_step.
  destruct (_ && _).
  { eapply times_of_context; [apply fragment_step_mends | exact Hst]. }
  pose proof (context_step_times st row Hst) as H1.
  destruct (context_step st row) as [st1 row1]. cbn [fst] in H1.
  destruct (_ && _).
  { eapply times_of_context; [apply continuation_step_mends | exact H1]. }
  match goal with
  | |- context [attach_pending st1 ?pk ?ct ?r] =>
      pose proof (attach_pending_frame st1 pk ct r) as [_ C2];
      destruct (attach_pending st1 pk ct r) as [st2 reason2]
  end.
  match goal with
  | |- context [attach_carryover st2 ?pk ?p ?s ?r] =>
      pose proof (attach_carryover_frame st2 pk p s r) as [_ C3];
      destruct (attach_carryover st2 pk p s r) as [st3 reason3]
  end.
  match goal with
  | |- context [finish_reason st3 ?pk ?et ?r] =>
      pose proof (finish_reason_frame st3 pk et r) as [_ C4];
      destruct (finish_reason st3 pk et r) as [st4 reason4]
  end.
  cbn [fst] in *.
  assert (C : context_of st4 = context_of st1) by congruence.
  destruct (_ && _); eapply times_of_context; try exact H1; exact C.
Qed.

Lemma normalize_step_times (gd : string) (st : NState) (row : Row) :
  times_recorded_concrete st ->
  times_recorded_concrete (normalize_step gd st row).
Proof.
  intros Hst. unfold normalize_step.
  destruct (is_header_row _ _); [exact Hst|].
  destruct (_ || _); [apply sentinel_step_times, Hst|].
  destruct (recover_status _ _) as [player1 status1].
  destruct (recover_reason _ _) as [player2 reason1].
  apply regular_step_times, Hst.
Qed.

Lemma reconcile_times (gd : string) (rs : list Row) (st : NState) :
  times_recorded_concrete st ->
  times_recorded_concrete (fold_left (normalize_step gd) rs st).
Proof.
  revert st. induction rs as [|r rs IH]; intros st Hst; simpl; [exact Hst|].
  apply IH, normalize_step_times, Hst.
Qed.

Lemma NState_initial_times : times_recorded_concrete NState_initial.
Proof. intros k t. simpl. rewrite lookup_empty. discriminate. Qed.

(** The game time and the record of a marker row. *)
Lemma sentinel_time_spec (st : NState) (row : Row) :
  times_recorded_concrete st ->
  let key := PyStr.upper (sentinel_matchup st row) in
  let own := PyStr.strip (gameTime row) in
  if PyStr.nonempty own && negb (is_tbd own)
  then sentinel_time st row = own
  else forall t, key <> "" -> game_time_by_matchup st !! key = Some t ->
                 sentinel_time st row = t.
Proof.
  intros Hst. cbv zeta.
  assert (Hlook : forall t,
             PyStr.upper (sentinel_matchup st row) <> "" ->
             game_time_by_matchup st !! PyStr.upper (sentinel_matchup st row)
             = Some t ->
             negb (PyStr.nonempty (PyStr.strip (gameTime row)))
             || is_tbd (PyStr.strip (gameTime row)) = true ->
             sentinel_time st row = t).
  { intros t Hk Hlook Hown. unfold sentinel_time. cbv zeta.
    apply nonempty_neq in Hk. rewrite Hown, Hk, Hlook.
    destruct (Hst _ _ Hlook) as [Ht1 Ht2]. simpl. rewrite Ht1, Ht2.
    reflexivity. }
  destruct (PyStr.nonempty (PyStr.strip (gameTime row))) eqn:Hne;
    destruct (is_tbd (PyStr.strip (gameTime row))) eqn:Htbd;
    cbn [negb andb orb] in *; auto.
  unfold sentinel_time. cbv zeta. rewrite Hne, Htbd. cbn [negb orb].
  rewrite Hne, Htbd. reflexivity.
Qed.

Lemma sentinel_step_record (gd : string) (st : NState) (row : Row) :
  let key := PyStr.upper (sentinel_matchup st row) in
  PyStr.nonempty (sentinel_time st row) && negb (is_tbd (sentinel_time st row))
  = true ->
  key <> "" ->
  game_time_by_matchup (sentinel_step gd st row) !! key
  = Some (sentinel_time st row).
Proof.
  cbv zeta. intros Hc Hk. apply nonempty_neq in Hk.
  unfold sentinel_step. cbv zeta. rewrite Hc, Hk.
  match goal with
  | |- context [if ?c then with_normalized _ _ else _] => destruct c
  end; simpl; apply lookup_insert_eq.
Qed.

(** C2, as the code has it.  Take any run and any input row that the
    reconciler emits; [st] is the state before the row, and the emitted
    row stands in the output at the place it was appended.  If the row's
    own game time is concrete the row keeps it (stripped), and it becomes
    the time recorded for the row's matchup; otherwise, when a time is
    recorded for the matchup at that point, the row takes that time.  The
    recorded time is thus the latest concrete time written for the
    matchup, not the first. *)
Theorem game_time_follows_matchup (gd : string) (pre post : list Row)
    (row : Row) :
  let st := reconcile gd pre in
  let st' := normalize_step gd st row in
  length (normalized st') = S (length (normalized st)) ->
  exists out1 x out2,
    normalize_rows (pre ++ row :: post) gd = out1 ++ x :: out2
    /\ length out1 = length (normalized st)
    /\ let key := lookup_key row x in
       let own := PyStr.strip (gameTime row) in
       if own_time_concrete row
       then gameTime x = own
            /\ (key <> "" -> game_time_by_matchup st' !! key = Some own)
       else forall t, key <> "" ->
                      game_time_by_matchup st !! key = Some t ->
                      gameTime x = t.
Proof.
  cbv zeta. intros Hlen.
  set (st := reconcile gd pre) in *.
  assert (Htimes : times_recorded_concrete st).
  { unfold st, reconcile. apply reconcile_times, NState_initial_times. }
  destruct (normalize_step_shape gd st row) as [[H|[v H]]|(x0 & H & Hx & Hctx)].
  { rewrite H in Hlen. lia. }
  { rewrite H, length_set_last_reason in Hlen. lia. }
  destruct (reconcile_keeps gd post (normalize_step gd st row))
    as (kept & tail & Efinal & Fkept).
  rewrite H in Fkept. apply Forall2_app_inv_l in Fkept.
  destruct Fkept as (out1 & k2 & F1 & F2 & ->).
  inversion F2 as [|a x l l' Hsame Hnil]; subst. inversion Hnil; subst.
  exists out1, x, tail. split; [|split].
  - unfold normalize_rows. rewrite fold_left_app. cbn [fold_left].
    fold (reconcile gd pre). fold st. rewrite Efinal, <- app_assoc.
    reflexivity.
  - symmetry. eapply Forall2_length, F1.
  - apply same_but_reason_fields in Hsame as (Hg & Hmu & _).
    unfold lookup_key, own_time_concrete. rewrite <- Hg, <- Hmu.
    destruct Hx as [tv Hm _ _ | p1 r4 Hm]; rewrite Hm.
    + (* a marker row *)
      cbn [gameTime matchup].
      assert (Estep : normalize_step gd st row = sentinel_step gd st row).
      { unfold normalize_step. destruct (is_header_row _ _) eqn:Hh.
        - exfalso. unfold normalize_step in H. rewrite Hh in H.
          eapply app_one_stays, H.
        - fold (marker_row row). rewrite Hm. reflexivity. }
      rewrite Estep.
      pose proof (sentinel_time_spec st row Htimes) as Hspec. cbv zeta in Hspec.
      destruct (PyStr.nonempty (PyStr.strip (gameTime row))
                && negb (is_tbd (PyStr.strip (gameTime row)))) eqn:Hc;
        [|exact Hspec].
      split; [exact Hspec|]. intros Hk. rewrite <- Hspec.
      apply sentinel_step_record; [rewrite Hspec; exact Hc | exact Hk].
    + (* any other row *)
      specialize (Hctx Hm).
      pose proof (context_step_time st row) as Hstep. cbv zeta in Hstep.
      cbn [gameTime matchup set_gameDate set_reason set_status set_player].
      assert (Hmap : game_time_by_matchup (normalize_step gd st row)
                     = game_time_by_matchup (fst (context_step st row)))
        by (unfold context_of in Hctx; inversion Hctx; reflexivity).
      rewrite Hmap.
      destruct (concrete_time (PyStr.strip (gameTime row))); [exact Hstep|].
      intros t Hk Hlook. apply (Hstep t Hk); [|exact Hlook].
      eapply Htimes, Hlook.
Qed.

Lemma game_time_follows_matchup_witness :
  exists out1 x out2,
    normalize_rows ([heat_0200; wizards_0300] ++ wizards_tbd :: []) "02/08/2026"
    = out1 ++ x :: out2
    /\ length out1 = 2%nat
    /\ gameTime x = "03:00 (ET)".
Proof.
  destruct (game_time_follows_matchup "02/08/2026" [heat_0200; wizards_0300] []
              wizards_tbd eq_refl)
    as (out1 & x & out2 & E & Hlen & Htime).
  change (length (normalized (reconcile "02/08/2026" [heat_0200; wizards_0300])))
    with 2%nat in Hlen.
  exists out1, x, out2. split; [exact E|]. split; [exact Hlen|].
  assert (Hx : x = nth 2 (normalize_rows [heat_0200; wizards_0300; wizards_tbd]
                                         "02/08/2026") x).
  { change ([heat_0200; wizards_0300] ++ [wizards_tbd])
      with [heat_0200; wizards_0300; wizards_tbd] in E.
    rewrite E, app_nth2 by lia. rewrite Hlen. reflexivity. }
  change (own_time_concrete wizards_tbd) with false in Htime.
  cbv zeta in Htime. apply Htime.
  - rewrite Hx. vm_compute. discriminate.
  - rewrite Hx. vm_compute. reflexivity.
Defined.

(** C2 fails as stated: the second row belongs to the matchup whose first
    concrete time is 02:00, yet it keeps its own 03:00, and the third row,
    which has no time of its own, takes 03:00 as well. *)
Lemma later_time_replaces_first :
  map matchup (normalize_rows [heat_0200; wizards_0300; wizards_tbd] "02/08/2026")
  = ["MIA@WAS"; "MIA@WAS"; "MIA@WAS"]
  /\ map gameTime (normalize_rows [heat_0200; wizards_0300; wizards_tbd] "02/08/2026")
     = ["02:00 (ET)"; "03:00 (ET)"; "03:00 (ET)"].
Proof. vm_compute. split; reflexivity. Qed.

(** *** Noise in reasons *)

(** C1 at a row whose reason begins with a date: the reconciler emits the
    row with the date still in its reason, and the reason matches the
    date/time pattern. *)
Theorem leading_date_survives_trim :
  map reason (normalize_rows [doe_leaked_date] "02/08/2026")
  = ["02/08/2026 Knee Soreness"]
  /\ Re.found (Re.search true date_or_time_blob_regex "02/08/2026 Knee Soreness")
     = true
  /\ is_contaminated_reason "02/08/2026 Knee Soreness" = true.
Proof. vm_compute. repeat split; reflexivity. Qed.

End ReconcilerFacts.

(** ** The repository's own tests, run on the model *)

Section RepositoryTests.

Example test_parse_pdf_time_label_with_underscore_format :
  parse_pdf_time_label "https://example.com/Injury-Report_2026-02-08_03_45AM.pdf"
  = Returns "03:45 AM ET"
  /\ parse_pdf_datetime (fun _ => 0)
       "https://example.com/Injury-Report_2026-02-08_03_45AM.pdf"
     = Returns 1770522300.
Proof. vm_compute. split; reflexivity. Qed.

Example test_normalize_rows_reuses_previous_matchup_time_when_tbd :
  map gameTime (normalize_rows [test_row_heat; test_row_wizards] "02/08/2026")
  = ["02:00 (ET)"; "02:00 (ET)"].
Proof. vm_compute. reflexivity. Qed.

Example test_contaminated_reason_fails :
  is_contaminated_reason "Injury/Illness - Right Calf; Strain Curry, Seth Out"
  = true
  /\ is_contaminated_reason "Injury/Illness - Right Calf; Strain" = false.
Proof. vm_compute. split; reflexivity. Qed.

Example trim_reason_noise_cuts_leaked_blob :
  trim_reason_noise "Injury/Illness - Right Calf; Strain Curry, Seth Out"
  = "Injury/Illness - Right Calf; Strain".
Proof. vm_compute. reflexivity. Qed.

(** The accents of U+0107 and U+00E9 are removed. *)
Example test_normalize_player_name_key_removes_accents :
  normalize_player_name_key ucd_latin
    (ustr "Jovi" ++ [0x107%N] ++ ustr ", Nikola")%list
  = ustr "jovic, nikola"
  /\ normalize_player_name_key ucd_latin
       (ustr "Dant" ++ [0xE9%N] ++ ustr " Exum")%list
     = ustr "dante exum".
Proof. vm_compute. split; reflexivity. Qed.

End RepositoryTests.

(** ** More on the reconciler *)

Section ReconcilerInvariants.

Local Open Scope list_scope.

Lemma context_step_origin (st : NState) (row : Row) :
  row_origin (snd (context_step st row)) = row_origin row.
Proof.
  unfold context_step.
  match goal with
  | |- context [let '(_, _) := ?c in _] =>
      assert (H1 : row_origin (fst c) = row_origin row)
        by (destruct (_ || _); reflexivity);
      destruct c as [row1 lt]
  end.
  match goal with
  | |- context [let '(_, _) := ?c in _] =>
      assert (H2 : row_origin (fst c) = row_origin row1)
        by (destruct (_ || _); reflexivity);
      destruct c as [row2 lm]
  end.
  cbn [fst] in H1, H2. destruct (_ && _); cbn [snd]; unfold row_origin in *;
    simpl; congruence.
Qed.

Lemma or_else_tbd (s : string) : PyStr.or_else s "TBD" <> "".
Proof. destruct s; discriminate. Qed.

Lemma context_step_time_nonempty (st : NState) (row : Row) :
  gameTime (snd (context_step st row)) <> "".
Proof.
  unfold context_step.
  repeat match goal with
         | |- context [let '(_, _) := ?c in _] => destruct c
         end.
  destruct (PyStr.nonempty (PyStr.strip (gameTime _)) && _) eqn:Hc; cbn [snd].
  - apply andb_true_iff in Hc as [Hne _]. simpl. apply nonempty_neq, Hne.
  - simpl. apply or_else_tbd.
Qed.

Lemma opt_or_nonempty (x : option string) (d : string) :
  d <> "" -> opt_or x d <> "".
Proof.
  intros Hd. unfold opt_or, PyStr.or_else.
  destruct (PyStr.nonempty (default "" x)) eqn:E; [apply nonempty_neq, E | exact Hd].
Qed.

Lemma sentinel_time_nonempty (st : NState) (row : Row) :
  sentinel_time st row <> "".
Proof.
  unfold sentinel_time. cbv zeta.
  match goal with
  | |- (if negb (PyStr.nonempty ?t) || is_tbd ?t then _ else _) <> _ =>
      destruct (PyStr.nonempty t) eqn:Hne; cbn [negb orb];
      [destruct (is_tbd t); [|apply nonempty_neq, Hne]|]
  end; apply opt_or_nonempty, opt_or_nonempty; discriminate.
Qed.

(** The row that the regular branch appends. *)
Lemma regular_step_appended (gd : string) (st : NState) (row x : Row)
    (rt p2 s1 r1 : string) :
  normalized (regular_step gd st row rt p2 s1 r1) = normalized st ++ [x] ->
  player x = p2 /\ status x = s1 /\ (p2 <> "" \/ s1 <> "")
  /\ gameDate x = Some gd
  /\ gameTime x = gameTime (snd (context_step st row))
  /\ row_origin x = row_origin (snd (context_step st row)).
Proof.
  unfold regular_step.
  destruct (negb (PyStr.nonempty p2) && negb (PyStr.nonempty s1)) eqn:Hps;
    cbn [andb].
  - (* no player, no status: a fragment or a continuation, nothing appended *)
    intros H. exfalso.
    assert (Hlen : length (normalized st ++ [x]) = length (normalized st)).
    { rewrite <- H. destruct (PyStr.nonempty r1); cbn [negb andb].
      - pose proof (context_step_normalized st row) as Hn.
        destruct (context_step st row) as [st1 row1]. cbn [fst] in Hn.
        destruct (continuation_step_mends st1 row1 r1
                    (PyStr.or_else (team row1) (opt_or (last_team st1) "")))
          as [_ [E|[v E]]]; rewrite E, ?length_set_last_reason, Hn; reflexivity.
      - destruct (fragment_step_mends st row rt) as [_ [E|[v E]]]; rewrite E;
          [reflexivity | apply length_set_last_reason]. }
    rewrite length_app in Hlen. simpl in Hlen. lia.
  - pose proof (context_step_normalized st row) as Hn.
    destruct (context_step st row) as [st1 row1]. cbn [fst snd] in *.
    destruct (attach_pending _ _ _ _) as [st2 reason2] eqn:E2.
    destruct (attach_carryover _ _ _ _ _) as [st3 reason3] eqn:E3.
    destruct (finish_reason _ _ _ _) as [st4 reason4] eqn:E4.
    destruct (attach_pending_frame st1 (page row1)
                (PyStr.or_else (team row1) (opt_or (last_team st1) "")) r1)
      as [N2 _].
    rewrite E2 in N2. cbn [fst] in N2.
    destruct (attach_carryover_frame st2 (page row1) p2 s1 reason2) as [N3 _].
    rewrite E3 in N3. cbn [fst] in N3.
    destruct (finish_reason_frame st3 (page row1) rt reason3) as [N4 _].
    rewrite E4 in N4. cbn [fst] in N4.
    cbn [normalized with_normalized].
    assert (N : normalized st4 = normalized st) by congruence.
    rewrite N. intros H. apply app_inv_head in H. inversion H; subst x.
    apply andb_false_iff in Hps.
    repeat split; try reflexivity.
    destruct Hps as [Hp|Hs]; apply negb_false_iff in Hp || apply negb_false_iff in Hs;
      [left; apply nonempty_neq, Hp | right; apply nonempty_neq, Hs].
Qed.

Lemma normalize_step_appended (gd : string) (st : NState) (row x : Row) :
  normalized (normalize_step gd st row) = normalized st ++ [x] ->
  kept_row gd x /\ row_origin x = row_origin row.
Proof.
  unfold normalize_step.
  destruct (is_header_row _ _).
  { intros H. exfalso. eapply app_one_stays, H. }
  destruct (_ || _) eqn:Hm.
  - intros H.
    destruct (sentinel_step_shape gd st row Hm) as [E|(y & E & Hy)];
      rewrite E in H.
    { exfalso. eapply app_one_stays, H. }
    apply app_inv_head in H. inversion H; subst y.
    destruct Hy as [tv _ _ _ | p1 r4 Hm'].
    + split; [|reflexivity]. split; [reflexivity|]. split.
      * apply sentinel_time_nonempty.
      * left. discriminate.
    + unfold marker_row in Hm'. rewrite Hm in Hm'. discriminate.
  - destruct (recover_status _ _) as [player1 status1].
    destruct (recover_reason _ _) as [player2 reason1].
    intros H. apply regular_step_appended in H.
    destruct H as (Hp & Hs & Hps & Hgd & Hgt & Ho).
    split.
    + split; [exact Hgd|]. split.
      * rewrite Hgt. apply context_step_time_nonempty.
      * rewrite Hp, Hs. exact Hps.
    + rewrite Ho. apply context_step_origin.
Qed.

Lemma kept_row_set_reason (gd v : string) (r : Row) :
  kept_row gd r -> kept_row gd (set_reason v r).
Proof. intros H. exact H. Qed.

Lemma map_origin_set_last (v : string) (l : list Row) :
  map row_origin (set_last_reason v l) = map row_origin l.
Proof.
  induction l as [|r l IH]; [reflexivity|].
  destruct l as [|r' l]; [reflexivity|].
  change (set_last_reason v (r :: r' :: l)) with (r :: set_last_reason v (r' :: l)).
  cbn [map]. rewrite IH. reflexivity.
Qed.

Lemma reconcile_kept (gd : string) (rs : list Row) (st : NState) :
  Forall (kept_row gd) (normalized st) ->
  Forall (kept_row gd) (normalized (fold_left (normalize_step gd) rs st)).
Proof.
  revert st. induction rs as [|r rs IH]; intros st Hst; simpl; [exact Hst|].
  apply IH.
  destruct (normalize_step_shape gd st r) as [[H|[v H]]|(x & H & _)].
  - rewrite H. exact Hst.
  - rewrite H. apply Forall_set_last_reason; [|exact Hst].
    intros r0. apply kept_row_set_reason.
  - rewrite H. apply Forall_app. split; [exact Hst|].
    constructor; [|constructor]. apply (normalize_step_appended gd st r x H).
Qed.

Lemma reconcile_origins (gd : string) (rs : list Row) (st : NState) :
  exists more,
    map row_origin (normalized (fold_left (normalize_step gd) rs st))
    = map row_origin (normalized st) ++ more
    /\ sublist more (map row_origin rs).
Proof.
  revert st. induction rs as [|r rs IH]; intros st; simpl.
  - exists []. rewrite app_nil_r. split; [reflexivity | constructor].
  - destruct (IH (normalize_step gd st r)) as (more & E & Hsub). rewrite E.
    destruct (normalize_step_shape gd st r) as [[H|[v H]]|(x & H & _)].
    + exists more. rewrite H. split; [reflexivity|]. apply sublist_cons, Hsub.
    + exists more. rewrite H, map_origin_set_last.
      split; [reflexivity|]. apply sublist_cons, Hsub.
    + exists (row_origin r :: more).
      destruct (normalize_step_appended gd st r x H) as [_ Ho].
      rewrite H, map_app, <- app_assoc. simpl. rewrite Ho.
      split; [reflexivity|]. apply sublist_skip, Hsub.
Qed.

(** X1. Every row that [normalize_rows] returns carries the game date of
    the run, has a game time that is not empty ("TBD" when none is known),
    and has a player or a status: a row with neither is never kept, even
    when it has a reason. *)
Theorem normalize_rows_kept_rows (rs : list Row) (gd : string) :
  Forall (kept_row gd) (normalize_rows rs gd).
Proof. unfold normalize_rows. apply reconcile_kept. constructor. Qed.

(** X2. The reconciler neither invents nor reorders rows: the pages and
    row indexes of its output, in order, are a subsequence of those of its
    input; so the output is never longer than the input. *)
Theorem normalize_rows_origins (rs : list Row) (gd : string) :
  sublist (map row_origin (normalize_rows rs gd)) (map row_origin rs)
  /\ (length (normalize_rows rs gd) <= length rs)%nat.
Proof.
  destruct (reconcile_origins gd rs NState_initial) as (more & E & Hsub).
  simpl in E. fold (normalize_rows rs gd) in E.
  assert (H : sublist (map row_origin (normalize_rows rs gd)) (map row_origin rs))
    by (rewrite E; exact Hsub).
  split; [exact H|].
  apply sublist_length in H. rewrite !length_map in H. exact H.
Qed.

(** X3. Rows are settled as they are emitted: running the reconciler on a
    longer input leaves the rows that the shorter input gave in their
    places, at the head of the result, with every field but the reason as
    it was. *)
Theorem normalize_rows_prefix_stable (pre post : list Row) (gd : string) :
  exists kept tail,
    normalize_rows (pre ++ post) gd = kept ++ tail
    /\ Forall2 same_but_reason (normalize_rows pre gd) kept.
Proof.
  unfold normalize_rows. rewrite fold_left_app.
  apply reconcile_keeps.
Qed.

End ReconcilerInvariants.

(** ** More on the deduplicator *)

Section DedupInvariants.

Local Open Scope list_scope.

Lemma solo_entries_app (u v : unique_dict) :
  solo_entries (u ++ v) = solo_entries u ++ solo_entries v.
Proof. unfold solo_entries. rewrite List.filter_app, map_app. reflexivity. Qed.

Lemma solo_entries_set (k : dkey) (v : Row) (u : unique_dict) :
  solo_entries (unique_set k v u) = solo_entries u.
Proof.
  unfold solo_entries.
  induction u as [|[[k'|] r] u IH]; simpl; [reflexivity| |].
  - destruct (dkey_eqb k k'); simpl; [reflexivity | exact IH].
  - rewrite IH. reflexivity.
Qed.

Lemma length_unique_set (k : dkey) (v : Row) (u : unique_dict) :
  length (unique_set k v u) = length u.
Proof.
  induction u as [|[[k'|] r] u IH]; simpl; [reflexivity| |rewrite IH; reflexivity].
  destruct (dkey_eqb k k'); simpl; [reflexivity | rewrite IH; reflexivity].
Qed.

(** What one turn of the loop does to the keys, to the rows kept on their
    own, and to the size of the dictionary. *)
Lemma dedup_step_effect (u : unique_dict) (row : Row) :
  dict_inv u ->
  (forall k, k ∈ dict_keys (dedup_step u row)
             <-> k ∈ dict_keys u \/ (solo_row row = false /\ k = row_key row))
  /\ solo_entries (dedup_step u row)
     = solo_entries u ++ (if solo_row row then [row] else [])
  /\ (length (dedup_step u row) <= S (length u))%nat.
Proof.
  intros [Hok _]. unfold dedup_step, solo_row.
  destruct (keyless (row_key row)) eqn:Hkl.
  - split; [|split].
    + intros k. rewrite dict_keys_app. unfold dict_keys at 2. simpl.
      rewrite app_nil_r. split; [auto | intros [H|[H _]]; [exact H|discriminate]].
    + rewrite solo_entries_app. reflexivity.
    + rewrite length_app. simpl. lia.
  - destruct (unique_get (row_key row) u) as [existing|] eqn:Hget.
    + assert (Hin : row_key row ∈ dict_keys u).
      { destruct (decide (row_key row ∈ dict_keys u)) as [H|H]; [exact H|].
        apply unique_get_none in H. congruence. }
      destruct (noisy_reason row).
      * split; [|split; [rewrite app_nil_r; reflexivity | lia]].
        intros k. split; [auto | intros [H|[_ ->]]; assumption].
      * split; [|split].
        -- intros k. rewrite dict_keys_set.
           split; [auto | intros [H|[_ ->]]; assumption].
        -- rewrite solo_entries_set, app_nil_r. reflexivity.
        -- rewrite length_unique_set. lia.
    + split; [|split].
      * intros k. rewrite dict_keys_app. unfold dict_keys at 2. simpl.
        rewrite elem_of_app, list_elem_of_singleton. tauto.
      * rewrite solo_entries_app. unfold solo_entries at 2. simpl.
        rewrite app_nil_r. reflexivity.
      * rewrite length_app. simpl. lia.
Qed.

Lemma dedup_fold_effect (rs : list Row) (u : unique_dict) :
  dict_inv u ->
  (forall k, k ∈ dict_keys (fold_left dedup_step rs u)
             <-> k ∈ dict_keys u \/ k ∈ keyed_keys rs)
  /\ solo_entries (fold_left dedup_step rs u)
     = solo_entries u ++ List.filter solo_row rs
  /\ (length (fold_left dedup_step rs u) <= length u + length rs)%nat.
Proof.
  revert u. induction rs as [|r rs IH]; intros u Hu.
  - simpl. split; [|split; [rewrite app_nil_r; reflexivity | lia]].
    intros k. unfold keyed_keys, dict_keys. simpl.
    rewrite elem_of_nil. tauto.
  - cbn [fold_left].
    destruct (IH _ (dedup_step_inv u r Hu)) as (Hk & Hs & Hl).
    destruct (dedup_step_effect u r Hu) as (Hk1 & Hs1 & Hl1).
    split; [|split].
    + intros k. rewrite Hk, Hk1.
      change (keyed_keys (r :: rs))
        with (dict_keys ([own_entry r] ++ map own_entry rs)).
      rewrite dict_keys_app, elem_of_app. fold (keyed_keys rs).
      unfold dict_keys at 3, own_entry, solo_row. simpl.
      destruct (keyless (row_key r)); simpl.
      * rewrite elem_of_nil. split; [intros [[H|[H _]]|H]; auto; discriminate | tauto].
      * rewrite list_elem_of_singleton. split; [intros [[H|[_ H]]|H]; auto | tauto].
    + rewrite Hs, Hs1, <- app_assoc. simpl. destruct (solo_row r); reflexivity.
    + simpl. lia.
Qed.

Lemma Permutation_filter_bool {A : Type} (f : A -> bool) (l l' : list A) :
  Permutation l l' -> Permutation (List.filter f l) (List.filter f l').
Proof.
  induction 1 as [|x l l' _ IH|x y l|l l' l'' _ IH1 _ IH2]; simpl.
  - reflexivity.
  - destruct (f x); [constructor|]; exact IH.
  - destruct (f x), (f y); try reflexivity. apply perm_swap.
  - etransitivity; eassumption.
Qed.

Lemma solo_entries_of_ok (u : unique_dict) :
  Forall entry_ok u -> List.filter solo_row (map snd u) = solo_entries u.
Proof.
  unfold solo_entries.
  induction 1 as [|[o r] u He _ IH]; simpl; [reflexivity|].
  unfold entry_ok, own_entry in He. simpl in He.
  change (solo_row r) with (keyless (row_key r)).
  destruct (keyless (row_key r)); inversion He; subst; simpl; rewrite IH;
    reflexivity.
Qed.

(** X4. The output of the deduplicator is in ascending order of
    (page, rowIndex), and no two of its rows that have a player (other
    than the marker) share the key (team, player, gameTime). *)
Theorem deduplicate_rows_ordered_and_distinct (rs : list Row) :
  rows_sorted (deduplicate_rows rs)
  /\ NoDup (keyed_keys (deduplicate_rows rs)).
Proof. split; [apply deduplicate_rows_sorted | apply deduplicate_rows_keys]. Qed.

(** X5. The deduplicator loses no player and invents none: the keys of
    its output are those of its input.  Rows without a player, and marker
    rows, are all kept as they are.  The output is never longer than the
    input. *)
Theorem deduplicate_rows_keeps_keys (rs : list Row) :
  (forall k, k ∈ keyed_keys (deduplicate_rows rs) <-> k ∈ keyed_keys rs)
  /\ Permutation (List.filter solo_row (deduplicate_rows rs))
                 (List.filter solo_row rs)
  /\ (length (deduplicate_rows rs) <= length rs)%nat.
Proof.
  unfold deduplicate_rows. destruct rs as [|r rs].
  { split; [tauto|]. split; [reflexivity | lia]. }
  set (u := fold_left dedup_step (r :: rs) []).
  assert (Hinit : dict_inv []) by (split; [constructor | apply NoDup_nil_2]).
  destruct (dedup_fold_inv (r :: rs) [] Hinit) as [Hok _]. fold u in Hok.
  destruct (dedup_fold_effect (r :: rs) [] Hinit) as (Hk & Hs & Hl). fold u in Hk, Hs, Hl.
  split; [|split].
  - intros k.
    rewrite (keyed_keys_perm _ _ (sort_rows_perm (map snd u))).
    unfold keyed_keys at 1. rewrite entries_of_ok by exact Hok.
    rewrite Hk. unfold dict_keys at 1. simpl. rewrite elem_of_nil. tauto.
  - etransitivity;
      [apply Permutation_filter_bool, sort_rows_perm|].
    fold u. rewrite (solo_entries_of_ok u Hok), Hs. reflexivity.
  - rewrite (Permutation_length (sort_rows_perm (map snd u))), length_map.
    simpl in Hl. exact Hl.
Qed.

End DedupInvariants.

(** ** More on the cache controller *)

Section CacheBehaviour.

Variable utcoffset : Z -> Z.

Lemma parse_pdf_datetime_returns (url : string) :
  exists v, parse_pdf_datetime utcoffset url = Returns v.
Proof.
  unfold parse_pdf_datetime. rewrite parse_pdf_time_parts_spec.
  cbn [mbind outcome_bind].
  destruct (Re.search true time_parts_regex (last_segment url)) as [m|];
    [|eexists; reflexivity].
  cbv zeta.
  set (h := extracted_hour _). set (mi := extracted_minute _).
  destruct ((h <? 1) || (h >? 12) || (mi <? 0) || (mi >? 59)) eqn:Hrange;
    [eexists; reflexivity|].
  apply orb_false_iff in Hrange as [Hrange Hm2].
  apply orb_false_iff in Hrange as [Hrange Hm1].
  apply orb_false_iff in Hrange as [Hh1 Hh2].
  apply Z.ltb_ge in Hh1, Hm1. rewrite Z.gtb_ltb in Hh2, Hm2.
  apply Z.ltb_ge in Hh2, Hm2.
  rewrite strptime_valid by (try apply to_24h_range; lia).
  destruct (valid_date _); [|eexists; reflexivity].
  destruct (caught_timestamp utcoffset
              (datetime_of (Re.group 1 (Re.m_groups m)) 
                 (to_24h h (PyStr.upper (Re.group 3 (Re.m_groups m)))) mi))
    as (v & Hv & _).
  exists v. exact Hv.
Qed.

Lemma probe_cached_not_newer (w : World) (p : Payload) :
  probe_not_newer utcoffset w p ->
  probe_cached utcoffset w p = Returns (Some p).
Proof.
  unfold probe_not_newer, probe_cached.
  destruct (parse_pdf_datetime_returns (cached_pdf_url p)) as [tc Htc].
  rewrite Htc. cbn [mbind outcome_bind].
  destruct (fetch_latest_pdf_link w) as [[l|]|e]; cbn [mbind outcome_bind].
  - change (default "" (Some l)) with l.
    destruct (parse_pdf_datetime_returns l) as [tl Htl]. rewrite Htl.
    cbn [mbind outcome_bind]. change (default "" (Some l)) with l.
    intros [->|H]; [reflexivity|].
    specialize (H tl tc eq_refl eq_refl).
    destruct (Z.gtb_spec tl tc); [lia|].
    destruct (PyStr.nonempty l); reflexivity.
  - change (default "" None) with "".
    destruct (parse_pdf_datetime_returns "") as [t0 Ht0]. rewrite Ht0.
    reflexivity.
  - reflexivity.
Qed.

Lemma probe_cached_newer (w : World) (p : Payload) :
  probe_newer utcoffset w p -> probe_cached utcoffset w p = Returns None.
Proof.
  intros (l & tl & tc & Hl & Hne & Htl & Htc & Hlt).
  unfold probe_cached. rewrite Htc, Hl. cbn [mbind outcome_bind].
  change (default "" (Some l)) with l.
  rewrite Htl. cbn [mbind outcome_bind]. change (default "" (Some l)) with l.
  apply nonempty_neq in Hne. rewrite Hne.
  destruct (Z.gtb_spec tl tc); [reflexivity | lia].
Qed.

Lemma cached_report_served_aux (w : World) (now : Z) (force : bool)
    (st : CacheState) (p : Payload) :
  fresh_cached now force st = Some p ->
  probe_not_newer utcoffset w p ->
  get_cached_report utcoffset w now force st = (st, Returns p).
Proof.
  intros Hfresh Hprobe. unfold get_cached_report, serve_cached.
  rewrite Hfresh, (probe_cached_not_newer w p Hprobe). reflexivity.
Qed.

(** X6. A fresh cache is served whenever the probe gives no reason to
    refresh: when it raises, when it finds no link, and when the link it
    finds is not stamped after the cached document.  The cache stays as it
    is and the pipeline is not run, whatever it would have answered. *)
Theorem cached_report_served (w : World) (now : Z) (force : bool)
    (st : CacheState) (p : Payload) :
  fresh_cached now force st = Some p ->
  probe_not_newer utcoffset w p ->
  get_cached_report utcoffset w now force st = (st, Returns p).
Proof. apply cached_report_served_aux. Qed.

(** X7. A call that is not forced behaves exactly like a forced one when
    the slot is empty, when the slot is as old as the TTL or older, and
    when the slot is fresh but the probe finds a link stamped after the
    cached document. *)
Theorem refresh_like_forced (w : World) (now : Z) (st : CacheState) :
  data st = None
  \/ CACHE_TTL_SECONDS <= now - last_updated st
  \/ (exists p, data st = Some p /\ probe_newer utcoffset w p) ->
  get_cached_report utcoffset w now false st
  = get_cached_report utcoffset w now true st.
Proof.
  intros H. unfold get_cached_report, serve_cached, fresh_cached.
  destruct (data st) as [p|] eqn:Hd; [|reflexivity].
  cbn [negb andb].
  destruct (Z.ltb_spec (now - last_updated st) CACHE_TTL_SECONDS) as [Hlt|Hge];
    [|reflexivity].
  destruct H as [H|[H|(q & Hq & Hnew)]]; [discriminate | lia |].
  inversion Hq; subst q. rewrite (probe_cached_newer w p Hnew). reflexivity.
Qed.

(** X8. The only exceptions that leave [get_cached_report] are those of
    the full pipeline run: whatever the probe does, if the pipeline
    returns a payload (or is not run), the call returns a payload. *)
Theorem cached_report_raises_only_pipeline (w : World) (now : Z) (force : bool)
    (st : CacheState) (e : exn) :
  snd (get_cached_report utcoffset w now force st) = Raises e ->
  fetch_injury_report w = Raises e.
Proof.
  unfold get_cached_report, serve_cached.
  destruct (fresh_cached now force st) as [p|].
  - unfold probe_cached.
    destruct (parse_pdf_datetime_returns (cached_pdf_url p)) as [tc Htc].
    rewrite Htc. cbn [mbind outcome_bind].
    assert (Hserved : forall o : outcome (option Payload),
               (o = Returns None \/ o = Returns (Some p)) ->
               snd (match o with
                    | Returns (Some p0) => (st, Returns p0)
                    | Returns None =>
                        match fetch_injury_report w with
                        | Returns payload =>
                            if ok payload
                            then (mkCache (Some payload) now, Returns payload)
                            else (st, Returns payload)
                        | Raises e0 => (st, Raises e0)
                        end
                    | Raises e0 => (st, Raises e0)
                    end) = Raises e ->
               fetch_injury_report w = Raises e).
    { intros o [->| ->]; simpl; [|discriminate].
      destruct (fetch_injury_report w) as [payload|e0]; simpl.
      - destruct (ok payload); discriminate.
      - congruence. }
    apply Hserved.
    destruct (fetch_latest_pdf_link w) as [l|e0]; cbn [mbind outcome_bind];
      [|auto].
    destruct (parse_pdf_datetime_returns (default "" l)) as [tl Htl].
    rewrite Htl. cbn [mbind outcome_bind].
    destruct (_ && _); auto.
  - destruct (fetch_injury_report w) as [payload|e0]; simpl.
    + destruct (ok payload); discriminate.
    + congruence.
Qed.

(** X9. What a successful refresh stores is what the next reader gets: after
    a forced call whose pipeline run succeeds at time [now1], a call that
    is not forced, made less than the TTL later, with a probe that gives
    no reason to refresh, returns the stored payload and leaves the cache
    alone. *)
Theorem refreshed_report_is_served (w1 w2 : World) (now1 now2 : Z)
    (st : CacheState) (payload : Payload) :
  fetch_injury_report w1 = Returns payload ->
  ok payload = true ->
  now2 - now1 < CACHE_TTL_SECONDS ->
  probe_not_newer utcoffset w2 payload ->
  let st1 := fst (get_cached_report utcoffset w1 now1 true st) in
  st1 = mkCache (Some payload) now1
  /\ get_cached_report utcoffset w2 now2 false st1 = (st1, Returns payload).
Proof.
  intros Hrun Hok Hage Hprobe. cbv zeta.
  assert (E : fst (get_cached_report utcoffset w1 now1 true st)
              = mkCache (Some payload) now1).
  { unfold get_cached_report, serve_cached, fresh_cached.
    destruct (data st); cbn [negb andb]; rewrite Hrun, Hok; reflexivity. }
  rewrite E. split; [reflexivity|].
  apply cached_report_served_aux; [|exact Hprobe].
  unfold fresh_cached. cbn [data last_updated negb andb].
  destruct (Z.ltb_spec (now2 - now1) CACHE_TTL_SECONDS); [reflexivity | lia].
Qed.

End CacheBehaviour.

Lemma cached_report_served_witness :
  get_cached_report (fun _ => 0) world_offline 200 false
    (mkCache (Some kept_payload) 100)
  = (mkCache (Some kept_payload) 100, Returns kept_payload).
Proof.
  apply (cached_report_served (fun _ => 0) world_offline 200 false
           (mkCache (Some kept_payload) 100) kept_payload).
  - reflexivity.
  - exact I.
Defined.

Lemma refresh_like_forced_witness :
  get_cached_report (fun _ => 0) world_fresh_report 200 false CACHE_STATE_initial
  = get_cached_report (fun _ => 0) world_fresh_report 200 true CACHE_STATE_initial.
Proof.
  apply (refresh_like_forced (fun _ => 0) world_fresh_report 200
           CACHE_STATE_initial).
  left. reflexivity.
Defined.

Lemma cached_report_raises_only_pipeline_witness :
  fetch_injury_report world_offline = Raises (OtherError "ConnectionError").
Proof.
  apply (cached_report_raises_only_pipeline (fun _ => 0) world_offline 200 true
           CACHE_STATE_initial (OtherError "ConnectionError")).
  reflexivity.
Defined.

Lemma refreshed_report_is_served_witness :
  fst (get_cached_report (fun _ => 0) world_fresh_report 100 true CACHE_STATE_initial)
  = mkCache (Some kept_payload) 100
  /\ get_cached_report (fun _ => 0) world_offline 200 false
       (fst (get_cached_report (fun _ => 0) world_fresh_report 100 true
               CACHE_STATE_initial))
     = (fst (get_cached_report (fun _ => 0) world_fresh_report 100 true
               CACHE_STATE_initial),
        Returns kept_payload).
Proof.
  apply (refreshed_report_is_served (fun _ => 0) world_fresh_report world_offline
           100 200 CACHE_STATE_initial kept_payload).
  - reflexivity.
  - reflexivity.
  - reflexivity.
  - exact I.
Defined.

(** ** Links *)

Section LinkFacts.

Local Open Scope list_scope.

Variable utcoffset : Z -> Z.

Lemma link_time_returns (link : string) :
  parse_pdf_datetime utcoffset link = Returns (link_time utcoffset link).
Proof.
  unfold link_time.
  destruct (parse_pdf_datetime_returns utcoffset link) as [v Hv].
  rewrite Hv. reflexivity.
Qed.

Lemma keyed_links_returns (links : list string) :
  keyed_links utcoffset links
  = Returns (map (fun l => ((link_time utcoffset l, on_mirror l), l)) links).
Proof.
  induction links as [|l links IH]; [reflexivity|].
  cbn [keyed_links]. unfold link_key. rewrite link_time_returns.
  cbn [mbind outcome_bind]. rewrite IH. reflexivity.
Qed.

Lemma key_lt_irrefl (a : Z * bool) : key_lt a a = false.
Proof.
  unfold key_lt. rewrite Z.ltb_irrefl, Z.eqb_refl. destruct (snd a); reflexivity.
Qed.

(** [b] is not below [a], and [c] is not below [b]: then [c] is not below
    [a]. *)
Lemma key_ge_trans (a b c : Z * bool) :
  key_lt a b = false -> key_lt b c = false -> key_lt a c = false.
Proof.
  destruct a as [a1 a2], b as [b1 b2], c as [c1 c2]. unfold key_lt. simpl.
  rewrite !orb_false_iff, !andb_false_iff, !Z.ltb_ge, !Z.eqb_neq,
    !negb_false_iff.
  intros [H1 H2] [H3 H4].
  split; [lia|].
  destruct (Z.eq_dec a1 c1) as [E|E]; [|tauto].
  assert (a1 = b1) by lia. assert (b1 = c1) by lia.
  destruct a2, b2, c2; intuition congruence.
Qed.

Lemma key_lt_asym (a b : Z * bool) : key_lt a b = true -> key_lt b a = false.
Proof.
  destruct a as [a1 a2], b as [b1 b2]. unfold key_lt. simpl.
  destruct (Z.ltb_spec a1 b1), (Z.ltb_spec b1 a1), (Z.eqb_spec a1 b1),
    (Z.eqb_spec b1 a1), a2, b2; simpl; try reflexivity; try discriminate;
    intros; lia.
Qed.

(** The head of the sorted list is an element that none is above. *)
Lemma sort_desc_head (l : list ((Z * bool) * string)) :
  l <> [] ->
  exists top,
    head (sort_desc l) = Some top /\ In top l
    /\ forall y, In y l -> key_lt (fst top) (fst y) = false.
Proof.
  induction l as [|x l IH]; [congruence|]. intros _.
  destruct l as [|x' l].
  - exists x. simpl. split; [reflexivity|]. split; [auto|].
    intros y [<-|[]]. apply key_lt_irrefl.
  - destruct IH as (top & Hh & Hin & Hmax); [discriminate|].
    change (sort_desc (x :: x' :: l)) with (insert_desc x (sort_desc (x' :: l))).
    destruct (sort_desc (x' :: l)) as [|t rest]; [discriminate|].
    simpl in Hh. inversion Hh; subst t. cbn [insert_desc].
    destruct (key_lt (fst x) (fst top)) eqn:E.
    + exists top. split; [reflexivity|]. split; [right; exact Hin|].
      intros y [<-|Hy]; [apply key_lt_asym, E | apply Hmax, Hy].
    + exists x. split; [reflexivity|]. split; [left; reflexivity|].
      intros y [<-|Hy]; [apply key_lt_irrefl|].
      eapply key_ge_trans; [exact E | apply Hmax, Hy].
Qed.

(** X10. [prefer_link] never raises.  Of an empty list it returns nothing;
    otherwise it returns one of the links, none of the others has a later
    time stamp, and none with the same time stamp is on the mirror host
    unless the returned one is. *)
Theorem prefer_link_best (links : list string) :
  match links with
  | [] => prefer_link utcoffset links = Returns None
  | _ =>
      exists best,
        prefer_link utcoffset links = Returns (Some best)
        /\ In best links
        /\ forall l, In l links ->
             link_time utcoffset l <= link_time utcoffset best
             /\ (link_time utcoffset l = link_time utcoffset best ->
                 on_mirror l = true -> on_mirror best = true)
  end.
Proof.
  destruct links as [|l0 links]; [reflexivity|].
  unfold prefer_link. rewrite keyed_links_returns. cbn [mbind outcome_bind].
  set (keyed := map _ (l0 :: links)).
  destruct (sort_desc_head keyed) as (top & Hh & Hin & Hmax); [discriminate|].
  rewrite Hh. cbn [option_map].
  apply in_map_iff in Hin. destruct Hin as (best & Htop & Hbest).
  subst top. cbn [snd]. exists best. split; [reflexivity|]. split; [exact Hbest|].
  intros l Hl.
  assert (H : key_lt (link_time utcoffset best, on_mirror best)
                     (link_time utcoffset l, on_mirror l) = false).
  { apply (Hmax ((link_time utcoffset l, on_mirror l), l)).
    apply in_map_iff. exists l. auto. }
  unfold key_lt in H. cbn [fst snd] in H.
  apply orb_false_iff in H as [H1 H2]. apply Z.ltb_ge in H1.
  split; [exact H1|]. intros E Hm. rewrite E, Z.eqb_refl, Hm in H2.
  destruct (on_mirror best); [reflexivity | discriminate].
Qed.

(** *** File names *)

Lemma all_chars_rev_acc (p : ascii -> bool) (s acc : string) :
  all_chars p s = true -> all_chars p acc = true ->
  all_chars p (PyStr.rev_acc s acc) = true.
Proof.
  revert acc. induction s as [|c s IH]; intros acc; simpl; [auto|].
  rewrite andb_true_iff. intros [Hc Hs] Hacc. apply IH; [exact Hs|].
  simpl. rewrite Hc. exact Hacc.
Qed.

Lemma last_segment_aux_no_slash (s acc : string) :
  no_slash acc = true -> no_slash (last_segment_aux s acc) = true.
Proof.
  revert acc. induction s as [|c s IH]; intros acc Hacc; simpl.
  - apply all_chars_rev_acc; [exact Hacc | reflexivity].
  - destruct (Ascii.eqb c "/") eqn:E; apply IH; [reflexivity|].
    unfold no_slash. simpl. rewrite E. exact Hacc.
Qed.

Lemma last_segment_no_slash (url : string) : no_slash (last_segment url) = true.
Proof. apply last_segment_aux_no_slash. reflexivity. Qed.

Lemma last_segment_aux_of_name (f acc : string) :
  no_slash f = true -> last_segment_aux f acc = PyStr.rev_acc acc f.
Proof.
  unfold no_slash.
  revert acc. induction f as [|c f IH]; intros acc; simpl; [reflexivity|].
  rewrite andb_true_iff. intros [Hc Hf]. apply negb_true_iff in Hc.
  rewrite Hc. rewrite IH by exact Hf. reflexivity.
Qed.

(** The last segment of the mirror address of a file name is that name. *)
Lemma last_segment_mirror (f : string) :
  no_slash f = true ->
  last_segment ("https://ak-static.cms.nba.com/referee/injury/" ++ f) = f.
Proof.
  intros Hf. unfold last_segment. simpl.
  rewrite last_segment_aux_of_name by exact Hf. reflexivity.
Qed.

Lemma parse_pdf_datetime_by_name (a b : string) :
  last_segment a = last_segment b ->
  parse_pdf_datetime utcoffset a = parse_pdf_datetime utcoffset b.
Proof.
  intros E. unfold parse_pdf_datetime. rewrite !parse_pdf_time_parts_spec, E.
  reflexivity.
Qed.

Lemma parse_pdf_time_label_by_name (a b : string) :
  last_segment a = last_segment b ->
  parse_pdf_time_label a = parse_pdf_time_label b.
Proof.
  intros E. unfold parse_pdf_time_label. rewrite !parse_pdf_time_parts_spec, E.
  reflexivity.
Qed.

(** X11. The fallback address of a link that has a file name is on the
    mirror host and ends in the same file name, so it has the same time
    stamp, the same report-time label and the same game date; and the
    fallback of the fallback is the fallback itself. *)
Theorem fallback_keeps_file_name (url : string) :
  last_segment url <> "" ->
  exists mirror,
    fallback_pdf_url url = Some mirror
    /\ last_segment mirror = last_segment url
    /\ on_mirror mirror = true
    /\ parse_pdf_datetime utcoffset mirror = parse_pdf_datetime utcoffset url
    /\ parse_pdf_time_label mirror = parse_pdf_time_label url
    /\ parse_pdf_date mirror = parse_pdf_date url
    /\ fallback_pdf_url mirror = Some mirror.
Proof.
  intros Hname. apply nonempty_neq in Hname.
  pose proof (last_segment_mirror (last_segment url) (last_segment_no_slash url))
    as Hseg.
  unfold fallback_pdf_url at 1. rewrite Hname. cbn [negb].
  eexists. split; [reflexivity|]. split; [exact Hseg|]. split; [reflexivity|].
  split; [apply parse_pdf_datetime_by_name, Hseg|].
  split; [apply parse_pdf_time_label_by_name, Hseg|].
  split.
  - unfold parse_pdf_date. rewrite Hseg. reflexivity.
  - unfold fallback_pdf_url. rewrite Hseg, Hname. reflexivity.
Qed.

End LinkFacts.

Lemma fallback_keeps_file_name_witness :
  exists mirror,
    fallback_pdf_url "https://official.nba.com/wp/Injury-Report_2026-02-08_03_45AM.pdf"
    = Some mirror
    /\ last_segment mirror = "Injury-Report_2026-02-08_03_45AM.pdf".
Proof.
  destruct (fallback_keeps_file_name (fun _ => 0)
              "https://official.nba.com/wp/Injury-Report_2026-02-08_03_45AM.pdf")
    as (mirror & H1 & H2 & _).
  - discriminate.
  - exists mirror. split; [exact H1 | exact H2].
Defined.

Section GameDateFacts.

Lemma four_chars (s : string) :
  String.length s = 4%nat ->
  exists a b c d, s = String a (String b (String c (String d EmptyString))).
Proof.
  destruct s as [|a [|b [|c [|d [|e s]]]]]; simpl; try discriminate.
  intros _. eauto.
Qed.

Lemma two_chars (s : string) :
  String.length s = 2%nat -> exists a b, s = String a (String b EmptyString).
Proof.
  destruct s as [|a [|b [|c s]]]; simpl; try discriminate. intros _. eauto.
Qed.

Lemma digit_in_class (c : ascii) :
  PyStr.is_digit c = true -> Re.class_has false [Re.Digit] c = true.
Proof. intros H. unfold Re.class_has, Re.set_has. simpl. rewrite H. reflexivity. Qed.

(** X12. The game date is read back from the file name: for a name that
    begins Injury-Report_YYYY-MM-DD_ , whatever follows, [parse_pdf_date]
    returns MM/DD/YYYY. *)
Theorem parse_pdf_date_reads_name (url y m d rest : string) :
  String.length y = 4%nat -> all_chars PyStr.is_digit y = true ->
  String.length m = 2%nat -> all_chars PyStr.is_digit m = true ->
  String.length d = 2%nat -> all_chars PyStr.is_digit d = true ->
  last_segment url = "Injury-Report_" ++ y ++ "-" ++ m ++ "-" ++ d ++ "_" ++ rest ->
  parse_pdf_date url = m ++ "/" ++ d ++ "/" ++ y.
Proof.
  intros Ly Hy Lm Hm Ld Hd Hname.
  destruct (four_chars y Ly) as (y1 & y2 & y3 & y4 & ->).
  destruct (two_chars m Lm) as (m1 & m2 & ->).
  destruct (two_chars d Ld) as (d1 & d2 & ->).
  simpl in Hy, Hm, Hd.
  repeat match goal with
         | H : _ && _ = true |- _ => apply andb_true_iff in H as [? ?]
         end.
  repeat match goal with
         | H : PyStr.is_digit _ = true |- _ => apply digit_in_class in H
         end.
  unfold parse_pdf_date. rewrite Hname.
  unfold Re.search, pdf_date_regex, Re.times.
  Local Opaque Re.class_has.
  lazy.
  repeat match goal with
         | H : Re.class_has false [Re.Digit] ?c = true |- _ =>
             rewrite H; clear H; lazy
         end.
  reflexivity.
  Local Transparent Re.class_has.
Qed.

End GameDateFacts.

Lemma parse_pdf_date_reads_name_witness :
  parse_pdf_date "https://official.nba.com/wp/Injury-Report_2026-02-08_03_45AM.pdf"
  = "02/08/2026".
Proof.
  apply (parse_pdf_date_reads_name
           "https://official.nba.com/wp/Injury-Report_2026-02-08_03_45AM.pdf"
           "2026" "02" "08" "03_45AM.pdf"); reflexivity.
Defined.
(* ===================================================================== *)
(** * Filtering and ordering rows for display *)
(* ===================================================================== *)

Section DisplayFacts.

Local Open Scope list_scope.

Lemma stripped_choices_blank (xs : list string) :
  blank_choices xs -> stripped_choices xs = [].
Proof.
  unfold blank_choices, stripped_choices.
  induction 1 as [|x xs Hx _ IH]; [reflexivity|].
  cbn [List.filter]. rewrite Hx. cbn [PyStr.nonempty].
  rewrite andb_false_r. exact IH.
Qed.

Lemma chosen_in (x : string) (choices : list string) :
  chosen x choices = true <-> In x choices.
Proof.
  unfold chosen. rewrite existsb_exists. split.
  - intros (y & Hin & Heq). apply String.eqb_eq in Heq. now subst.
  - intros Hin. exists x. split; [exact Hin | apply String.eqb_refl].
Qed.

Lemma stripped_choices_in (x : string) (xs : list string) :
  In x (stripped_choices xs) -> In x (map PyStr.strip xs).
Proof.
  unfold stripped_choices. rewrite !in_map_iff.
  intros (y & Hy & Hin). apply filter_In in Hin as [Hin _]. eauto.
Qed.

Lemma filter_all {A : Type} (f : A -> bool) (l : list A) :
  (forall x, f x = true) -> List.filter f l = l.
Proof.
  intros Hf. induction l as [|x l IH]; [reflexivity|].
  cbn [List.filter]. now rewrite Hf, IH.
Qed.

Lemma filter_twice {A : Type} (f : A -> bool) (l : list A) :
  List.filter f (List.filter f l) = List.filter f l.
Proof.
  induction l as [|x l IH]; [reflexivity|].
  cbn [List.filter]. destruct (f x) eqn:Hx; [|exact IH].
  cbn [List.filter]. now rewrite Hx, IH.
Qed.

Lemma filter_and {A : Type} (f g : A -> bool) (l : list A) :
  List.filter (fun x => f x && g x) l = List.filter g (List.filter f l).
Proof.
  induction l as [|x l IH]; [reflexivity|].
  cbn [List.filter]. destruct (f x); cbn [andb List.filter].
  - destruct (g x); now rewrite IH.
  - exact IH.
Qed.

Lemma filter_sublist {A : Type} (f : A -> bool) (l : list A) :
  sublist (List.filter f l) l.
Proof.
  induction l as [|x l IH]; [constructor|].
  cbn [List.filter]. destruct (f x); now constructor.
Qed.

Lemma filter_rows_filter (rows : list Row) (q : option string)
  (ts ss : list string) :
  filter_rows rows q ts ss =
  List.filter (row_passes (query_of q) (stripped_choices ts) (stripped_choices ss))
              rows.
Proof. destruct rows; reflexivity. Qed.

Lemma row_passes_no_criteria (r : Row) : row_passes "" [] [] r = true.
Proof. reflexivity. Qed.

(** X13. [filter_rows]: the rows kept are a subsequence of the rows given, in
    their order; a kept row's stripped team is one of the stripped team
    choices when some choice is not blank, likewise its status, and its
    lower-cased player contains the lower-cased query when the query is not
    blank; and filtering the result again with the same criteria changes
    nothing. *)
Theorem filter_rows_selects (rows : list Row) (q : option string)
  (ts ss : list string) :
  sublist (filter_rows rows q ts ss) rows
  /\ (forall r, In r (filter_rows rows q ts ss) ->
        (stripped_choices ts <> [] ->
           In (PyStr.strip (team r)) (map PyStr.strip ts))
        /\ (stripped_choices ss <> [] ->
           In (PyStr.strip (status r)) (map PyStr.strip ss))
        /\ (query_of q <> "" ->
           PyStr.contains (query_of q)
             (PyStr.lower (PyStr.strip (player r))) = true))
  /\ filter_rows (filter_rows rows q ts ss) q ts ss = filter_rows rows q ts ss.
Proof.
  rewrite !filter_rows_filter. split; [apply filter_sublist|]. split.
  - intros r Hin. apply filter_In in Hin as [_ Hp].
    unfold row_passes in Hp.
    apply andb_prop in Hp as [Hp Hs]. apply andb_prop in Hp as [Hq Ht].
    repeat split.
    + intros Hne. apply stripped_choices_in, chosen_in.
      destruct (stripped_choices ts); [congruence|].
      cbn [no_choice negb andb] in Ht.
      destruct (chosen (PyStr.strip (team r)) _);
        [reflexivity | exfalso; clear -Ht; discriminate].
    + intros Hne. apply stripped_choices_in, chosen_in.
      destruct (stripped_choices ss); [congruence|].
      cbn [no_choice negb andb] in Hs.
      destruct (chosen (PyStr.strip (status r)) _);
        [reflexivity | exfalso; clear -Hs; discriminate].
    + intros Hne. destruct (query_of q); [congruence|].
      cbn [PyStr.nonempty andb] in Hq.
      now destruct (PyStr.contains _ _).
  - apply filter_twice.
Qed.

(** X14. [filter_rows]: with a query that is missing or blank and with no
    team and no status choice other than blank ones, every row is kept. *)
Theorem filter_rows_blank_criteria (rows : list Row) (q : option string)
  (ts ss : list string) :
  PyStr.strip (default "" q) = "" ->
  blank_choices ts ->
  blank_choices ss ->
  filter_rows rows q ts ss = rows.
Proof.
  intros Hq Ht Hs. rewrite filter_rows_filter.
  unfold query_of. rewrite Hq.
  rewrite (stripped_choices_blank _ Ht), (stripped_choices_blank _ Hs).
  apply filter_all, row_passes_no_criteria.
Qed.

(** X15. [filter_rows]: the three criteria act independently: filtering by
    query, teams and statuses at once gives the rows that filtering by the
    query alone, then by the teams alone, then by the statuses alone
    gives. *)
Theorem filter_rows_one_by_one (rows : list Row) (q : option string)
  (ts ss : list string) :
  filter_rows rows q ts ss =
  filter_rows (filter_rows (filter_rows rows q [] []) None ts []) None [] ss.
Proof.
  rewrite !filter_rows_filter.
  rewrite <- !filter_and. apply filter_ext. intros r.
  unfold row_passes, query_of. cbn [default stripped_choices List.filter map].
  change (PyStr.lower (PyStr.strip "")) with "".
  cbn [PyStr.nonempty no_choice negb andb].
  rewrite !andb_true_r. now rewrite andb_assoc.
Qed.

(* --------------------------------------------------------------------- *)

Lemma str_le_total (a b : string) : str_le a b = false -> str_le b a = true.
Proof.
  revert b. induction a as [|x a IH]; intros [|y b]; cbn [str_le];
    try congruence.
  destruct (N.ltb_spec (PyStr.code x) (PyStr.code y)); [congruence|].
  destruct (N.ltb_spec (PyStr.code y) (PyStr.code x)); [reflexivity|].
  apply IH.
Qed.

Lemma display_key_le_total (a b : N * nat * string) :
  display_key_le a b = false -> display_key_le b a = true.
Proof.
  destruct a as [[a1 a2] a3], b as [[b1 b2] b3]. unfold display_key_le.
  destruct (N.ltb_spec a1 b1), (N.ltb_spec b1 a1),
    (N.eqb_spec a1 b1), (N.eqb_spec b1 a1); try lia;
    cbn [orb andb]; try congruence.
  destruct (Nat.ltb_spec a2 b2), (Nat.ltb_spec b2 a2),
    (Nat.eqb_spec a2 b2), (Nat.eqb_spec b2 a2); try lia;
    cbn [orb andb]; try congruence.
  apply str_le_total.
Qed.

Lemma insert_by_perm {A : Type} (le : A -> A -> bool) (x : A) (l : list A) :
  Permutation (insert_by le x l) (x :: l).
Proof.
  induction l as [|y l IH]; [reflexivity|].
  cbn [insert_by]. destruct (le x y); [reflexivity|].
  rewrite IH. apply perm_swap.
Qed.

Lemma sorted_by_perm {A : Type} (le : A -> A -> bool) (l : list A) :
  Permutation (sorted_by le l) l.
Proof.
  induction l as [|x l IH]; [reflexivity|].
  cbn [sorted_by]. rewrite insert_by_perm. now constructor.
Qed.

Lemma insert_by_ascending {A : Type} (le : A -> A -> bool) (x : A) (l : list A) :
  (forall a b, le a b = false -> le b a = true) ->
  ascending le l -> ascending le (insert_by le x l).
Proof.
  intros Htot. induction l as [|y l IH]; intros Hl.
  - cbn. auto.
  - cbn [insert_by]. destruct (le x y) eqn:Hxy.
    + cbn [ascending]. split; [exact Hxy | exact Hl].
    + destruct Hl as [Hy Hl]. specialize (IH Hl).
      cbn [ascending]. split; [|exact IH].
      destruct l as [|z l]; cbn [insert_by].
      * now apply Htot.
      * destruct (le x z); [now apply Htot | exact Hy].
Qed.

Lemma sorted_by_ascending {A : Type} (le : A -> A -> bool) (l : list A) :
  (forall a b, le a b = false -> le b a = true) ->
  ascending le (sorted_by le l).
Proof.
  intros Htot. induction l as [|x l IH]; [exact I|].
  cbn [sorted_by]. now apply insert_by_ascending.
Qed.

(** What [team_blocks] records for a key: what was recorded before, or else
    the index of the first of the rows that has the key. *)
Lemma team_blocks_lookup (rows : list Row) (idx : N)
  (order : gmap (string * string) N) (k : string * string) :
  team_blocks rows idx order !! k =
  match order !! k with
  | Some v => Some v
  | None =>
      (fun i => (idx + N.of_nat i)%N) <$>
        list_find (fun ky => ky = k) (map team_key rows) ≫= (fun p => Some p.1)
  end.
Proof.
  revert idx order. induction rows as [|r rows IH]; intros idx order.
  - cbn. now destruct (order !! k).
  - cbn [team_blocks map]. rewrite IH. clear IH.
    cbn [list_find]. destruct (decide (team_key r = k)) as [Heq|Hne].
    + subst k. cbn. destruct (order !! team_key r) eqn:Ho.
      * now rewrite Ho.
      * rewrite lookup_insert_eq. f_equal. lia.
    + assert (Hsame : (match order !! team_key r with
                       | Some _ => order
                       | None => <[team_key r:=idx]> order
                       end) !! k = order !! k).
      { destruct (order !! team_key r); [reflexivity|].
        now rewrite lookup_insert_ne. }
      rewrite Hsame. destruct (order !! k); [reflexivity|].
      destruct (list_find _ (map team_key rows)) as [[i ky]|]; cbn; [|reflexivity].
      f_equal. lia.
Qed.

(** X16. [sort_rows_for_display]: the result holds the same rows as the
    input, each as often, arranged in ascending order of the display key
    (team block, status rank, upper-cased player) taken with the team blocks
    of the input. *)
Theorem sort_rows_for_display_orders (rows : list Row) :
  Permutation (sort_rows_for_display rows) rows
  /\ ascending (fun a b => display_key_le
                             (display_key (team_blocks rows 0%N ∅) a)
                             (display_key (team_blocks rows 0%N ∅) b))
               (sort_rows_for_display rows).
Proof.
  destruct rows as [|r rows]; [split; [reflexivity | exact I]|].
  unfold sort_rows_for_display. split.
  - apply sorted_by_perm.
  - apply sorted_by_ascending. intros a b. apply display_key_le_total.
Qed.

(** X17. [sort_rows_for_display]: the team block of a row of the input is
    the index of the first input row with the same upper-cased (matchup,
    team) pair, so the fallback block [10**9] is never used for it. *)
Theorem team_block_is_first_index (rows : list Row) (r : Row) :
  In r rows ->
  exists (i : nat) (r0 : Row),
    team_blocks rows 0%N ∅ !! team_key r = Some (N.of_nat i)
    /\ rows !! i = Some r0
    /\ team_key r0 = team_key r
    /\ (forall (j : nat) (r' : Row),
          (j < i)%nat -> rows !! j = Some r' -> team_key r' <> team_key r)
    /\ fst (fst (display_key (team_blocks rows 0%N ∅) r)) = N.of_nat i.
Proof.
  intros Hin.
  assert (Hex : exists ky, In ky (map team_key rows) /\ ky = team_key r).
  { exists (team_key r). split; [now apply in_map | reflexivity]. }
  destruct Hex as (ky & Hky & Heq).
  apply list_elem_of_In in Hky.
  destruct (list_find_elem_of (fun ky => ky = team_key r) _ _ Hky Heq)
    as [[i k] Hfind].
  pose proof Hfind as Hspec. apply list_find_Some in Hspec as (Hlk & Hk & Hfirst).
  rewrite list_lookup_fmap in Hlk.
  destruct (rows !! i) as [r0|] eqn:Hr0; [|discriminate].
  cbn in Hlk. injection Hlk as Hlk.
  assert (Hblock : team_blocks rows 0%N ∅ !! team_key r = Some (N.of_nat i)).
  { rewrite team_blocks_lookup, lookup_empty.
    change (map team_key rows) with (team_key <$> rows) in *.
    rewrite Hfind. reflexivity. }
  exists i, r0. split; [exact Hblock|]. split; [exact Hr0|].
  split; [congruence|]. split.
  - intros j r' Hj Hr'. apply (Hfirst j); [|exact Hj].
    change (map team_key rows) with (team_key <$> rows).
    rewrite list_lookup_fmap, Hr'. reflexivity.
  - unfold display_key. cbn [fst]. now rewrite Hblock.
Qed.

End DisplayFacts.

Lemma filter_rows_blank_criteria_witness :
  filter_rows [test_row_heat; test_row_wizards] (Some "  ") [""; " "] []
  = [test_row_heat; test_row_wizards].
Proof.
  apply filter_rows_blank_criteria.
  - reflexivity.
  - repeat constructor.
  - constructor.
Defined.

Lemma team_block_is_first_index_witness :
  exists (i : nat) (r0 : Row),
    team_blocks [test_row_heat; test_row_wizards] 0%N ∅
      !! team_key test_row_wizards = Some (N.of_nat i)
    /\ [test_row_heat; test_row_wizards] !! i = Some r0
    /\ team_key r0 = team_key test_row_wizards
    /\ (forall (j : nat) (r' : Row),
          (j < i)%nat -> [test_row_heat; test_row_wizards] !! j = Some r' ->
          team_key r' <> team_key test_row_wizards)
    /\ fst (fst (display_key (team_blocks [test_row_heat; test_row_wizards] 0%N ∅)
                   test_row_wizards)) = N.of_nat i.
Proof.
  apply (team_block_is_first_index [test_row_heat; test_row_wizards]
           test_row_wizards).
  right. left. reflexivity.
Defined.
(* ===================================================================== *)
(** * Fetching with retries *)
(* ===================================================================== *)

Section RetryFacts.

Local Open Scope list_scope.
Local Open Scope nat_scope.

Variable get : nat -> outcome Response.

(** A run of failed attempts below [retries]: each one is followed by its
    sleep, and the error kept is that of the last one. *)
Lemma fetch_attempts_failures (retries : nat) (rest : list nat) :
  forall (n a : nat) (last_error : option exn) (slept : list nat),
    a + n <= retries ->
    (forall j, a <= j < a + n -> exists exc, try_get get j = Raises exc) ->
    exists last_error',
      fetch_attempts get retries (seq a n ++ rest) last_error slept =
      fetch_attempts get retries rest last_error' (slept ++ map S (seq a n))
      /\ (n = 0 -> last_error' = last_error)
      /\ (0 < n -> try_get get (a + n - 1) = raise_last last_error').
Proof.
  induction n as [|n IH]; intros a last_error slept Hle Hfail.
  - exists last_error. cbn [seq map app]. rewrite app_nil_r.
    split; [reflexivity|]. split; [reflexivity | lia].
  - cbn [seq app fetch_attempts].
    destruct (Hfail a ltac:(lia)) as [exc Hexc]. rewrite Hexc.
    assert (Hlt : (a <? retries) = true) by (apply Nat.ltb_lt; lia).
    rewrite Hlt.
    destruct (IH (S a) (Some exc) (slept ++ [S a]) ltac:(lia)) as
      (le' & Hrun & Hzero & Hpos).
    { intros j Hj. apply Hfail. lia. }
    exists le'. split; [|split].
    + rewrite Hrun. cbn [map]. now rewrite <- app_assoc.
    + lia.
    + intros _. destruct n as [|n].
      * rewrite (Hzero eq_refl). replace (a + 1 - 1) with a by lia.
        exact Hexc.
      * replace (a + S (S n) - 1) with (S a + S n - 1) by lia.
        apply Hpos. lia.
Qed.

(** X18. [fetch_with_retry]: when attempt [i], not beyond [retries], is the
    first whose request returns a response with no error status, that
    response is returned, and the sleeps before it had the factors
    1, 2, ..., i of the delay. *)
Theorem fetch_with_retry_first_success (retries i : nat) (response : Response) :
  i <= retries ->
  get i = Returns response ->
  succeeds response ->
  (forall j, j < i -> exists exc, try_get get j = Raises exc) ->
  fetch_with_retry get retries = (sleep_factors i, Returns response).
Proof.
  intros Hle Hget Hok Hfail. unfold fetch_with_retry.
  replace (retries + 1) with (i + (S (retries - i))) by lia.
  rewrite seq_app.
  destruct (fetch_attempts_failures retries (seq (0 + i) (S (retries - i)))
              i 0 None []) as (le' & Hrun & _ & _).
  - lia.
  - intros j Hj. apply Hfail. lia.
  - rewrite Hrun. cbn [seq fetch_attempts plus].
    unfold try_get. rewrite Hget. cbn. rewrite Hok. reflexivity.
Qed.

(** X19. [fetch_with_retry]: when all [retries + 1] attempts fail, the
    error raised is that of the last attempt, after sleeps of factors
    1, ..., retries: there is no sleep after the last attempt, and the
    [raise] never meets an empty [last_error]. *)
Theorem fetch_with_retry_gives_up (retries : nat) :
  (forall j, j <= retries -> exists exc, try_get get j = Raises exc) ->
  exists exc,
    try_get get retries = Raises exc
    /\ fetch_with_retry get retries = (sleep_factors retries, Raises exc).
Proof.
  intros Hfail. unfold fetch_with_retry.
  destruct (Hfail retries (le_n _)) as [exc Hexc].
  exists exc. split; [exact Hexc|].
  rewrite seq_app.
  destruct (fetch_attempts_failures retries (seq (0 + retries) 1)
              retries 0 None []) as (le' & Hrun & _ & _).
  - lia.
  - intros j Hj. apply Hfail. lia.
  - rewrite Hrun. cbn [seq fetch_attempts plus]. rewrite Hexc.
    rewrite Nat.ltb_irrefl. reflexivity.
Qed.

Variable warm : nat -> outcome unit.

(** A run of attempts answered 403 whose warm-up requests succeed: the
    error kept does not change and every attempt is followed by a sleep. *)
Lemma fetch_pdf_attempts_forbidden (retries : nat) (rest : list nat) :
  forall (n a : nat) (last_error : option exn) (slept : list nat),
    (forall j, a <= j < a + n ->
       exists response, get j = Returns response
                        /\ status_code response = 403%Z
                        /\ warm j = Returns tt) ->
    fetch_pdf_attempts get warm retries (seq a n ++ rest) last_error slept =
    fetch_pdf_attempts get warm retries rest last_error (slept ++ map S (seq a n)).
Proof.
  induction n as [|n IH]; intros a last_error slept Hall.
  - cbn [seq map app]. now rewrite app_nil_r.
  - cbn [seq app fetch_pdf_attempts].
    destruct (Hall a ltac:(lia)) as (response & Hget & Hcode & Hwarm).
    rewrite Hget, Hcode, Hwarm. cbn [Z.eqb Pos.eqb].
    rewrite IH by (intros j Hj; apply Hall; lia).
    cbn [map]. now rewrite <- app_assoc.
Qed.

(** X20. [fetch_pdf_with_retry]: when every attempt is answered with
    status 403 and every warm-up request goes through, no exception was
    ever stored, so the final [raise last_error] raises [None]: a
    [TypeError], not an HTTP error; and a sleep follows every attempt, the
    last one included. *)
Theorem fetch_pdf_with_retry_all_forbidden (retries : nat) :
  (forall j, j <= retries ->
     exists response, get j = Returns response
                      /\ status_code response = 403%Z
                      /\ warm j = Returns tt) ->
  fetch_pdf_with_retry get warm retries =
  (sleep_factors (retries + 1), Raises (OtherError "TypeError")).
Proof.
  intros Hall. unfold fetch_pdf_with_retry.
  rewrite <- (app_nil_r (seq 0 (retries + 1))).
  rewrite fetch_pdf_attempts_forbidden by (intros j Hj; apply Hall; lia).
  reflexivity.
Qed.

End RetryFacts.

Lemma fetch_with_retry_first_success_witness :
  fetch_with_retry
    (fun attempt => if (attempt <? 2)%nat then Raises (OtherError "ConnectionError")
                    else Returns (mkResponse 200 "ok")) 3
  = (sleep_factors 2, Returns (mkResponse 200 "ok")).
Proof.
  apply fetch_with_retry_first_success.
  - lia.
  - reflexivity.
  - reflexivity.
  - intros j Hj. exists (OtherError "ConnectionError").
    unfold try_get. destruct (Nat.ltb_spec j 2); [reflexivity | lia].
Defined.

Lemma fetch_with_retry_gives_up_witness :
  exists exc,
    try_get (fun _ => Returns (mkResponse 503 "")) 2 = Raises exc
    /\ fetch_with_retry (fun _ => Returns (mkResponse 503 "")) 2
       = (sleep_factors 2, Raises exc).
Proof.
  apply fetch_with_retry_gives_up.
  intros j _. exists (OtherError "HTTPError"). reflexivity.
Defined.

Lemma fetch_pdf_with_retry_all_forbidden_witness :
  fetch_pdf_with_retry (fun _ => Returns (mkResponse 403 ""))
                       (fun _ => Returns tt) 3
  = (sleep_factors 4, Raises (OtherError "TypeError")).
Proof.
  apply fetch_pdf_with_retry_all_forbidden.
  intros j _. exists (mkResponse 403 ""). repeat split.
Defined.
(* ===================================================================== *)
(** * From the download to the payload *)
(* ===================================================================== *)

Section PipelineFacts.

Local Open Scope list_scope.

Variable utcoffset : Z -> Z.
Variables utc_date utc_iso : Z -> string.

Lemma origin_le_trans (a b c : Z * Z) :
  origin_le a b -> origin_le b c -> origin_le a c.
Proof.
  unfold origin_le. destruct a as [a1 a2], b as [b1 b2], c as [c1 c2].
  cbn [fst snd].
  rewrite !orb_true_iff, !andb_true_iff, !Z.ltb_lt, !Z.eqb_eq, !Z.leb_le.
  lia.
Qed.

Lemma rows_sorted_ascending (l : list Row) :
  rows_sorted l -> origins_ascending (map row_origin l).
Proof.
  induction l as [|x l IH]; intros Hl; [exact I|].
  destruct Hl as [Hhead Hl]. specialize (IH Hl).
  cbn [map origins_ascending]. split; [|exact IH].
  destruct l as [|y l]; [constructor|].
  cbn [map origins_ascending] in *. destruct IH as [Hy _].
  constructor; [exact Hhead|].
  eapply Forall_impl; [exact Hy|].
  intros z Hz. apply (origin_le_trans _ (row_origin y)); [exact Hhead | exact Hz].
Qed.

Lemma ascending_rows_sorted (l : list Row) :
  origins_ascending (map row_origin l) -> rows_sorted l.
Proof.
  induction l as [|x l IH]; intros Hl; [exact I|].
  cbn [map origins_ascending] in Hl. destruct Hl as [Hx Hl].
  split; [|exact (IH Hl)].
  destruct l as [|y l]; [exact I|].
  cbn [map] in Hx. apply Forall_inv in Hx. exact Hx.
Qed.

Lemma sublist_member {A : Type} (l l' : list A) (y : A) :
  sublist l' l -> y ∈ l' -> y ∈ l.
Proof.
  induction 1 as [|x l1 l2 Hsub IH|x l1 l2 Hsub IH]; intros Hy.
  - exact Hy.
  - apply elem_of_cons in Hy as [->|Hy]; [left | right; exact (IH Hy)].
  - right. exact (IH Hy).
Qed.

Lemma ascending_sublist (l l' : list (Z * Z)) :
  sublist l' l -> origins_ascending l -> origins_ascending l'.
Proof.
  induction 1 as [|x l1 l2 Hsub IH|x l1 l2 Hsub IH]; intros Hl.
  - exact I.
  - destruct Hl as [Hx Hl]. split; [|exact (IH Hl)].
    rewrite Forall_forall in *. intros y Hy. apply Hx.
    eapply sublist_member; [exact Hsub | exact Hy].
  - destruct Hl as [_ Hl]. exact (IH Hl).
Qed.

Lemma normalize_rows_sublist (rs : list Row) (gd : string) :
  sublist (map row_origin (normalize_rows rs gd)) (map row_origin rs).
Proof.
  destruct (reconcile_origins gd rs NState_initial) as (more & E & Hsub).
  simpl in E. fold (normalize_rows rs gd) in E. rewrite E. exact Hsub.
Qed.

Lemma normalize_after_dedup_sorted (rs : list Row) (gd : string) :
  rows_sorted (normalize_rows (deduplicate_rows rs) gd).
Proof.
  apply ascending_rows_sorted.
  eapply ascending_sublist; [apply normalize_rows_sublist|].
  apply rows_sorted_ascending, deduplicate_rows_sorted.
Qed.

Lemma deduplicate_rows_length (rs : list Row) :
  (length (deduplicate_rows rs) <= length rs)%nat.
Proof.
  unfold deduplicate_rows. destruct rs as [|r rs]; [reflexivity|].
  assert (Hinit : dict_inv []) by (split; [constructor | apply NoDup_nil_2]).
  destruct (dedup_fold_effect (r :: rs) [] Hinit) as (_ & _ & Hl).
  rewrite (Permutation_length (sort_rows_perm _)), length_map.
  simpl in Hl. exact Hl.
Qed.

Lemma parse_pdf_time_label_returns (url : string) :
  exists v, parse_pdf_time_label url = Returns v.
Proof.
  unfold parse_pdf_time_label. rewrite parse_pdf_time_parts_spec.
  cbn [mbind outcome_bind].
  match goal with |- context [match ?x with _ => _ end] => destruct x as [[[[? ?] ?] ?]|] end;
    eauto.
Qed.

Lemma utcfromtimestamp_cases (t : Z) :
  (in_years t = true /\ utcfromtimestamp t = Returns t)
  \/ (in_years t = false /\ utcfromtimestamp t = Raises ValueError).
Proof. unfold utcfromtimestamp. destruct (in_years t); auto. Qed.

Lemma report_game_date_cases (latest : string) :
  match report_game_date utcoffset utc_date latest with
  | Returns _ => True
  | Raises e =>
      e = ValueError
      /\ exists stamp,
           parse_pdf_datetime utcoffset latest = Returns stamp
           /\ in_years stamp = false
  end.
Proof.
  unfold report_game_date.
  destruct (negb (PyStr.nonempty (parse_pdf_date latest))); [|exact I].
  destruct (parse_pdf_datetime_returns utcoffset latest) as [ts Hts].
  rewrite Hts. cbn [mbind outcome_bind].
  destruct (ts =? 0); [exact I|].
  destruct (utcfromtimestamp_cases ts) as [[_ ->]|[Hout ->]];
    cbn [mbind outcome_bind]; [exact I|].
  split; [reflexivity|]. exists ts. split; [reflexivity | exact Hout].
Qed.

(** X21. [fetch_injury_report], from the extracted rows to the payload.
    When this part returns a payload marked ok, the payload holds at least
    one row; its rows are in ascending (page, rowIndex) order, are not
    more than the extracted rows, each carries one and the same game
    date, a non-empty game time and a player or a status; its statistics
    are those of these rows, and the address kept in its metadata is the
    address the PDF came from.  A payload not marked ok holds no rows and
    no metadata.  When this part raises, the exception is that of writing
    the CSV file, or it is the [ValueError] of [utcfromtimestamp] at a time
    stamp outside the years 1 to 9999; so it returns a payload whenever the
    CSV can be written and the time stamp is inside these years. *)
Theorem assemble_report_payload (write_csv : list Row -> outcome unit)
  (latest pdf_path csv_path : string) (combined_rows : list Row) :
  match assemble_report utcoffset utc_date utc_iso write_csv latest pdf_path
                        csv_path combined_rows with
  | Returns p =>
      if ok p then
        exists rs gd,
          rows p = Some rs
          /\ rs <> []
          /\ rows_sorted rs
          /\ Forall (kept_row gd) rs
          /\ (length rs <= length combined_rows)%nat
          /\ stats p = Some (build_stats rs)
          /\ cached_pdf_url p = latest
      else rows p = None /\ meta p = None /\ step p = Some "parse_pdf"
  | Raises e => report_failure utcoffset write_csv latest e
  end
  /\ (stamp_in_years utcoffset latest ->
      (forall rs, write_csv rs = Returns tt) ->
      exists p,
        assemble_report utcoffset utc_date utc_iso write_csv latest pdf_path
                        csv_path combined_rows = Returns p).
Proof.
  assert (Hmain :
    match assemble_report utcoffset utc_date utc_iso write_csv latest pdf_path
                          csv_path combined_rows with
    | Returns p =>
        if ok p then
          exists rs gd,
            rows p = Some rs
            /\ rs <> []
            /\ rows_sorted rs
            /\ Forall (kept_row gd) rs
            /\ (length rs <= length combined_rows)%nat
            /\ stats p = Some (build_stats rs)
            /\ cached_pdf_url p = latest
        else rows p = None /\ meta p = None /\ step p = Some "parse_pdf"
    | Raises e => report_failure utcoffset write_csv latest e
    end).
  { unfold assemble_report.
    pose proof (report_game_date_cases latest) as Hgd.
    destruct (report_game_date utcoffset utc_date latest) as [gd|e];
      cbn [mbind outcome_bind]; [clear Hgd | right; exact Hgd].
    pose proof (normalize_after_dedup_sorted combined_rows gd) as Hsorted.
    pose proof (reconcile_kept gd (deduplicate_rows combined_rows) NState_initial
                  (List.Forall_nil _)) as Hkept.
    fold (normalize_rows (deduplicate_rows combined_rows) gd) in Hkept.
    pose proof (normalize_rows_sublist (deduplicate_rows combined_rows) gd) as Hlen.
    apply sublist_length in Hlen. rewrite !length_map in Hlen.
    pose proof (deduplicate_rows_length combined_rows) as Hlen'.
    destruct (normalize_rows (deduplicate_rows combined_rows) gd) as [|r rs] eqn:Hrows.
    { cbn. auto. }
    destruct (write_csv (r :: rs)) as [[]|e] eqn:Hcsv; cbn [mbind outcome_bind].
    2:{ left. exists (r :: rs). split; [discriminate | exact Hcsv]. }
    destruct (parse_pdf_datetime_returns utcoffset latest) as [ts Hts].
    destruct (parse_pdf_time_label_returns latest) as [label Hlabel].
    rewrite Hts. cbn [mbind outcome_bind].
    assert (Hpayload : forall published_at,
      let p := mkPayload true None None
                 (Some (mkMeta latest (last_segment latest) published_at
                               label pdf_path csv_path))
                 (Some (build_stats (r :: rs))) (Some (r :: rs)) in
      if ok p then
        exists rs0 gd0,
          rows p = Some rs0
          /\ rs0 <> []
          /\ rows_sorted rs0
          /\ Forall (kept_row gd0) rs0
          /\ (length rs0 <= length combined_rows)%nat
          /\ stats p = Some (build_stats rs0)
          /\ cached_pdf_url p = latest
      else rows p = None /\ meta p = None /\ step p = Some "parse_pdf").
    { intros published_at. cbn [ok]. exists (r :: rs), gd. cbn [rows stats].
      split; [reflexivity|]. split; [discriminate|]. split; [exact Hsorted|].
      split; [exact Hkept|]. split; [lia|]. split; reflexivity. }
    destruct (ts =? 0); cbn [mbind outcome_bind].
    - rewrite Hlabel. cbn [mbind outcome_bind]. apply Hpayload.
    - destruct (utcfromtimestamp_cases ts) as [[_ ->]|[Hout ->]];
        cbn [mbind outcome_bind].
      + rewrite Hlabel. cbn [mbind outcome_bind]. apply Hpayload.
      + right. split; [reflexivity|]. exists ts. split; [exact Hts | exact Hout]. }
  split; [exact Hmain|].
  intros Hstamp Hcsv.
  destruct (assemble_report utcoffset utc_date utc_iso write_csv latest pdf_path
              csv_path combined_rows) as [p|e]; [eauto|].
  exfalso. destruct Hmain as [(rs & _ & Hraise)|(_ & stamp & Hts & Hout)].
  - rewrite Hcsv in Hraise. discriminate.
  - rewrite (Hstamp stamp Hts) in Hout. discriminate.
Qed.

(** X22. [fetch_injury_report]: the address a successful download came
    from is the one asked for or, after a failure there, its copy on the
    mirror host; either way it ends in the same file name, so the game
    date, the time stamp and the report-time label read from it are those
    of the address asked for. *)
Theorem download_pdf_keeps_name (fetch_pdf : string -> outcome Response)
  (latest used : string) (pdf_response : Response) :
  download_pdf fetch_pdf latest = Returns (pdf_response, used) ->
  (used = latest
   \/ (exists exc, fetch_pdf latest = Raises exc)
      /\ fallback_pdf_url latest = Some used
      /\ on_mirror used = true
      /\ fetch_pdf used = Returns pdf_response)
  /\ last_segment used = last_segment latest
  /\ parse_pdf_date used = parse_pdf_date latest
  /\ parse_pdf_datetime utcoffset used = parse_pdf_datetime utcoffset latest
  /\ parse_pdf_time_label used = parse_pdf_time_label latest.
Proof.
  unfold download_pdf. intros Hdl.
  assert (Hcases : used = latest
            \/ (exists exc, fetch_pdf latest = Raises exc)
               /\ fallback_pdf_url latest = Some used
               /\ on_mirror used = true
               /\ fetch_pdf used = Returns pdf_response).
  { destruct (fetch_pdf latest) as [resp|exc] eqn:Hfirst.
    - injection Hdl as _ Hu. left. congruence.
    - right. destruct (fallback_pdf_url latest) as [fb|] eqn:Hfb; [|discriminate].
      destruct (String.eqb fb latest); [discriminate|].
      destruct (fetch_pdf fb) as [resp|exc'] eqn:Hsecond; [|discriminate].
      cbn [mbind outcome_bind] in Hdl. injection Hdl as Hr Hu. subst fb resp.
      split; [eauto|]. split; [reflexivity|]. split; [|exact Hsecond].
      unfold fallback_pdf_url in Hfb.
      destruct (negb (PyStr.nonempty (last_segment latest))); [discriminate|].
      injection Hfb as Hfb. rewrite <- Hfb. reflexivity. }
  split; [exact Hcases|].
  assert (Hseg : last_segment used = last_segment latest).
  { destruct Hcases as [->|(_ & Hfb & _)]; [reflexivity|].
    unfold fallback_pdf_url in Hfb.
    destruct (negb (PyStr.nonempty (last_segment latest))); [discriminate|].
    injection Hfb as Hfb. rewrite <- Hfb.
    apply last_segment_mirror, last_segment_no_slash. }
  split; [exact Hseg|]. split; [|split].
  - unfold parse_pdf_date. rewrite Hseg. reflexivity.
  - apply parse_pdf_datetime_by_name, Hseg.
  - apply parse_pdf_time_label_by_name, Hseg.
Qed.

End PipelineFacts.

Lemma download_pdf_keeps_name_witness :
  last_segment "https://ak-static.cms.nba.com/referee/injury/Injury-Report_2026-02-08_03_45AM.pdf"
  = last_segment "https://official.nba.com/wp/Injury-Report_2026-02-08_03_45AM.pdf".
Proof.
  apply (download_pdf_keeps_name (fun _ => 0)
           (fun url => if PyStr.contains MIRROR_HOST url
                       then Returns (mkResponse 200 "")
                       else Raises (OtherError "HTTPError"))
           "https://official.nba.com/wp/Injury-Report_2026-02-08_03_45AM.pdf"
           "https://ak-static.cms.nba.com/referee/injury/Injury-Report_2026-02-08_03_45AM.pdf"
           (mkResponse 200 "")).
  reflexivity.
Defined.

(** A file name stamped with the last minute of the year 9999, read five
    hours west of UTC: the time stamp lies in the year 10000 and the
    pipeline raises on its way to the payload. *)
Lemma assemble_report_year_10000 :
  parse_pdf_datetime (fun _ => -18000)
    "https://example.com/Injury-Report_9999-12-31_11-59PM.pdf"
  = Returns 253402318740
  /\ assemble_report (fun _ => -18000) (fun _ => "") (fun _ => "")
       (fun _ => Returns tt)
       "https://example.com/Injury-Report_9999-12-31_11-59PM.pdf" "" ""
       [test_row_heat]
     = Raises ValueError.
Proof. vm_compute. split; reflexivity. Qed.
(* ===================================================================== *)
(** * The extraction strategies *)
(* ===================================================================== *)

Section ExtractionFacts.

Local Open Scope list_scope.

Variable page_num : Z.

Lemma increasing_snoc (l : list Z) (x : Z) :
  increasing l -> Forall (fun y => y < x) l -> increasing (l ++ [x]).
Proof.
  induction l as [|a l IH]; intros Hinc Hlt; [cbn; auto|].
  destruct Hinc as [Hhead Hinc]. apply Forall_cons in Hlt as [Ha Hlt].
  specialize (IH Hinc Hlt).
  destruct l as [|b l]; cbn [app increasing] in *; [auto|].
  split; [exact Hhead | exact IH].
Qed.

Lemma map_rowIndex_set_last (v : string) (l : list Row) :
  map rowIndex (set_last_reason v l) = map rowIndex l.
Proof.
  induction l as [|r l IH]; [reflexivity|].
  destruct l as [|r' l]; [reflexivity|].
  change (set_last_reason v (r :: r' :: l)) with (r :: set_last_reason v (r' :: l)).
  cbn [map]. rewrite IH. reflexivity.
Qed.

Lemma row_of_parts_fresh (parts : list string) (i : Z) :
  fresh_row page_num (row_of_parts parts page_num i)
  /\ rowIndex (row_of_parts parts page_num i) = i.
Proof.
  unfold row_of_parts, fresh_row.
  destruct (6 <=? length parts)%nat; [|destruct (length parts =? 5)%nat];
    cbn [page gameTime gameDate rowIndex];
    (split; [split; [reflexivity | split; [apply or_else_tbd | reflexivity]]
            | reflexivity]).
Qed.

Lemma text_inv_next (i : nat) (rows : list Row) :
  text_inv page_num i rows -> text_inv page_num (S i) rows.
Proof.
  intros (Hall & Hinc & Hlen). split; [|split; [exact Hinc | lia]].
  eapply Forall_impl; [exact Hall|]. cbn. intros r [Hf Hr]. split; [exact Hf | lia].
Qed.

Lemma text_inv_set_last (i : nat) (v : string) (rows : list Row) :
  text_inv page_num i rows -> text_inv page_num i (set_last_reason v rows).
Proof.
  intros (Hall & Hinc & Hlen). split; [|split].
  - apply Forall_set_last_reason; [|exact Hall]. intros r H. exact H.
  - rewrite map_rowIndex_set_last. exact Hinc.
  - rewrite length_set_last_reason. exact Hlen.
Qed.

Lemma text_step_inv (i : nat) (rows : list Row) (line : string) :
  text_inv page_num i rows -> text_inv page_num (S i) (text_step page_num rows (i, line)).
Proof.
  intros Hinv. unfold text_step.
  destruct (is_header_or_footer line); [now apply text_inv_next|].
  destruct (String.eqb _ NYS_MARKER); [now apply text_inv_next|].
  set (parts := stripped_nonblank (re_split wide_gap_regex line)).
  destruct (_ && _); [now apply text_inv_next|].
  destruct (_ || _).
  - destruct Hinv as (Hall & Hinc & Hlen).
    destruct (row_of_parts_fresh parts (Z.of_nat i)) as [Hfresh Hidx].
    split; [|split].
    + apply Forall_app. split.
      * eapply Forall_impl; [exact Hall|]. cbn. intros r [Hf Hr].
        split; [exact Hf | lia].
      * constructor; [|constructor]. split; [exact Hfresh | lia].
    + rewrite map_app. cbn [map]. rewrite Hidx.
      apply increasing_snoc; [exact Hinc|].
      apply Forall_fmap. eapply Forall_impl; [exact Hall|].
      cbn. intros r [_ Hr]. lia.
    + rewrite length_app. cbn [length]. lia.
  - destruct (last rows) as [last_row|]; [|now apply text_inv_next].
    destruct parts as [|p0 parts']; [now apply text_inv_next|].
    destruct (negb _); [|now apply text_inv_next].
    apply text_inv_next, text_inv_set_last, Hinv.
Qed.

Lemma text_fold_inv (lines : list string) :
  forall (i : nat) (rows : list Row),
    text_inv page_num i rows ->
    text_inv page_num (i + length lines)
             (fold_left (text_step page_num) (enumerate_from i lines) rows).
Proof.
  induction lines as [|line lines IH]; intros i rows Hinv.
  - cbn. rewrite Nat.add_0_r. exact Hinv.
  - cbn [enumerate_from fold_left length].
    replace (i + S (length lines))%nat with (S i + length lines)%nat by lia.
    apply IH, text_step_inv, Hinv.
Qed.

(** X23. [parse_rows_per_page]: every row read from the text of a page
    carries the page number, a game time that is not empty and no game date
    yet; its row index is the index of a non-blank line of the page, and
    the row indexes grow strictly along the result, so there is at most one
    row per non-blank line. *)
Theorem parse_rows_per_page_rows (text_ : string) :
  let rows := parse_rows_per_page text_ page_num in
  Forall (fresh_row page_num) rows
  /\ Forall (fun r => 0 <= rowIndex r < Z.of_nat (length (page_lines text_))) rows
  /\ increasing (map rowIndex rows)
  /\ (length rows <= length (page_lines text_))%nat.
Proof.
  cbn zeta. unfold parse_rows_per_page.
  destruct (text_fold_inv (page_lines text_) 0 []) as (Hall & Hinc & Hlen).
  { split; [constructor | split; [exact I | reflexivity]]. }
  cbn [plus] in *.
  split; [|split; [|split; [exact Hinc | exact Hlen]]].
  - eapply Forall_impl; [exact Hall|]. cbn. tauto.
  - eapply Forall_impl; [exact Hall|]. cbn. tauto.
Qed.

(* --------------------------------------------------------------------- *)

Lemma all_chars_app (p : ascii -> bool) (a b : string) :
  all_chars p (a ++ b) = all_chars p a && all_chars p b.
Proof.
  induction a as [|c a IH]; [reflexivity|].
  simpl. rewrite IH. apply andb_assoc.
Qed.

Lemma rstrip_empty_all (p : ascii -> bool) (s : string) :
  PyStr.rstrip_by p s = "" -> all_chars p s = true.
Proof.
  induction s as [|c s IH]; [reflexivity|].
  cbn [PyStr.rstrip_by all_chars].
  destruct (PyStr.rstrip_by p s); [|discriminate].
  destruct (p c); [|discriminate]. intros _. now rewrite IH.
Qed.

Lemma lstrip_all (p : ascii -> bool) (s : string) :
  all_chars p (PyStr.lstrip_by p s) = true -> all_chars p s = true.
Proof.
  induction s as [|c s IH]; [reflexivity|].
  cbn [PyStr.lstrip_by]. destruct (p c) eqn:Hc; [|auto].
  intros H. cbn [all_chars]. now rewrite Hc, IH.
Qed.

Lemma strip_empty_all (s : string) :
  PyStr.strip s = "" -> all_chars PyStr.is_space s = true.
Proof.
  unfold PyStr.strip, PyStr.strip_by. intros H.
  apply lstrip_all, rstrip_empty_all, H.
Qed.

Lemma lstrip_head (p : ascii -> bool) (s : string) :
  match PyStr.lstrip_by p s with
  | EmptyString => True
  | String c _ => p c = false
  end.
Proof.
  induction s as [|c s IH]; [exact I|].
  cbn [PyStr.lstrip_by]. destruct (p c) eqn:Hc; [exact IH | exact Hc].
Qed.

Lemma strip_head (s : string) :
  match PyStr.strip s with
  | EmptyString => True
  | String c _ => PyStr.is_space c = false
  end.
Proof.
  unfold PyStr.strip, PyStr.strip_by.
  pose proof (lstrip_head PyStr.is_space s) as H.
  destruct (PyStr.lstrip_by PyStr.is_space s) as [|c r]; [exact I|].
  cbn [PyStr.rstrip_by]. destruct (PyStr.rstrip_by PyStr.is_space r).
  - rewrite H. exact H.
  - exact H.
Qed.

(** Gluing a stripped text that is not empty onto anything gives a text
    that is not empty. *)
Lemma glue_nonempty (a x : string) :
  PyStr.strip x <> "" -> glue a (PyStr.strip x) <> "".
Proof.
  intros Hx Hglue. unfold glue in Hglue. apply strip_empty_all in Hglue.
  rewrite !all_chars_app, !andb_true_iff in Hglue.
  destruct Hglue as (_ & _ & Hb).
  pose proof (strip_head x) as Hhead.
  destruct (PyStr.strip x) as [|c r]; [congruence|].
  cbn [all_chars] in Hb. rewrite Hhead in Hb. discriminate.
Qed.

Lemma safe_get_stripped (row : list Cell) (index : option nat) :
  safe_get row index = "" \/ exists x, safe_get row index = PyStr.strip x.
Proof.
  unfold safe_get. destruct index as [i|]; [|now left].
  destruct (nth_error row i) as [cell|]; [|now left]. right. eauto.
Qed.

Lemma table_row_step_inv (cols : TableCols) (st : TableState) (row : list Cell) :
  table_inv page_num st -> table_inv page_num (table_row_step cols page_num st row).
Proof.
  destruct st as [rows row_index]. intros Hinv. unfold table_row_step.
  destruct row as [|cell row']; [exact Hinv|].
  set (row := cell :: row').
  set (team_ := safe_get row (team_idx cols)).
  set (player_ := safe_get row (player_idx cols)).
  set (status_ := safe_get row (status_idx cols)).
  set (reason_ := safe_get row (reason_idx cols)).
  destruct (negb (PyStr.nonempty player_) && negb (PyStr.nonempty team_)
            && negb (PyStr.nonempty status_) && PyStr.nonempty reason_) eqn:Hcont.
  - destruct (last rows) as [last_row|] eqn:Hlast.
    + destruct Hinv as (Hidx & Hmap & Hall). cbn [fst snd] in *.
      apply andb_prop in Hcont as [_ Hreason]. apply nonempty_neq in Hreason.
      split; [|split]; cbn [fst snd].
      * rewrite length_set_last_reason. exact Hidx.
      * rewrite map_rowIndex_set_last, length_set_last_reason. exact Hmap.
      * apply Forall_set_last_reason; [|exact Hall].
        intros r (Hf & _ & Ht). split; [exact Hf|]. split; [|exact Ht].
        right. right. right. cbn [reason set_reason].
        destruct (safe_get_stripped row (reason_idx cols)) as [E|[x E]];
          fold reason_ in E; [congruence|].
        rewrite E in *. now apply glue_nonempty.
    + apply andb_prop in Hcont as [_ Hreason].
      assert (Hany : PyStr.nonempty team_ || PyStr.nonempty player_
                     || PyStr.nonempty status_ || PyStr.nonempty reason_ = true)
        by (rewrite Hreason; apply orb_true_r).
      rewrite Hany. cbn [negb].
      destruct (existsb _ _) eqn:Htitle; [exact Hinv|].
      destruct rows as [|r0 rows0]; [|now destruct (last_is_Some (r0 :: rows0)) as [_ [? H]];
        [eauto | rewrite Hlast in H; discriminate]].
      destruct Hinv as (Hidx & _ & _). cbn [fst snd length] in *. subst row_index.
      split; [reflexivity|]. split; [reflexivity|]. cbn [fst app].
      constructor; [|constructor]. split; [|split].
      * split; [reflexivity|]. split; [apply or_else_tbd | reflexivity].
      * right. right. right. cbn [reason]. now apply nonempty_neq.
      * cbn [existsb] in Htitle. rewrite !orb_false_iff in Htitle.
        destruct Htitle as (H1 & H2 & _).
        apply String.eqb_neq in H1, H2. exact (conj H1 H2).
  - destruct (negb (PyStr.nonempty team_ || PyStr.nonempty player_
                    || PyStr.nonempty status_ || PyStr.nonempty reason_)) eqn:Hany;
      [exact Hinv|].
    destruct (existsb _ _) eqn:Htitle; [exact Hinv|].
    destruct Hinv as (Hidx & Hmap & Hall). cbn [fst snd] in *.
    split; [|split]; cbn [fst snd].
    + rewrite length_app. cbn [length]. lia.
    + rewrite length_app, map_app. cbn [length map rowIndex].
      rewrite Nat.add_1_r, seq_S, map_app, Hmap, Hidx. reflexivity.
    + apply Forall_app. split; [exact Hall|].
      constructor; [|constructor]. split; [|split].
      * split; [reflexivity|]. split; [apply or_else_tbd | reflexivity].
      * apply negb_false_iff in Hany. rewrite !orb_true_iff in Hany.
        unfold has_content. cbn [team player status reason].
        rewrite <- !nonempty_neq. tauto.
      * cbn [existsb] in Htitle. rewrite !orb_false_iff in Htitle.
        destruct Htitle as (H1 & H2 & _).
        apply String.eqb_neq in H1, H2. exact (conj H1 H2).
Qed.

Lemma table_step_inv (st : TableState) (table : list (list Cell)) :
  table_inv page_num st -> table_inv page_num (table_step page_num st table).
Proof.
  intros Hinv. unfold table_step.
  destruct table as [|header [|row body]]; [exact Hinv | exact Hinv |].
  destruct header as [|h header]; [exact Hinv|].
  generalize (table_columns (h :: header)). intros cols.
  generalize (row :: body). intros l. revert st Hinv.
  induction l as [|x l IH]; intros st Hinv; [exact Hinv|].
  cbn [fold_left]. apply IH, table_row_step_inv, Hinv.
Qed.

(** X24. [extract_rows_from_tables_per_page]: the rows read from the tables
    of a page are numbered 0, 1, 2, ... without a gap, across the tables;
    each carries the page number, a game time that is not empty and no game
    date yet, has a team, a player, a status or a reason, and its player
    cell is not the column title PLAYER or NAME. *)
Theorem extract_rows_from_tables_rows (tables : list (list (list Cell))) :
  let rows := extract_rows_from_tables_per_page tables page_num in
  map rowIndex rows = map Z.of_nat (seq 0 (length rows))
  /\ Forall (fresh_row page_num) rows
  /\ Forall has_content rows
  /\ Forall not_a_title rows.
Proof.
  cbn zeta. unfold extract_rows_from_tables_per_page.
  assert (Hinv : table_inv page_num (fold_left (table_step page_num) tables ([], 0))).
  { assert (Hinit : table_inv page_num ([], 0))
      by (split; [reflexivity | split; [reflexivity | constructor]]).
    revert Hinit. generalize (([], 0) : TableState).
    induction tables as [|t tables IH]; intros st Hst; [exact Hst|].
    cbn [fold_left]. apply IH, table_step_inv, Hst. }
  destruct Hinv as (_ & Hmap & Hall).
  split; [exact Hmap|].
  repeat split; (eapply Forall_impl; [exact Hall|]); cbn; tauto.
Qed.

End ExtractionFacts.
(* ===================================================================== *)
(** * The CSV validator *)
(* ===================================================================== *)

Section ValidatorFacts.

Local Open Scope list_scope.

Lemma filter_nil_app {A : Type} (f : A -> bool) (l l' : list A) :
  List.filter f (l ++ l') = [] <-> List.filter f l = [] /\ List.filter f l' = [].
Proof.
  rewrite List.filter_app. split.
  - intros H. apply app_eq_nil in H. exact H.
  - intros [-> ->]. reflexivity.
Qed.

Lemma report_error (t : bool) (c : string) (n : option Z) (l : list Issue) :
  List.filter is_error (report t (mkIssue "ERROR" c n) l) = []
  <-> List.filter is_error l = [] /\ t = false.
Proof.
  unfold report. destruct t.
  - rewrite filter_nil_app. cbn. split; [intros [_ H]; discriminate | intros [_ H]; discriminate].
  - tauto.
Qed.

Lemma report_warning (t : bool) (c : string) (n : option Z) (l : list Issue) :
  List.filter is_error (report t (mkIssue "WARN" c n) l) = List.filter is_error l.
Proof.
  unfold report. destruct t; [|reflexivity].
  rewrite List.filter_app. cbn. apply app_nil_r.
Qed.

Lemma validate_row_errors (l : list Issue) (seen : gset CsvKey)
  (index : nat) (row : CsvRow) :
  List.filter is_error (fst (validate_row (l, seen) (index, row))) = []
  <-> List.filter is_error l = [] /\ clean_row row.
Proof.
  unfold validate_row, clean_row.
  set (reason_ := normalize_spaces (csv_reason row)).
  set (n := Some (Z.of_nat index)).
  match goal with
  | |- context [if bool_decide ?P then (?a ++ [?w], _) else (?b, _)] =>
      assert (Hlast : List.filter is_error
                        (fst (if bool_decide P then (a ++ [w], seen)
                              else (b, {[csv_key row]} ∪ seen)))
                      = List.filter is_error a)
  end.
  { destruct (bool_decide _); cbn [fst]; [|reflexivity].
    rewrite List.filter_app. cbn. apply app_nil_r. }
  rewrite Hlast. clear Hlast.
  rewrite report_warning, !report_error.
  rewrite !andb_false_iff, Nat.ltb_ge.
  assert (Hreason : PyStr.nonempty reason_ = false -> reason_ = "")
    by (destruct reason_; [reflexivity | discriminate]).
  assert (Hclean : is_contaminated_reason "" = false) by reflexivity.
  destruct (csv_is_nys row); cbn [negb].
  - split.
    + intros [[Hl Hlen] Hcont]. split; [exact Hl|]. split; [now left|].
      split.
      * destruct Hlen as [E|Hlen]; [|exact Hlen].
        rewrite (Hreason E). cbn. unfold MAX_REASON_LEN. lia.
      * destruct Hcont as [E|Hcont]; [|exact Hcont].
        rewrite (Hreason E). exact Hclean.
    + intros (Hl & _ & Hlen & Hcont). auto.
  - rewrite !report_error, !negb_false_iff, !nonempty_neq. split.
    + intros [[((((Hl & Ht) & Hp) & Hs) & Hr) Hlen] Hcont].
      split; [exact Hl|]. split; [right; auto|]. split.
      * destruct Hlen as [E|Hlen]; [|exact Hlen]. apply Hreason in E. congruence.
      * destruct Hcont as [E|Hcont]; [|exact Hcont]. apply Hreason in E. congruence.
    + intros (Hl & [Hnys|(Ht & Hp & Hs & Hr)] & Hlen & Hcont); [discriminate|].
      auto 10.
Qed.

Lemma validate_fold_errors (rows : list CsvRow) :
  forall (i : nat) (st : list Issue * gset CsvKey),
    List.filter is_error (fst (fold_left validate_row (enumerate_from i rows) st)) = []
    <-> List.filter is_error (fst st) = [] /\ Forall clean_row rows.
Proof.
  induction rows as [|row rows IH]; intros i st.
  - cbn. split; [intros H; split; [exact H | constructor] | tauto].
  - cbn [enumerate_from fold_left]. rewrite IH. destruct st as [l seen].
    rewrite validate_row_errors. cbn [fst]. rewrite Forall_cons. tauto.
Qed.

Lemma missing_columns_none (columns : list string) :
  List.filter (fun column => negb (existsb (String.eqb column) columns))
              REQUIRED_COLUMNS = []
  <-> (forall c, In c REQUIRED_COLUMNS -> In c columns).
Proof.
  generalize REQUIRED_COLUMNS. intros req.
  induction req as [|c req IH].
  - cbn. split; [intros _ c [] | reflexivity].
  - cbn [List.filter]. destruct (existsb (String.eqb c) columns) eqn:Hc; cbn [negb].
    + rewrite IH. apply existsb_exists in Hc as (c' & Hin & Heq).
      apply String.eqb_eq in Heq. subst c'. split.
      * intros H x [->|Hx]; auto.
      * intros H x Hx. apply H. now right.
    + split; [discriminate|]. intros H. exfalso.
      assert (Hin : In c columns) by (apply H; now left).
      assert (Hex : existsb (String.eqb c) columns = true).
      { apply existsb_exists. exists c. split; [exact Hin | apply String.eqb_refl]. }
      congruence.
Qed.

Lemma result_ok_errors (r : ValidationResult) :
  result_ok r = true <-> List.filter is_error (issues r) = [].
Proof.
  unfold result_ok, errors. destruct (List.filter is_error (issues r));
    split; congruence.
Qed.

(** X25. [validate_csv]: without strict warnings a file passes exactly when
    it has all six required columns, at least one data row, and every row
    is clean: its team, player, status and reason are not blank unless the
    row is a NOT YET SUBMITTED row, its reason has at most 180 characters,
    and its reason matches none of the four patterns of leaked text. *)
Theorem validate_csv_passes (columns : list string) (rows : list CsvRow) :
  result_ok (validate_csv columns rows false) = true
  <-> (forall c, In c REQUIRED_COLUMNS -> In c columns)
      /\ rows <> []
      /\ Forall clean_row rows.
Proof.
  rewrite result_ok_errors, <- missing_columns_none. unfold validate_csv.
  destruct (List.filter _ REQUIRED_COLUMNS) as [|c missing].
  - destruct rows as [|row rows].
    + cbn. split; [discriminate | intros (_ & H & _); congruence].
    + cbn [andb issues]. rewrite validate_fold_errors. cbn [fst List.filter].
      split.
      * intros [_ H]. split; [reflexivity|]. split; [discriminate | exact H].
      * intros (_ & _ & H). split; [reflexivity | exact H].
  - cbn. split; [discriminate | intros [H _]; discriminate].
Qed.

Lemma leveled_report (t : bool) (i : Issue) (l : list Issue) :
  is_error i || is_warning i = true -> leveled l -> leveled (report t i l).
Proof.
  intros Hi Hl. unfold report. destruct t; [|exact Hl].
  apply Forall_app. split; [exact Hl | constructor; [exact Hi | constructor]].
Qed.

Lemma validate_row_leveled (st : list Issue * gset CsvKey) (entry : nat * CsvRow) :
  leveled (fst st) -> leveled (fst (validate_row st entry)).
Proof.
  destruct st as [l seen], entry as [index row]. cbn [fst]. intros Hl.
  unfold validate_row.
  destruct (bool_decide _); cbn [fst];
    [apply Forall_app; split; [|constructor; [reflexivity | constructor]]|];
    (repeat (apply leveled_report; [reflexivity|]));
    (destruct (negb (csv_is_nys row));
       [repeat (apply leveled_report; [reflexivity|]) |]; exact Hl).
Qed.

Lemma validate_fold_leveled (rows : list CsvRow) :
  forall (i : nat) (st : list Issue * gset CsvKey),
    leveled (fst st) ->
    leveled (fst (fold_left validate_row (enumerate_from i rows) st)).
Proof.
  induction rows as [|row rows IH]; intros i st Hst; [exact Hst|].
  cbn [enumerate_from fold_left]. apply IH, validate_row_leveled, Hst.
Qed.

Lemma leveled_none (l : list Issue) :
  leveled l -> List.filter is_error l = [] -> List.filter is_warning l = [] ->
  l = [].
Proof.
  intros Hl He Hw. destruct l as [|i l]; [reflexivity|]. exfalso.
  apply Forall_cons in Hl as [Hi _]. cbn [List.filter] in He, Hw.
  destruct (is_error i); [discriminate|]. destruct (is_warning i); discriminate.
Qed.

Lemma strict_issue_errors (l : list Issue) :
  List.filter is_error (map strict_issue l) = [] -> l = [].
Proof. destruct l; [reflexivity | discriminate]. Qed.

(** X26. [validate_csv]: with strict warnings a file passes exactly when
    nothing at all was reported: every warning has been turned into an
    error of its own. *)
Theorem validate_csv_strict (columns : list string) (rows : list CsvRow) :
  result_ok (validate_csv columns rows true) = true
  <-> issues (validate_csv columns rows true) = [].
Proof.
  rewrite result_ok_errors. split; [|intros ->; reflexivity].
  unfold validate_csv.
  destruct (List.filter _ REQUIRED_COLUMNS) as [|c missing]; [|discriminate].
  destruct rows as [|row rows]; [discriminate|].
  cbn [issues andb].
  set (base := fst (fold_left validate_row (enumerate_from 2 (row :: rows)) ([], ∅))).
  assert (Hbase : leveled base)
    by (apply validate_fold_leveled; constructor).
  destruct (List.filter is_warning base) as [|w ws] eqn:Hw.
  - intros He. apply leveled_none; assumption.
  - rewrite filter_nil_app. intros [_ Hs].
    apply strict_issue_errors in Hs. discriminate.
Qed.

(** X27. [_is_contaminated_reason], [looks_like_player_blob]: the validator
    and the reconciler agree on leaked text in one direction: a reason that
    the validator reports as contaminated is one that the reconciler's own
    test takes for a leaked blob. *)
Theorem contaminated_is_blob (text_ : string) :
  is_contaminated_reason text_ = true -> looks_like_player_blob text_ = true.
Proof.
  unfold is_contaminated_reason, looks_like_player_blob.
  destruct (negb (PyStr.nonempty (normalize_spaces text_))); [discriminate|].
  destruct (Re.found (Re.search true player_status_blob_regex _)); [reflexivity|].
  destruct (Re.found (Re.search true page_marker_regex _)); [reflexivity|].
  destruct (Re.found (Re.search false matchup_blob_regex _)); [reflexivity|].
  destruct (Re.found (Re.search true date_or_time_blob_regex _)); [reflexivity|].
  discriminate.
Qed.

End ValidatorFacts.

Lemma contaminated_is_blob_witness :
  looks_like_player_blob "02/08/2026 Knee Soreness" = true.
Proof. apply contaminated_is_blob. vm_compute. reflexivity. Defined.

(* ===================================================================== *)
(** * Team logos *)
(* ===================================================================== *)

Section LogoFacts.

Local Open Scope nat_scope.
Local Open Scope string_scope.

Variable force : bool.
Variable get : string -> outcome Response.

Lemma logo_step_effect (st : LogoSync) (code_ : string) :
  let st' := logo_step force get st code_ in
  downloaded st' + skipped st' + failed st'
  = downloaded st + skipped st + failed st + 1
  /\ files st ⊆ files st'
  /\ files st' ⊆ {[ code_ ++ ".png" ]} ∪ files st
  /\ failed st <= failed st'
  /\ (failed st' = failed st -> (code_ ++ ".png")%string ∈ files st').
Proof.
  cbn zeta. unfold logo_step.
  destruct (bool_decide _ && negb force) eqn:Hskip.
  - cbn. repeat split; try lia; try set_solver.
    intros _. apply andb_prop in Hskip as [H _]. now apply bool_decide_eq_true in H.
  - destruct (get (team_logo_url code_)) as [response|exc].
    + destruct ((status_code response =? 200)%Z && PyStr.nonempty (content response)).
      * cbn. repeat split; try lia; set_solver.
      * cbn. repeat split; try lia; try set_solver.
    + cbn. repeat split; try lia; try set_solver.
Qed.

Lemma logo_fold_effect (codes : list string) :
  forall st,
    let st' := fold_left (logo_step force get) codes st in
    downloaded st' + skipped st' + failed st'
    = downloaded st + skipped st + failed st + length codes
    /\ files st ⊆ files st'
    /\ (forall file, file ∈ files st' ->
          file ∈ files st \/ exists code_, In code_ codes /\ file = (code_ ++ ".png")%string)
    /\ failed st <= failed st'
    /\ (failed st' = failed st ->
        forall code_, In code_ codes -> (code_ ++ ".png")%string ∈ files st').
Proof.
  induction codes as [|c codes IH]; intros st; cbn zeta.
  - cbn [fold_left length].
    split; [lia|]. split; [reflexivity|]. split; [intros file H; now left|].
    split; [lia|]. intros _ ? [].
  - cbn [fold_left length].
    destruct (logo_step_effect st c) as (Hsum & Hkeep & Hnew & Hmono & Hdone).
    destruct (IH (logo_step force get st c)) as (Hsum' & Hkeep' & Hnew' & Hmono' & Hdone').
    split; [lia|]. split; [etrans; [exact Hkeep | exact Hkeep']|].
    split; [|split; [lia|]].
    + intros file Hfile. destruct (Hnew' file Hfile) as [Hin|(c' & Hc' & ->)].
      * apply Hnew in Hin. apply elem_of_union in Hin as [Hin|Hin]; [|now left].
        apply elem_of_singleton in Hin. right. exists c. split; [now left | exact Hin].
      * right. exists c'. split; [now right | reflexivity].
    + intros Hzero code_ [<-|Hin].
      * apply Hkeep', Hdone. lia.
      * apply Hdone'; [lia | exact Hin].
Qed.

Lemma sync_team_logos_complete (existing : gset string) :
  failed (sync_team_logos existing force get) = 0 ->
  forall code_, In code_ TEAM_LOGO_CODES ->
    (code_ ++ ".png")%string ∈ files (sync_team_logos existing force get).
Proof.
  unfold sync_team_logos.
  destruct (logo_fold_effect TEAM_LOGO_CODES (mkLogoSync existing 0 0 0))
    as (_ & _ & _ & _ & Hdone).
  exact Hdone.
Qed.

(** X28. [sync_team_logos]: every one of the thirty codes is counted once,
    as downloaded, skipped or failed; no file that was there is lost; every
    file that is new is the logo of one of the codes; and when nothing is
    counted as failed the logo of every code is there. *)
Theorem sync_team_logos_accounts (existing : gset string) :
  let st := sync_team_logos existing force get in
  downloaded st + skipped st + failed st = 30
  /\ existing ⊆ files st
  /\ (forall file, file ∈ files st ->
        file ∈ existing
        \/ exists code_, In code_ TEAM_LOGO_CODES /\ file = (code_ ++ ".png")%string)
  /\ (failed st = 0 ->
      forall code_, In code_ TEAM_LOGO_CODES -> (code_ ++ ".png")%string ∈ files st).
Proof.
  cbn zeta. unfold sync_team_logos.
  destruct (logo_fold_effect TEAM_LOGO_CODES (mkLogoSync existing 0 0 0))
    as (Hsum & Hkeep & Hnew & _ & Hdone).
  cbn [downloaded skipped failed files] in *.
  split; [exact Hsum|]. split; [exact Hkeep|]. split; [exact Hnew | exact Hdone].
Qed.

Lemma dict_get_in (k v : string) (d : list (string * string)) :
  dict_get k d = Some v -> In v (map snd d).
Proof.
  induction d as [|[k' v'] d IH]; [discriminate|].
  cbn [dict_get map snd]. destruct (String.eqb k' k).
  - intros [= ->]. now left.
  - intros H. right. exact (IH H).
Qed.

Lemma logo_codes_known :
  forall code_, In code_ (map snd TEAM_LOGO_CODE_BY_NAME) -> In code_ TEAM_LOGO_CODES.
Proof.
  intros code_ Hin. cbn in Hin.
  repeat (destruct Hin as [<-|Hin]; [cbn; tauto|]). destruct Hin.
Qed.

(** X29. [team_logo_src], [sync_team_logos]: after a run of the asset
    script in which no logo is counted as failed, every address that the
    dashboard gives for a team name is that of a file of the logo
    directory. *)
Theorem team_logo_src_is_synced (existing : gset string)
  (team_name src : string) :
  failed (sync_team_logos existing force get) = 0 ->
  team_logo_src team_name = Some src ->
  exists file,
    src = ("/assets/team_logos/" ++ file)%string
    /\ file ∈ files (sync_team_logos existing force get).
Proof.
  intros Hzero Hsrc. unfold team_logo_src in Hsrc.
  destruct (dict_get _ TEAM_LOGO_CODE_BY_NAME) as [code_|] eqn:Hget; [|discriminate].
  destruct (negb (PyStr.nonempty code_)); [discriminate|].
  injection Hsrc as <-. exists (code_ ++ ".png")%string. split; [reflexivity|].
  apply sync_team_logos_complete; [exact Hzero|].
  apply logo_codes_known. eapply dict_get_in. exact Hget.
Qed.

End LogoFacts.

Lemma team_logo_src_is_synced_witness :
  exists file,
    "/assets/team_logos/mia.png" = "/assets/team_logos/" ++ file
    /\ file ∈ files (sync_team_logos ∅ false
                       (fun _ => Returns (mkResponse 200 "png"))).
Proof.
  apply (team_logo_src_is_synced false (fun _ => Returns (mkResponse 200 "png"))
           ∅ " Miami Heat ").
  - vm_compute. reflexivity.
  - reflexivity.
Defined.
